(** * Stratified K-fold cross-validation of the gastrectomy risk model

    A shallow embedding of [scripts/cross_validate_gastrectomy.js]:
    [createStratifiedFolds], [evaluateFold], [calculateStats] and
    [runCrossValidation], together with the properties of the
    cross-validation engine.  Around it, the functions of the repository
    that it calls or that stand beside it: the reading of the records,
    [calculateAUC] and [evaluateModel] of the training script,
    [validateDataStructure], [authenticateToken] and
    [validatePredictionInput] of the server, and [createModel] of
    [ModelArchitecture].

    Numbers.  JavaScript numbers are IEEE doubles.  They are modelled by
    exact rationals extended with the three special values the source can
    produce or propagate ([NaN], [+Infinity], [-Infinity]); rounding and the
    sign of zero are not represented.  Counters and ranks ([tp], [sumRanks],
    indices, ...) are integers and are kept in [Z] and [nat]: doubles
    represent them exactly below 2^53.  Predicted probabilities and labels
    are finite numbers, kept in [Q]; [label === 1] is equality of rationals.
    The one comparison of the script that the rounding decides, that of the
    standard deviation of auc with 0.05, is made on doubles: [Double]
    repeats the computation of [calculateStats] in binary64 arithmetic.

    Collaborators.  Data loading, the tensors, the model and its training
    are outside the script; they enter as parameters, and so do [Math.sin],
    the engine's sort under the random comparator of [shuffle], and the
    answers of the file system to [fs.mkdir] and [fs.writeFile]. *)

From Stdlib Require Import String.
From Stdlib Require Floats.
From Stdlib Require Import QArith Qround ZArith List Lia Lqa Bool.
From Stdlib Require Import Permutation Sorted.
Import ListNotations.

Set Implicit Arguments.
Set Warnings "-register-all".

(* ------------------------------------------------------------------ *)
(** ** JavaScript numbers *)

Module JS.

Inductive number : Type :=
| Fin (q : Q)
| PosInf
| NegInf
| NaN.

(** Finite results are kept in lowest terms, so that equal numbers are
    equal terms. *)
Definition fin (q : Q) : number := Fin (Qred q).

Definition of_Z (z : Z) : number := fin (inject_Z z).
Definition of_nat (n : nat) : number := of_Z (Z.of_nat n).

Definition zero : number := of_Z 0.

Definition neg (x : number) : number :=
  match x with
  | Fin q => fin (- q)
  | PosInf => NegInf
  | NegInf => PosInf
  | NaN => NaN
  end.

(** [x + y] *)
Definition add (x y : number) : number :=
  match x, y with
  | NaN, _ | _, NaN => NaN
  | PosInf, NegInf | NegInf, PosInf => NaN
  | PosInf, _ | _, PosInf => PosInf
  | NegInf, _ | _, NegInf => NegInf
  | Fin a, Fin b => fin (a + b)
  end.

(** [x - y] *)
Definition sub (x y : number) : number := add x (neg y).

Definition is_zero (q : Q) : bool := Qeq_bool q 0.
Definition is_neg (q : Q) : bool := negb (Qle_bool 0 q).

(** The infinity carrying the sign of [q] (zero counts as positive). *)
Definition inf_signed (q : Q) : number :=
  if is_neg q then NegInf else PosInf.

(** [x * y] *)
Definition mul (x y : number) : number :=
  match x, y with
  | NaN, _ | _, NaN => NaN
  | Fin a, Fin b => fin (a * b)
  | Fin a, PosInf | PosInf, Fin a =>
      if is_zero a then NaN else inf_signed a
  | Fin a, NegInf | NegInf, Fin a =>
      if is_zero a then NaN else neg (inf_signed a)
  | PosInf, PosInf | NegInf, NegInf => PosInf
  | PosInf, NegInf | NegInf, PosInf => NegInf
  end.

(** [x / y]: a zero divisor gives [NaN] for [0 / 0] and an infinity
    otherwise. *)
Definition div (x y : number) : number :=
  match x, y with
  | NaN, _ | _, NaN => NaN
  | Fin a, Fin b =>
      if is_zero b then (if is_zero a then NaN else inf_signed a)
      else fin (a / b)
  | Fin _, (PosInf | NegInf) => zero
  | (PosInf | NegInf), (PosInf | NegInf) => NaN
  | PosInf, Fin b => inf_signed b
  | NegInf, Fin b => neg (inf_signed b)
  end.

(** [Math.pow(x, 2)] *)
Definition pow2 (x : number) : number := mul x x.

(** [x || 0]: [NaN] and zero are the falsy numbers. *)
Definition or_zero (x : number) : number :=
  match x with
  | NaN => zero
  | Fin q => if is_zero q then zero else x
  | _ => x
  end.

(** [Math.sqrt] has irrational results; its value is kept as the exact
    radical of its argument. *)
Inductive radical : Type :=
| Sqrt (radicand : number).

Definition Math_sqrt (x : number) : radical := Sqrt x.

(** What can be thrown.  [TypeError] is what the script itself can raise,
    [SystemError] what [fs.mkdir] and [fs.writeFile] reject with ([code]
    being [ENOTDIR], [EACCES], ...); [InvalidConfiguration] and
    [DegenerateFoldError] are the failures the specification names, which
    no statement of the script raises. *)
Inductive error : Type :=
| TypeError
| SystemError (code : string)
| InvalidConfiguration
| DegenerateFoldError (foldIndex : nat).

(** What a call can do: return a value or throw. *)

Inductive outcome (A : Type) : Type :=
| Returned (a : A)
| Thrown (e : error).
Arguments Thrown {A} e.

Definition bind {A B : Type} (m : outcome A) (k : A -> outcome B)
  : outcome B :=
  match m with
  | Returned a => k a
  | Thrown e => Thrown e
  end.

(** [Array.prototype.sort] for a comparator that is a consistent
    ordering of the elements: the language requires the sort to be stable,
    which fixes the result.  Insertion of each element behind everything
    that does not come strictly after it computes that result (see
    [sort_byPredDescending_stable]). *)
Section Sort.
Context {A : Type} (comparator : A -> A -> Q).

Fixpoint insert (x : A) (sorted : list A) : list A :=
  match sorted with
  | [] => [x]
  | y :: ys =>
      if is_neg (comparator x y) then x :: y :: ys
      else y :: insert x ys
  end.

Definition sort (arr : list A) : list A :=
  fold_left (fun sorted x => insert x sorted) arr [].
End Sort.

End JS.

Import JS.

(* ------------------------------------------------------------------ *)
(** ** Doubles *)

(** Binary64 arithmetic, every operation rounded to nearest, ties to
    even. *)
Module Double.

(** The double nearest to an integer. *)
Definition of_Z (z : Z) : PrimFloat.float :=
  FloatOps.SF2Prim
    (SpecFloat.binary_normalize FloatOps.prec FloatOps.emax z 0 false).

Definition of_nat (n : nat) : PrimFloat.float := of_Z (Z.of_nat n).

(** The double of a number.  A fraction is the quotient of two integers
    rounded once: what the division that produced it left in the engine,
    and what a decimal literal denotes. *)
Definition of_number (x : number) : PrimFloat.float :=
  match x with
  | Fin q => PrimFloat.div (of_Z (Qnum q)) (of_Z (Zpos (Qden q)))
  | PosInf => PrimFloat.infinity
  | NegInf => PrimFloat.neg_infinity
  | NaN => PrimFloat.nan
  end.

(** [Math.pow(x, 2)], which the engine computes as the product. *)
Definition pow2 (x : PrimFloat.float) : PrimFloat.float :=
  PrimFloat.mul x x.

(** [values.reduce((a, b) => a + b) / values.length]; on no value, where
    the source throws, [NaN]. *)
Definition mean (values : list PrimFloat.float) : PrimFloat.float :=
  match values with
  | [] => PrimFloat.nan
  | v :: vs =>
      PrimFloat.div (fold_left PrimFloat.add vs v) (of_nat (length values))
  end.

(** [Math.sqrt(values.reduce((a, b) => a + Math.pow(b - mean, 2), 0)
      / values.length)] *)
Definition std (values : list PrimFloat.float) : PrimFloat.float :=
  let mean := mean values in
  PrimFloat.sqrt
    (PrimFloat.div
       (fold_left (fun a b => PrimFloat.add a (pow2 (PrimFloat.sub b mean)))
          values PrimFloat.zero)
       (of_nat (length values))).

End Double.

Notation "x <- m ;; k" := (JS.bind m (fun x => k))
  (at level 61, m at next level, right associativity).

(* ------------------------------------------------------------------ *)
(** ** evaluateFold: metrics of one test fold *)

Record ConfusionMatrix : Type := mkCM {
  tp : Z;
  fp : Z;
  tn : Z;
  fn : Z
}.

Record FoldResult : Type := mkFoldResult {
  accuracy : number;
  precision : number;
  recall : number;
  f1 : number;
  specificity : number;
  auc : number;
  confusionMatrix : ConfusionMatrix
}.

Record Pair : Type := mkPair {
  pred : Q;
  label : Q
}.

Definition threshold : Q := 5 # 10.

(** [p[0] >= threshold ? 1 : 0] *)
Definition binarize (p : Q) : Z :=
  if Qle_bool threshold p then 1%Z else 0%Z.

(** The four independent tests of the counting loop body. *)
Definition tally (cm : ConfusionMatrix) (pred : Z) (actual : Q)
  : ConfusionMatrix :=
  let is1 := Qeq_bool actual 1 in
  let is0 := Qeq_bool actual 0 in
  let cm1 := if (pred =? 1)%Z && is1
             then mkCM (tp cm + 1) (fp cm) (tn cm) (fn cm) else cm in
  let cm2 := if (pred =? 1)%Z && is0
             then mkCM (tp cm1) (fp cm1 + 1) (tn cm1) (fn cm1) else cm1 in
  let cm3 := if (pred =? 0)%Z && is0
             then mkCM (tp cm2) (fp cm2) (tn cm2 + 1) (fn cm2) else cm2 in
  if (pred =? 0)%Z && is1
  then mkCM (tp cm3) (fp cm3) (tn cm3) (fn cm3 + 1) else cm3.

(** [binary.forEach((pred, i) => { const actual = labels[i][0]; ... })]:
    reading [labels[i][0]] past the end of [labels] throws. *)
Fixpoint countLoop (binary : list Z) (i : nat) (labels : list Q)
    (cm : ConfusionMatrix) : outcome ConfusionMatrix :=
  match binary with
  | [] => Returned cm
  | pred :: rest =>
      match nth_error labels i with
      | None => Thrown TypeError
      | Some actual => countLoop rest (S i) labels (tally cm pred actual)
      end
  end.

(** [predictions.map((pred, i) => ({pred: pred[0], label: labels[i][0]}))] *)
Fixpoint makePairs (predictions : list Q) (i : nat) (labels : list Q)
  : outcome (list Pair) :=
  match predictions with
  | [] => Returned []
  | p :: rest =>
      match nth_error labels i with
      | None => Thrown TypeError
      | Some l =>
          ps <- makePairs rest (S i) labels ;;
          Returned (mkPair p l :: ps)
      end
  end.

(** [(a, b) => b.pred - a.pred] *)
Definition byPredDescending (a b : Pair) : Q := pred b - pred a.

Record RankState : Type := mkRank {
  positives : Z;
  negatives : Z;
  sumRanks : Z
}.

(** [pairs.forEach((pair, i) => ...)] of the AUC computation. *)
Fixpoint rankLoop (pairs : list Pair) (i : nat) (st : RankState)
  : RankState :=
  match pairs with
  | [] => st
  | p :: rest =>
      rankLoop rest (S i)
        (if Qeq_bool (label p) 1
         then mkRank (positives st + 1) (negatives st)
                     (sumRanks st + (Z.of_nat i + 1))
         else mkRank (positives st) (negatives st + 1) (sumRanks st))
  end.

Definition aucOfRanks (st : RankState) : number :=
  div (sub (of_Z (sumRanks st))
           (div (of_Z (positives st * (positives st + 1))) (of_Z 2)))
      (of_Z (positives st * negatives st)).

(** [evaluateFold], from the predictions of the model on the test fold
    (the column [p[0]]) and the test labels (the column [labels[i][0]]). *)
Definition evaluateFold (predictions labels : list Q) : outcome FoldResult :=
  let binary := map binarize predictions in
  cm <- countLoop binary 0 labels (mkCM 0 0 0 0) ;;
  let accuracy :=
    div (of_Z (tp cm + tn cm)) (of_Z (tp cm + tn cm + fp cm + fn cm)) in
  let precision := or_zero (div (of_Z (tp cm)) (of_Z (tp cm + fp cm))) in
  let recall := or_zero (div (of_Z (tp cm)) (of_Z (tp cm + fn cm))) in
  let f1 :=
    or_zero (div (mul (of_Z 2) (mul precision recall))
                 (add precision recall)) in
  let specificity := or_zero (div (of_Z (tn cm)) (of_Z (tn cm + fp cm))) in
  unsorted <- makePairs predictions 0 labels ;;
  let pairs := sort byPredDescending unsorted in
  let st := rankLoop pairs 0 (mkRank 0 0 0) in
  Returned (mkFoldResult accuracy precision recall f1 specificity
              (aucOfRanks st) cm).

(* ------------------------------------------------------------------ *)
(** ** The environment of a run *)

(** Lines written to the console, with the values interpolated into them
    (banners and the formatting of numbers are left out). *)
Inductive console_line : Type :=
| LogCreatingFolds (k : Z)
| LogFoldsCreated
| LogFoldSummary (foldNumber : nat) (samples : nat) (positive negative : Z)
| LogFoldStart (foldNumber : nat) (trainSamples testSamples : nat)
| LogFoldMetrics (foldNumber : nat) (metrics : FoldResult)
| LogResultsSaved (path : string)
| LogStable
| LogVariable
| LogCompleted
| LogFailed (e : error).

(** Plain values, for the report object and the JSON text of its file. *)
Inductive jsval : Type :=
| JNull
| JNumber (n : number)
| JRadical (r : radical)
| JString (s : string)
| JBool (b : bool)
| JArray (items : list jsval)
| JObject (fields : list (string * jsval)).

Definition keys (v : jsval) : list string :=
  match v with
  | JObject fields => map fst fields
  | _ => []
  end.

Fixpoint assoc (key : string) (fields : list (string * jsval))
  : option jsval :=
  match fields with
  | [] => None
  | (k, v) :: rest => if String.eqb key k then Some v else assoc key rest
  end.

(** [obj[key]] *)
Definition get (key : string) (v : jsval) : option jsval :=
  match v with
  | JObject fields => assoc key fields
  | _ => None
  end.

(** The console, and the files with what they hold. *)
Record World : Type := mkWorld {
  console : list console_line;
  files : list (string * jsval)
}.

(** Computations that log, write files and may throw. *)
Definition Eff (A : Type) : Type := World -> outcome A * World.

Definition ret {A : Type} (a : A) : Eff A := fun w => (Returned a, w).

Definition bindEff {A B : Type} (m : Eff A) (k : A -> Eff B) : Eff B :=
  fun w =>
    match m w with
    | (Returned a, w') => k a w'
    | (Thrown e, w') => (Thrown e, w')
    end.

Definition lift {A : Type} (m : outcome A) : Eff A := fun w => (m, w).

(** [console.log] *)
Definition say (lines : list console_line) : Eff unit :=
  fun w => (Returned tt, mkWorld (console w ++ lines) (files w)).

(** [JSON.stringify(value, null, 2)].  The text is kept as the value it
    denotes, the one [JSON.parse] reads back from it: a number that is not
    finite is written as [null], everything else of a report as it is. *)
Fixpoint JSON_stringify (value : jsval) : jsval :=
  match value with
  | JNumber (Fin _) => value
  | JNumber _ => JNull
  | JRadical (Sqrt (Fin v)) => if Qle_bool 0 v then value else JNull
  | JRadical _ => JNull
  | JArray items => JArray (map JSON_stringify items)
  | JObject fields =>
      JObject (map (fun '(key, val) => (key, JSON_stringify val)) fields)
  | _ => value
  end.

(** What the file system answers to the run: the error with which it
    rejects [fs.mkdir] of a directory or [fs.writeFile] of a file, if it
    rejects it, and for [fs.writeFile] what the rejected call has left in
    the file, if it had opened it.  The run makes one call of each. *)
Record FileSystem : Type := mkFileSystem {
  mkdirError : string -> option error;
  writeFileError : string -> option (error * option jsval)
}.

(** A file system that rejects nothing. *)
Definition acceptingFileSystem : FileSystem :=
  mkFileSystem (fun _ => None) (fun _ => None).

(** The files after [content] was written to [path]: the content of an
    existing file is replaced. *)
Fixpoint store (path : string) (content : jsval)
    (files : list (string * jsval)) : list (string * jsval) :=
  match files with
  | [] => [(path, content)]
  | (p, c) :: rest =>
      if String.eqb p path then (path, content) :: rest
      else (p, c) :: store path content rest
  end.

(** [await fs.mkdir(path, { recursive: true })]; directories are not
    listed among the files. *)
Definition mkdir (fs : FileSystem) (path : string) : Eff unit :=
  fun w =>
    match mkdirError fs path with
    | Some e => (Thrown e, w)
    | None => (Returned tt, w)
    end.

(** [await fs.writeFile(path, content)] *)
Definition writeFile (fs : FileSystem) (path : string) (content : jsval)
  : Eff unit :=
  fun w =>
    match writeFileError fs path with
    | Some (e, Some partial) =>
        (Thrown e, mkWorld (console w) (store path partial (files w)))
    | Some (e, None) => (Thrown e, w)
    | None =>
        (Returned tt, mkWorld (console w) (store path content (files w)))
    end.

Notation "x <~ m ;; k" := (bindEff m (fun x => k))
  (at level 61, m at next level, right associativity).
Notation "m ;;; k" := (bindEff m (fun _ => k))
  (at level 61, right associativity).

(** [CV_CONFIG] *)
Record CVConfig : Type := mkConfig {
  nFolds : Z;
  stratified : bool;
  randomSeed : Z;
  resultsPath : string
}.

Definition CV_CONFIG : CVConfig :=
  mkConfig 5 true 42 "./results/cv_gastrectomy".

(* ------------------------------------------------------------------ *)
(** ** createStratifiedFolds *)

(** A fold, as pushed by [createStratifiedFolds]. *)
Record Fold : Type := mkFold {
  indices : list nat;
  positive : Z;
  negative : Z
}.

(** [arr.slice(start, end)], negative positions counting from the end. *)
Definition slice {A : Type} (arr : list A) (start stop : Z) : list A :=
  let len := Z.of_nat (length arr) in
  let clamp p := if (p <? 0)%Z then Z.max (len + p) 0 else Z.min p len in
  let from := clamp start in
  let upto := clamp stop in
  firstn (Z.to_nat (upto - from)) (skipn (Z.to_nat from) arr).

(** [labels.forEach((label, idx) => ...)]: the positions of the labels
    that are [=== 1], and the positions of all the others, in order. *)
Fixpoint groupIndices (labels : list Q) (idx : nat) : list nat * list nat :=
  match labels with
  | [] => ([], [])
  | l :: rest =>
      let (positiveIndices, negativeIndices) := groupIndices rest (S idx) in
      if Qeq_bool l 1 then (idx :: positiveIndices, negativeIndices)
      else (positiveIndices, idx :: negativeIndices)
  end.

(** The body of the loop of [createStratifiedFolds] for fold [i]. *)
Definition makeFold (positiveIndices negativeIndices : list nat)
    (k posPerFold negPerFold : Z) (i : Z) : Fold :=
  let posStart := (i * posPerFold)%Z in
  let negStart := (i * negPerFold)%Z in
  let posEnd := if (i =? k - 1)%Z then Z.of_nat (length positiveIndices)
                else ((i + 1) * posPerFold)%Z in
  let negEnd := if (i =? k - 1)%Z then Z.of_nat (length negativeIndices)
                else ((i + 1) * negPerFold)%Z in
  mkFold (slice positiveIndices posStart posEnd
            ++ slice negativeIndices negStart negEnd)
         (posEnd - posStart) (negEnd - negStart).

(** [folds.forEach((fold, i) => console.log(...))] *)
Definition foldSummaries (folds : list Fold) : list console_line :=
  map (fun '(i, fold) =>
         LogFoldSummary (i + 1) (length (indices fold))
           (positive fold) (negative fold))
      (combine (seq 0 (length folds)) folds).

(* ------------------------------------------------------------------ *)
(** ** Aggregation and report *)

(** The metric names, the keys [r[metric]] of a fold result. *)
Inductive metric : Type :=
| Accuracy | Precision | Recall | F1 | Specificity | Auc.

Definition metricName (m : metric) : string :=
  match m with
  | Accuracy => "accuracy"
  | Precision => "precision"
  | Recall => "recall"
  | F1 => "f1"
  | Specificity => "specificity"
  | Auc => "auc"
  end.

Definition getMetric (m : metric) (r : FoldResult) : number :=
  match m with
  | Accuracy => accuracy r
  | Precision => precision r
  | Recall => recall r
  | F1 => f1 r
  | Specificity => specificity r
  | Auc => auc r
  end.

(** [{ mean, std, values }] *)
Record Stats : Type := mkStats {
  mean : number;
  std : radical;
  values : list number
}.

(** [calculateStats(metric)] over the collected [foldResults].  [reduce]
    without an initial value throws on an empty array. *)
Definition calculateStats (foldResults : list FoldResult) (m : metric)
  : outcome Stats :=
  let values := map (getMetric m) foldResults in
  match values with
  | [] => Thrown TypeError
  | v :: vs =>
      let mean := div (fold_left add vs v) (of_nat (length values)) in
      let std :=
        Math_sqrt
          (div (fold_left (fun a b => add a (pow2 (sub b mean))) values zero)
               (of_nat (length values))) in
      Returned (mkStats mean std values)
  end.

(** The object literal [aggregated]. *)
Record Aggregated : Type := mkAggregated {
  agg_accuracy : Stats;
  agg_precision : Stats;
  agg_recall : Stats;
  agg_f1 : Stats;
  agg_specificity : Stats;
  agg_auc : Stats
}.

Definition aggregate (foldResults : list FoldResult) : outcome Aggregated :=
  a <- calculateStats foldResults Accuracy ;;
  p <- calculateStats foldResults Precision ;;
  r <- calculateStats foldResults Recall ;;
  f <- calculateStats foldResults F1 ;;
  s <- calculateStats foldResults Specificity ;;
  u <- calculateStats foldResults Auc ;;
  Returned (mkAggregated a p r f s u).

(** [aggregated[metric]] *)
Definition statsOf (aggregated : Aggregated) (m : metric) : Stats :=
  match m with
  | Accuracy => agg_accuracy aggregated
  | Precision => agg_precision aggregated
  | Recall => agg_recall aggregated
  | F1 => agg_f1 aggregated
  | Specificity => agg_specificity aggregated
  | Auc => agg_auc aggregated
  end.

(** The order of the keys of [aggregated]. *)
Definition metrics : list metric :=
  [Accuracy; Precision; Recall; F1; Specificity; Auc].

(** [Object.entries(aggregated)] *)
Definition entries (aggregated : Aggregated) : list (string * Stats) :=
  map (fun m => (metricName m, statsOf aggregated m)) metrics.

(** [Object.entries(aggregated).reduce((acc, [key, val]) =>
      { acc[key] = { mean: val.mean, std: val.std }; return acc; }, {})] *)
Definition aggregatedObject (aggregated : Aggregated) : jsval :=
  JObject
    (map (fun '(key, val) =>
            (key, JObject [("mean", JNumber (mean val));
                           ("std", JRadical (std val))]%string))
         (entries aggregated)).

Definition configObject (cfg : CVConfig) : jsval :=
  JObject [("nFolds", JNumber (of_Z (nFolds cfg)));
           ("stratified", JBool (stratified cfg));
           ("randomSeed", JNumber (of_Z (randomSeed cfg)));
           ("resultsPath", JString (resultsPath cfg))]%string.

(** The object returned by [evaluateFold]. *)
Definition foldResultObject (r : FoldResult) : jsval :=
  JObject [("accuracy", JNumber (accuracy r));
           ("precision", JNumber (precision r));
           ("recall", JNumber (recall r));
           ("f1", JNumber (f1 r));
           ("specificity", JNumber (specificity r));
           ("auc", JNumber (auc r));
           ("confusionMatrix",
            JObject [("tp", JNumber (of_Z (tp (confusionMatrix r))));
                     ("fp", JNumber (of_Z (fp (confusionMatrix r))));
                     ("tn", JNumber (of_Z (tn (confusionMatrix r))));
                     ("fn", JNumber (of_Z (fn (confusionMatrix r))))])]%string.

(** The object literal [report]. *)
Definition reportObject (cfg : CVConfig) (timestamp : string)
    (foldResults : list FoldResult) (aggregated : Aggregated) : jsval :=
  JObject [("config", configObject cfg);
           ("timestamp", JString timestamp);
           ("folds", JArray (map foldResultObject foldResults));
           ("aggregated", aggregatedObject aggregated)]%string.

(** The literal [0.05] of [aggregated.auc.std < 0.05]. *)
Definition stableThreshold : Q := 5 # 100.

(** [aggregated.auc.std] as the engine holds it: the double that
    [calculateStats] computes from the doubles of the values. *)
Definition stdDouble (stats : Stats) : PrimFloat.float :=
  Double.std (map Double.of_number (values stats)).

(** The line logged by the last [if] of the run: a comparison of two
    doubles, false when the standard deviation is [NaN]. *)
Definition verdictLine (aggregated : Aggregated) : console_line :=
  if PrimFloat.ltb (stdDouble (agg_auc aggregated))
       (Double.of_number (Fin stableThreshold))
  then LogStable else LogVariable.

(** [arr[i]] for each [i] of [idxs]; the fold indices are positions of the
    label column, so every lookup is in range. *)
Definition gather {A : Type} (arr : list A) (idxs : list nat) : list A :=
  flat_map (fun i => match nth_error arr i with
                     | Some a => [a]
                     | None => []
                     end) idxs.

(** [splitByIndices], on the rows of the two tensors. *)
Definition splitByIndices {X : Type} (xs : list X) (ys : list Q)
    (trainIndices testIndices : list nat)
  : list X * list Q * list X * list Q :=
  (gather xs trainIndices, gather ys trainIndices,
   gather xs testIndices, gather ys testIndices).

(** [folds.filter((_, i) => i !== foldIdx).flatMap(f => f.indices)] *)
Definition trainIndicesOf (folds : list Fold) (foldIdx : nat) : list nat :=
  flat_map (fun '(i, f) => if Nat.eqb i foldIdx then [] else indices f)
           (combine (seq 0 (length folds)) folds).

(** [`${CV_CONFIG.resultsPath}/cv_results.json`] *)
Definition reportPath (cfg : CVConfig) : string :=
  (resultsPath cfg ++ "/cv_results.json")%string.

(** How [runCrossValidation] ends: with its report, or in
    [process.exit(code)]. *)
Inductive RunResult : Type :=
| ReportReturned (report : jsval)
| ProcessExit (code : Z).

Section CrossValidation.

(** [Math.sin], and the engine's [Array.prototype.sort] run on a
    comparator with a local state.  The comparator of [shuffle] ignores
    its arguments, so it is not a consistent ordering and the result of
    the sort is left to the engine: both are parameters. *)
Variable Math_sin : Q -> Q.
Variable engine_sort :
  forall (A S : Type), (A -> A -> S -> Q * S) -> list A -> S -> list A * S.

(** [rng] of [shuffle] *)
Definition rng (s : Q) : Q :=
  let s' := Math_sin s * 10000 in
  s' - inject_Z (Qfloor s').

(** The comparator of [shuffle]; [currentSeed] is its state. *)
Definition shuffleComparator (_ _ : nat) (currentSeed : Z) : Q * Z :=
  let currentSeed := (currentSeed + 1)%Z in
  (rng (inject_Z currentSeed) - (5 # 10), currentSeed).

(** [shuffle(arr, seed)]: [currentSeed] starts at [seed] in every call. *)
Definition shuffle (arr : list nat) (seed : Z) : list nat :=
  fst (engine_sort shuffleComparator arr seed).

(** [createStratifiedFolds(data, labels, k)]; [data] is not used. *)
Definition createStratifiedFolds (cfg : CVConfig) (labels : list Q) (k : Z)
  : Eff (list Fold) :=
  say [LogCreatingFolds k] ;;;
  let (positiveIndices, negativeIndices) := groupIndices labels 0 in
  let positiveIndices := shuffle positiveIndices (randomSeed cfg) in
  let negativeIndices := shuffle negativeIndices (randomSeed cfg + 1) in
  let posPerFold := (Z.of_nat (length positiveIndices) / k)%Z in
  let negPerFold := (Z.of_nat (length negativeIndices) / k)%Z in
  let folds :=
    map (fun i => makeFold positiveIndices negativeIndices k
                    posPerFold negPerFold (Z.of_nat i))
        (seq 0 (Z.to_nat k)) in
  say (LogFoldsCreated :: foldSummaries folds) ;;;
  ret folds.

(** The folds built by [createStratifiedFolds], without the logging. *)
Definition stratifiedFolds (cfg : CVConfig) (labels : list Q) (k : Z)
  : list Fold :=
  let positiveIndices :=
    shuffle (fst (groupIndices labels 0)) (randomSeed cfg) in
  let negativeIndices :=
    shuffle (snd (groupIndices labels 0)) (randomSeed cfg + 1) in
  map (fun i => makeFold positiveIndices negativeIndices k
                  (Z.of_nat (length positiveIndices) / k)
                  (Z.of_nat (length negativeIndices) / k) (Z.of_nat i))
      (seq 0 (Z.to_nat k)).

(** The collaborators of a run: the loaded rows (a feature vector and
    its label per sample, the rows of the tensors [xs] and [ys] of
    [loadAndPreprocessData]), the classifier ([tf.tensor2d], [createModel],
    [trainModel] and [model.predict] for the fold with the given index,
    returning the column of predicted probabilities or throwing), the
    clock and the file system. *)
Variable Features : Type.
Variable loadAndPreprocessData : outcome (list (Features * Q)).
Variable classifier :
  nat -> list Features -> list Q -> list Features -> outcome (list Q).
Variable now : string.
Variable fs : FileSystem.

(** One turn of the loop over the folds. *)
Definition runFold (xs : list Features) (ys : list Q) (folds : list Fold)
    (foldIdx : nat) (testFold : Fold) : Eff FoldResult :=
  let testIndices := indices testFold in
  let trainIndices := trainIndicesOf folds foldIdx in
  say [LogFoldStart (foldIdx + 1) (length trainIndices)
         (length testIndices)] ;;;
  let '(xTrain, yTrain, xTest, yTest) :=
    splitByIndices xs ys trainIndices testIndices in
  predictions <~ lift (classifier foldIdx xTrain yTrain xTest) ;;
  metrics <~ lift (evaluateFold predictions yTest) ;;
  say [LogFoldMetrics (foldIdx + 1) metrics] ;;;
  ret metrics.

(** [for (let foldIdx = 0; foldIdx < folds.length; foldIdx++)], over the
    folds still to do, [foldIdx] being the index of the first of them. *)
Fixpoint foldLoop (xs : list Features) (ys : list Q) (folds : list Fold)
    (foldIdx : nat) (todo : list Fold) (foldResults : list FoldResult)
  : Eff (list FoldResult) :=
  match todo with
  | [] => ret foldResults
  | testFold :: rest =>
      metrics <~ runFold xs ys folds foldIdx testFold ;;
      foldLoop xs ys folds (S foldIdx) rest (foldResults ++ [metrics])
  end.

(** What the loop records for the fold with index [foldIdx]: the result of
    [evaluateFold] on the predictions of the classifier for its test rows
    and on its test labels. *)
Definition evaluates (xs : list Features) (ys : list Q) (folds : list Fold)
    (foldIdx : nat) (testFold : Fold) (r : FoldResult) : Prop :=
  exists predictions,
    classifier foldIdx
      (gather xs (trainIndicesOf folds foldIdx))
      (gather ys (trainIndicesOf folds foldIdx))
      (gather xs (indices testFold)) = Returned predictions /\
    evaluateFold predictions (gather ys (indices testFold)) = Returned r.

(** Steps 4 to 6 of the run: aggregation, the report and its file, the
    verdict. *)
Definition finishRun (cfg : CVConfig) (foldResults : list FoldResult)
  : Eff jsval :=
  aggregated <~ lift (aggregate foldResults) ;;
  let report := reportObject cfg now foldResults aggregated in
  mkdir fs (resultsPath cfg) ;;;
  writeFile fs (reportPath cfg) (JSON_stringify report) ;;;
  say [LogResultsSaved (reportPath cfg)] ;;;
  say [verdictLine aggregated] ;;;
  say [LogCompleted] ;;;
  ret report.

(** The body of the [try] block. *)
Definition tryBlock (cfg : CVConfig) : Eff jsval :=
  samples <~ lift loadAndPreprocessData ;;
  let xs := map fst samples in
  let flatLabels := map snd samples in
  folds <~ createStratifiedFolds cfg flatLabels (nFolds cfg) ;;
  foldResults <~ foldLoop xs flatLabels folds 0 folds [] ;;
  finishRun cfg foldResults.

(** [runCrossValidation()], reading its configuration from [cfg]. *)
Definition runCrossValidation (cfg : CVConfig) (w : World)
  : RunResult * World :=
  match tryBlock cfg w with
  | (Returned report, w') => (ReportReturned report, w')
  | (Thrown e, w') =>
      (ProcessExit 1, mkWorld (console w' ++ [LogFailed e]) (files w'))
  end.

End CrossValidation.

(** A sort by insertion that threads the state of its comparator, one
    possible engine. *)
Section InsertionEngine.
Context {A S : Type} (cmp : A -> A -> S -> Q * S).

Fixpoint insertSt (x : A) (sorted : list A) (s : S) : list A * S :=
  match sorted with
  | [] => ([x], s)
  | y :: ys =>
      let (c, s') := cmp x y s in
      if is_neg c then (x :: y :: ys, s')
      else let (r, s'') := insertSt x ys s' in (y :: r, s'')
  end.

Fixpoint insertAllSt (arr sorted : list A) (s : S) : list A * S :=
  match arr with
  | [] => (sorted, s)
  | x :: rest =>
      let (sorted', s') := insertSt x sorted s in
      insertAllSt rest sorted' s'
  end.

Definition insertionEngine (arr : list A) (s : S) : list A * S :=
  insertAllSt arr [] s.
End InsertionEngine.

(** A stand-in for [Math.sin] with rational values. *)
Definition triangleWave (x : Q) : Q :=
  let t := x * (7 # 22) in
  let u := t - inject_Z (Qfloor t) in
  if Qle_bool u (1 # 2) then 4 * u - 1 else 3 - 4 * u.

(* ------------------------------------------------------------------ *)
(** ** Vocabulary of the properties *)

(** The comparator of an ascending sort, [(a, b) => a.pred - b.pred]. *)
Definition byPredAscending (a b : Pair) : Q := pred a - pred b.

(** A label the confusion matrix knows: exactly 1 or exactly 0. *)
Definition validLabel (l : Q) : bool := Qeq_bool l 1 || Qeq_bool l 0.

Definition total (cm : ConfusionMatrix) : Z :=
  (tp cm + fp cm + tn cm + fn cm)%Z.

(** The pair of a sample after its score went through [f]. *)
Definition rescore (f : Q -> Q) (p : Pair) : Pair :=
  mkPair (f (pred p)) (label p).

Definition increasing (f : Q -> Q) : Prop :=
  forall x y, x < y -> f x < f y.

Definition decreasing (f : Q -> Q) : Prop :=
  forall x y, x < y -> f y < f x.

(** Equal numbers have equal images: fractions that denote the same
    rational are one JavaScript number. *)
Definition respectsEquality (f : Q -> Q) : Prop :=
  forall x y, x == y -> f x == f y.

(** The [auc] of a call of [evaluateFold], or what it throws. *)
Definition aucOf (result : outcome FoldResult) : outcome number :=
  r <- result ;; Returned (auc r).

(** The chunk of an array that [makeFold] gives to fold [i] of [k]. *)
Definition chunk {A : Type} (l : list A) (k per : Z) (i : Z) : list A :=
  slice l (i * per)
    (if (i =? k - 1)%Z then Z.of_nat (length l) else ((i + 1) * per)%Z).

(** The sum of a sequence of numbers. *)
Definition sum (values : list number) : number :=
  fold_right add zero values.

(** Written after the specification: the arithmetic mean of the [k]
    values. *)
Definition arithmeticMean (values : list number) : number :=
  div (sum values) (of_nat (length values)).

(** Written after the specification: the population standard deviation of
    the [k] values, the square root of the mean of the squared deviations
    from the mean (the divisor is [k]). *)
Definition populationStd (values : list number) : radical :=
  Sqrt (div (sum (map (fun v => pow2 (sub v (arithmeticMean values))) values))
            (of_nat (length values))).

(** The same over the rationals. *)
Definition Qsum (qs : list Q) : Q := fold_right Qplus 0 qs.

Definition Qcount (qs : list Q) : Q := inject_Z (Z.of_nat (length qs)).

Definition Qmean (qs : list Q) : Q := Qsum qs / Qcount qs.

Definition QpopulationVariance (qs : list Q) : Q :=
  Qsum (map (fun q => (q - Qmean qs) * (q - Qmean qs)) qs) / Qcount qs.

(** Two numbers that denote the same value. *)
Definition same (x y : number) : Prop :=
  match x, y with
  | Fin a, Fin b => a == b
  | PosInf, PosInf | NegInf, NegInf | NaN, NaN => True
  | _, _ => False
  end.

(** The same in double arithmetic, written after the specification: the
    sum [v1 + ... + vk] from left to right, the mean, and the root of the
    mean of the squared deviations. *)
Definition doubleSum (values : list PrimFloat.float) : PrimFloat.float :=
  match values with
  | [] => PrimFloat.zero
  | v :: vs => fold_left PrimFloat.add vs v
  end.

Definition doubleArithmeticMean (values : list PrimFloat.float)
  : PrimFloat.float :=
  PrimFloat.div (doubleSum values) (Double.of_nat (length values)).

Definition doublePopulationStd (values : list PrimFloat.float)
  : PrimFloat.float :=
  PrimFloat.sqrt
    (PrimFloat.div
       (doubleSum
          (map (fun v =>
                  Double.pow2 (PrimFloat.sub v (doubleArithmeticMean values)))
               values))
       (Double.of_nat (length values))).

(** [std < 0.05] on doubles. *)
Definition belowThreshold (std : PrimFloat.float) : bool :=
  PrimFloat.ltb std (Double.of_number (Fin (5 # 100))).

(** The file system rejects neither the directory of the results nor the
    file of the report. *)
Definition accepts (fs : FileSystem) (cfg : CVConfig) : Prop :=
  mkdirError fs (resultsPath cfg) = None /\
  writeFileError fs (reportPath cfg) = None.

(** The error with which the file system stops the saving of the report,
    if it does: that of [fs.mkdir], or else that of [fs.writeFile]. *)
Definition rejection (fs : FileSystem) (cfg : CVConfig) : option error :=
  match mkdirError fs (resultsPath cfg) with
  | Some e => Some e
  | None => option_map fst (writeFileError fs (reportPath cfg))
  end.

(** The files after the saving of the report was stopped: as they were,
    but for what a rejected [fs.writeFile] has left in the file of the
    report. *)
Definition afterRejection (fs : FileSystem) (cfg : CVConfig)
    (files : list (string * jsval)) : list (string * jsval) :=
  match mkdirError fs (resultsPath cfg),
        writeFileError fs (reportPath cfg) with
  | None, Some (_, Some partial) => store (reportPath cfg) partial files
  | _, _ => files
  end.

(** A fold result with a given auc. *)
Definition withAuc (q : Q) : FoldResult :=
  mkFoldResult zero zero zero zero zero (Fin q) (mkCM 0 0 0 0).

(** Every label of the fold is [c]. *)
Definition allLabels (c : Q) (labels : list Q) : bool :=
  forallb (fun l => Qeq_bool l c) labels.

(** The test labels lack one of the two classes: all 0 or all 1. *)
Definition lacksAClass (labels : list Q) : bool :=
  allLabels 0 labels || allLabels 1 labels.

(** A classifier that answers 0.5 for every test row. *)
Definition constantClassifier
  : nat -> list (list Q) -> list Q -> list (list Q) -> outcome (list Q) :=
  fun _ _ _ xTest => Returned (map (fun _ => 5 # 10) xTest).

(** A classifier that answers the first feature of each test row. *)
Definition firstFeatureClassifier
  : nat -> list (list Q) -> list Q -> list (list Q) -> outcome (list Q) :=
  fun _ _ _ xTest => Returned (map (fun row => hd 0 row) xTest).

(** Six samples, one of them positive: with five folds, the first four
    test folds hold one negative sample each. *)
Definition degenerateRows : list (list Q * Q) :=
  map (fun l => ([l], l)) [1; 0; 0; 0; 0; 0].

Definition degenerateRun : RunResult * World :=
  runCrossValidation triangleWave (@insertionEngine)
    (Returned degenerateRows) constantClassifier
    "2024-01-01T00:00:00.000Z" acceptingFileSystem CV_CONFIG
    (mkWorld [] []).

(** Ten samples, five of each class, the feature being the label. *)
Definition balancedRows : list (list Q * Q) :=
  map (fun l => ([l], l)) [1; 0; 1; 0; 1; 0; 1; 0; 1; 0].

Definition balancedRun : RunResult * World :=
  runCrossValidation triangleWave (@insertionEngine)
    (Returned balancedRows) firstFeatureClassifier
    "2024-01-01T00:00:00.000Z" acceptingFileSystem CV_CONFIG
    (mkWorld [] []).

Definition reportOf (run : RunResult * World) : jsval :=
  match fst run with
  | ReportReturned report => report
  | ProcessExit _ => JObject []
  end.

(** [key in obj] *)
Definition hasField (key : string) (v : jsval) : bool :=
  match get key v with
  | Some _ => true
  | None => false
  end.

(** Some field of the object holds an array. *)
Definition hasArrayField (v : jsval) : bool :=
  match v with
  | JObject fields =>
      existsb (fun kv => match snd kv with
                         | JArray _ => true
                         | _ => false
                         end) fields
  | _ => false
  end.

(** The report as the specification describes it: the four parts, for
    each metric an entry with the mean, the standard deviation and an array
    of the raw values, and a further field for the stability verdict. *)
Definition reportAsSpecified (report : jsval) : bool :=
  hasField "config" report && hasField "timestamp" report
  && hasField "folds" report
  && match get "aggregated" report with
     | Some aggregated =>
         forallb (fun m => match get (metricName m) aggregated with
                           | Some entry =>
                               hasField "mean" entry && hasField "std" entry
                               && hasArrayField entry
                           | None => false
                           end) metrics
     | None => false
     end
  && existsb (fun key =>
                negb (existsb (String.eqb key)
                        ["config"; "timestamp"; "folds"; "aggregated"]%string))
       (keys report).

(** [a] may stand before [b] in descending order of the score. *)
Definition notBelow (a b : Pair) : Prop := pred b <= pred a.

(** The pairs with score [q]. *)
Definition withScore (q : Q) (p : Pair) : bool := Qeq_bool (pred p) q.

(** A pair of the positive class, as the rank loop tests it. *)
Definition isPositive (p : Pair) : bool := Qeq_bool (label p) 1.

(** The number of positives in a list of pairs. *)
Fixpoint positivesIn (pairs : list Pair) : Z :=
  match pairs with
  | [] => 0
  | p :: rest => ((if isPositive p then 1 else 0) + positivesIn rest)%Z
  end.

(** The number of couples of a negative and a positive in which the
    negative stands first in the list. *)
Fixpoint negativeFirst (pairs : list Pair) : Z :=
  match pairs with
  | [] => 0
  | p :: rest =>
      if isPositive p then negativeFirst rest
      else (positivesIn rest + negativeFirst rest)%Z
  end.

(** Every positive scores strictly above every negative. *)
Definition separated (pairs : list Pair) : Prop :=
  forall a b,
    In a pairs -> In b pairs ->
    isPositive a = true -> isPositive b = false -> pred b < pred a.

(** The console of [w'] continues the console of [w]. *)
Definition grows (w w' : World) : Prop :=
  exists lines, console w' = console w ++ lines.

(** A computation that only adds lines to the console. *)
Definition growing {A : Type} (m : Eff A) : Prop :=
  forall w, grows w (snd (m w)).

(* ------------------------------------------------------------------ *)
(** ** Parsed JSON *)

(** The values that [JSON.parse] and the body parser of the server
    produce.  An object is the list of its own properties, under distinct
    keys. *)
Inductive json : Type :=
| JsonNull
| JsonBool (b : bool)
| JsonNumber (q : Q)
| JsonString (s : string)
| JsonArray (items : list json)
| JsonObject (fields : list (string * json)).

(** What the scripts around the cross-validation throw: a [TypeError] of
    the language, or [new Error(message)]. *)
Inductive exception : Type :=
| JsTypeError
| JsError (message : string).

Inductive completion (A : Type) : Type :=
| Normal (a : A)
| Abrupt (e : exception).
Arguments Abrupt {A} e.

Definition andThen {A B : Type} (m : completion A) (k : A -> completion B)
  : completion B :=
  match m with
  | Normal a => k a
  | Abrupt e => Abrupt e
  end.

Notation "x <<- m ;; k" := (andThen m (fun x => k))
  (at level 61, m at next level, right associativity).

(** [arr.map(f)] for an [f] that may throw. *)
Fixpoint traverse {A B : Type} (f : A -> completion B) (arr : list A)
  : completion (list B) :=
  match arr with
  | [] => Normal []
  | a :: rest =>
      b <<- f a ;;
      bs <<- traverse f rest ;;
      Normal (b :: bs)
  end.

(** The own property [key] of an object, [None] standing for
    [undefined]. *)
Fixpoint own (key : string) (fields : list (string * json)) : option json :=
  match fields with
  | [] => None
  | (k, v) :: rest => if String.eqb key k then Some v else own key rest
  end.

(** [v[key]], for a key that is the name of a column or of a field (not
    an index, not a built-in property): [null] has no property to read, the
    other primitives and the arrays have none of that name. *)
Definition member (key : string) (v : json) : completion (option json) :=
  match v with
  | JsonNull => Abrupt JsTypeError
  | JsonObject fields => Normal (own key fields)
  | _ => Normal None
  end.

(** [key in v], for such a key: the operator refuses a primitive. *)
Definition hasKey (key : string) (v : json) : completion bool :=
  match v with
  | JsonObject fields =>
      Normal (match own key fields with
              | Some _ => true
              | None => false
              end)
  | JsonArray _ => Normal false
  | _ => Abrupt JsTypeError
  end.

(** The truthy values. *)
Definition truthy (v : json) : bool :=
  match v with
  | JsonNull => false
  | JsonBool b => b
  | JsonNumber q => negb (is_zero q)
  | JsonString s => negb (String.eqb s EmptyString)
  | JsonArray _ | JsonObject _ => true
  end.

(** [typeof v], [None] being [undefined]. *)
Definition typeof (v : option json) : string :=
  match v with
  | None => "undefined"
  | Some (JsonBool _) => "boolean"
  | Some (JsonNumber _) => "number"
  | Some (JsonString _) => "string"
  | Some (JsonNull | JsonArray _ | JsonObject _) => "object"
  end.

(* ------------------------------------------------------------------ *)
(** ** The training script *)

(** The functions of the training script that the cross-validation
    imports or that mirror its own: the reading of the patient records in
    [loadAndPreprocessData], [calculateAUC] and [evaluateModel].  The
    tensors, the z-score normalisation and the console are left out. *)
Module Train.

(** [CONFIG] *)
Record Config : Type := mkConfig {
  modelPath : string;
  dataPath : string;
  epochs : Z;
  batchSize : Z;
  validationSplit : Q;
  learningRate : Q;
  features : list string;
  target : string
}.

Definition CONFIG : Config :=
  mkConfig "./models/gastrectomy_risk" "./data/gastrectomy_patients.json"
    100 32 (2 # 10) (1 # 1000)
    ["age"; "bmi"; "albumin"; "hemoglobin"; "asa_score"; "tumor_stage";
     "comorbidity_count"; "previous_surgery"]%string
    "major_complication".

(** [x || 0] *)
Definition orZero (x : option json) : json :=
  match x with
  | Some v => if truthy v then v else JsonNumber 0
  | None => JsonNumber 0
  end.

(** [CONFIG.features.map(feature => patient[feature] || 0)] *)
Definition featureRow (patient : json) : completion (list json) :=
  traverse (fun feature =>
              x <<- member feature patient ;;
              Normal (orZero x))
           (features CONFIG).

(** [patient[CONFIG.target] ? 1 : 0] *)
Definition labelOf (patient : json) : completion Q :=
  x <<- member (target CONFIG) patient ;;
  Normal (match x with
          | Some v => if truthy v then 1 else 0
          | None => 0
          end).

(** The arrays [featureData] and [labels] that [loadAndPreprocessData]
    builds from the parsed file; only an array has a [map]. *)
Definition featureDataAndLabels (rawData : json)
  : completion (list (list json) * list Q) :=
  match rawData with
  | JsonArray patients =>
      featureData <<- traverse featureRow patients ;;
      labels <<- traverse labelOf patients ;;
      Normal (featureData, labels)
  | _ => Abrupt JsTypeError
  end.

(** [{ pred: pred[0], label: labels[i] }]: past the end of [labels] the
    label is [undefined]. *)
Record Pair : Type := mkPair {
  pred : Q;
  label : option Q
}.

(** [(a, b) => b.pred - a.pred] *)
Definition byPredDescending (a b : Pair) : Q := pred b - pred a.

(** [pair.label === 1] *)
Definition isOne (l : option Q) : bool :=
  match l with
  | Some q => Qeq_bool q 1
  | None => false
  end.

(** [pairs.forEach((pair, i) => ...)] *)
Fixpoint rankLoop (pairs : list Pair) (i : nat) (st : RankState)
  : RankState :=
  match pairs with
  | [] => st
  | p :: rest =>
      rankLoop rest (S i)
        (if isOne (label p)
         then mkRank (positives st + 1) (negatives st)
                     (sumRanks st + (Z.of_nat i + 1))
         else mkRank (positives st) (negatives st + 1) (sumRanks st))
  end.

(** [predictions.map((pred, i) => ({pred: pred[0], label: labels[i]}))] *)
Fixpoint makePairs (predictions : list Q) (i : nat) (labels : list Q)
  : list Pair :=
  match predictions with
  | [] => []
  | p :: rest => mkPair p (nth_error labels i) :: makePairs rest (S i) labels
  end.

(** [calculateAUC(predictions, labels)], on the column of the predictions
    and the flat array of the labels. *)
Definition calculateAUC (predictions labels : list Q) : number :=
  let pairs := sort byPredDescending (makePairs predictions 0 labels) in
  let st := rankLoop pairs 0 (mkRank 0 0 0) in
  div (sub (of_Z (sumRanks st))
           (div (of_Z (positives st * (positives st + 1))) (of_Z 2)))
      (of_Z (positives st * negatives st)).

(** The object [metrics] of [evaluateModel]. *)
Record Metrics : Type := mkMetrics {
  auc : number;
  accuracy : number;
  precision : number;
  recall : number;
  f1 : number;
  tp : Z;
  fp : Z;
  tn : Z;
  fn : Z
}.

(** [evaluateModel], from the predictions of the model and the label
    column; [labels.flat()] is that column as a flat array. *)
Definition evaluateModel (predictions labels : list Q) : outcome Metrics :=
  let auc := calculateAUC predictions labels in
  let binary := map binarize predictions in
  cm <- countLoop binary 0 labels (mkCM 0 0 0 0) ;;
  let '(mkCM tp fp tn fn) := cm in
  let accuracy := div (of_Z (tp + tn)) (of_Z (tp + tn + fp + fn)) in
  let precision := or_zero (div (of_Z tp) (of_Z (tp + fp))) in
  let recall := or_zero (div (of_Z tp) (of_Z (tp + fn))) in
  let f1 :=
    or_zero (div (mul (of_Z 2) (mul precision recall))
                 (add precision recall)) in
  Returned (mkMetrics auc accuracy precision recall f1 tp fp tn fn).

End Train.

(* ------------------------------------------------------------------ *)
(** ** The validation of the data file *)

Module Validator.

Definition REQUIRED_COLUMNS : list string :=
  ["age"; "sex"; "bmi"; "tumor_stage"; "surgery_type"; "operation_time_min";
   "blood_loss_ml"; "complications"; "neoadjuvant_therapy";
   "lymph_nodes_removed"]%string.

(** [for (const col of REQUIRED_COLUMNS) { ... }], over the columns still
    to check. *)
Fixpoint checkColumns (cols : list string) (firstRow : json)
  : completion unit :=
  match cols with
  | [] => Normal tt
  | col :: rest =>
      present <<- hasKey col firstRow ;;
      if negb present
      then Abrupt (JsError ("Missing required column: " ++ col))
      else
        value <<- member col firstRow ;;
        if String.eqb col "age" && negb (String.eqb (typeof value) "number")
        then Abrupt (JsError ("Column " ++ col ++ " must be a number, got "
                                ++ typeof value ++ " for row 0."))
        else checkColumns rest firstRow
  end.

(** [validateDataStructure(data)]; returning normally, it has logged that
    the validation passed. *)
Definition validateDataStructure (data : json) : completion unit :=
  match data with
  | JsonArray (firstRow :: _) => checkColumns REQUIRED_COLUMNS firstRow
  | _ => Abrupt (JsError "Data must be a non-empty array.")
  end.

End Validator.

(* ------------------------------------------------------------------ *)
(** ** The server: authentication and validation of a prediction request *)

Module Api.

(** What a middleware does with a request: it passes it on with [next()]
    or answers it. *)
Inductive Handled : Type :=
| Next
| Respond (status : Z) (payload : json).

(** [s.split(sep)] for a separator of one character. *)
Fixpoint split (sep : Ascii.ascii) (s : string) : list string :=
  match s with
  | EmptyString => [EmptyString]
  | String c rest =>
      if Ascii.eqb c sep then EmptyString :: split sep rest
      else match split sep rest with
           | piece :: pieces => String c piece :: pieces
           | [] => [String c EmptyString]
           end
  end.

Definition space : Ascii.ascii := Ascii.ascii_of_nat 32.

(** [authHeader && authHeader.split(' ')[1]]; [None] is [undefined]. *)
Definition tokenOf (authHeader : option string) : option string :=
  match authHeader with
  | None => None
  | Some h =>
      if String.eqb h EmptyString then Some h
      else nth_error (split space h) 1
  end.

(** [authenticateToken], from [process.env.API_TOKEN] and the
    [authorization] header of the request. *)
Definition authenticateToken (API_TOKEN authHeader : option string)
  : Handled :=
  let token := tokenOf authHeader in
  let noToken :=
    match token with
    | None => true
    | Some t => String.eqb t EmptyString
    end in
  let differs :=
    match token, API_TOKEN with
    | Some t, Some expected => negb (String.eqb t expected)
    | None, None => false
    | _, _ => true
    end in
  if noToken || differs
  then Respond 401
         (JsonObject
            [("error", JsonString "Unauthorized");
             ("message", JsonString "Access token is required or invalid")]
            %string)
  else Next.

(** [{ valid: false, error }] and [{ valid: true }] *)
Record Validation : Type := mkValidation {
  valid : bool;
  error : option string
}.

Definition required : list string :=
  ["age"; "sex"; "bmi"; "tumor_stage"; "surgery_type"]%string.

(** [fields.filter(field => !(field in data))] *)
Fixpoint missingFields (fields : list string) (data : json)
  : completion (list string) :=
  match fields with
  | [] => Normal []
  | field :: rest =>
      present <<- hasKey field data ;;
      others <<- missingFields rest data ;;
      Normal (if present then others else field :: others)
  end.

(** [pieces.join(sep)] *)
Fixpoint join (sep : string) (pieces : list string) : string :=
  match pieces with
  | [] => EmptyString
  | [piece] => piece
  | piece :: rest => piece ++ sep ++ join sep rest
  end.

(** [typeof x !== 'number' || x < lo || x > hi] *)
Definition notNumberWithin (x : option json) (lo hi : Q) : bool :=
  match x with
  | Some (JsonNumber q) => negb (Qle_bool lo q) || negb (Qle_bool q hi)
  | _ => true
  end.

(** [allowed.includes(x)] for an array of strings *)
Definition includes (allowed : list string) (x : option json) : bool :=
  match x with
  | Some (JsonString s) => existsb (String.eqb s) allowed
  | _ => false
  end.

Definition quote : string := String (Ascii.ascii_of_nat 34) EmptyString.

Definition invalid (message : string) : Validation :=
  mkValidation false (Some message).

(** [validatePredictionInput(data)] *)
Definition validatePredictionInput (data : json) : completion Validation :=
  missing <<- missingFields required data ;;
  if negb (Nat.eqb (length missing) 0)
  then Normal (invalid ("Missing required fields: " ++ join ", " missing))
  else
    age <<- member "age" data ;;
    if notNumberWithin age 0 120
    then Normal (invalid "Age must be a number between 0 and 120")
    else
      sex <<- member "sex" data ;;
      if negb (includes ["M"; "F"]%string sex)
      then Normal (invalid ("Sex must be " ++ quote ++ "M" ++ quote
                              ++ " or " ++ quote ++ "F" ++ quote))
      else
        bmi <<- member "bmi" data ;;
        if notNumberWithin bmi 10 60
        then Normal (invalid "BMI must be a number between 10 and 60")
        else Normal (mkValidation true None).

End Api.

(* ------------------------------------------------------------------ *)
(** ** The architecture of the network *)

Module Architecture.

(** An entry of [config.layers]; [dropout] may be absent. *)
Record LayerConfig : Type := mkLayerConfig {
  units : Z;
  activation : string;
  dropout : option Q
}.

Record ModelConfig : Type := mkModelConfig {
  inputSize : Z;
  layers : list LayerConfig;
  optimizer : option string;
  loss : option string;
  metrics : option (list string)
}.

(** The layers added to the sequential model. *)
Inductive Layer : Type :=
| Dense (units : Z) (activation : string) (inputShape : option (list Z))
| Dropout (rate : Q).

(** The model: its layers in the order of [model.add], and the arguments
    of [model.compile]. *)
Record Model : Type := mkModel {
  added : list Layer;
  compiledOptimizer : string;
  compiledLoss : string;
  compiledMetrics : list string
}.

(** [if (layer.dropout) model.add(tf.layers.dropout({rate: layer.dropout}))] *)
Definition dropoutOf (layer : LayerConfig) : list Layer :=
  match dropout layer with
  | Some rate => if is_zero rate then [] else [Dropout rate]
  | None => []
  end.

(** [s || fallback] for a string *)
Definition orString (s : option string) (fallback : string) : string :=
  match s with
  | Some v => if String.eqb v EmptyString then fallback else v
  | None => fallback
  end.

(** [ModelArchitecture.createModel(config)], the layers of [tf] taken to
    accept their arguments. *)
Definition createModel (config : ModelConfig) : outcome Model :=
  match layers config with
  | [] => Thrown TypeError
  | first :: _ =>
      let n := length (layers config) in
      let hidden :=
        flat_map (fun i => match nth_error (layers config) i with
                           | Some layer =>
                               Dense (units layer) (activation layer) None
                                 :: dropoutOf layer
                           | None => []
                           end)
                 (seq 1 (n - 1 - 1)) in
      let output :=
        match nth_error (layers config) (n - 1) with
        | Some layer => [Dense (units layer) (activation layer) None]
        | None => []
        end in
      Returned
        (mkModel
           (Dense (units first) (activation first) (Some [inputSize config])
              :: dropoutOf first ++ hidden ++ output)
           (orString (optimizer config) "adam")
           (orString (loss config) "binaryCrossentropy")
           (match metrics config with
            | Some m => m
            | None => ["accuracy"]%string
            end))
  end.

(** [MODEL_ARCHITECTURE] of the configuration file, the argument of
    [createModel] in the training pipeline. *)
Definition MODEL_ARCHITECTURE : ModelConfig :=
  mkModelConfig 13
    [mkLayerConfig 64 "relu" (Some (3 # 10));
     mkLayerConfig 32 "relu" (Some (2 # 10));
     mkLayerConfig 1 "sigmoid" None]
    None None None.

End Architecture.

(** ** Further vocabulary *)

(** A finite number between 0 and 1. *)
Definition unitInterval (x : number) : Prop :=
  exists q, x = Fin q /\ 0 <= q <= 1.

(** No counter of the confusion matrix is negative. *)
Definition nonnegative (cm : ConfusionMatrix) : Prop :=
  (0 <= tp cm /\ 0 <= fp cm /\ 0 <= tn cm /\ 0 <= fn cm)%Z.

(** The number of labels that are [=== 1]. *)
Definition countOnes (labels : list Q) : Z :=
  Z.of_nat (length (filter (fun l => Qeq_bool l 1) labels)).

(** A computation that writes no file. *)
Definition keepsFiles {A : Type} (m : Eff A) : Prop :=
  forall w, files (snd (m w)) = files w.

(** The pair of [evaluateFold] for a pair of [calculateAUC], a missing
    label read as 0. *)
Definition padLabel (p : Train.Pair) : Pair :=
  mkPair (Train.pred p)
         (match Train.label p with
          | Some l => l
          | None => 0
          end).

(** The labels, with a 0 for every prediction that has none. *)
Definition padded (predictions labels : list Q) : list Q :=
  labels ++ repeat 0 (length predictions - length labels).

(** A value that is neither an object nor an array. *)
Definition isPrimitive (v : json) : Prop :=
  match v with
  | JsonObject _ | JsonArray _ => False
  | _ => True
  end.

(** The own property [key] is present. *)
Definition present (key : string) (fields : list (string * json)) : bool :=
  match own key fields with
  | Some _ => true
  | None => false
  end.

(** The character [c] does not occur in [s]. *)
Fixpoint lacks (c : Ascii.ascii) (s : string) : bool :=
  match s with
  | EmptyString => true
  | String d rest => negb (Ascii.eqb d c) && lacks c rest
  end.

(** The dense layers of a model, in order: units and activation. *)
Definition denseLayers (added : list Architecture.Layer)
  : list (Z * string) :=
  flat_map (fun layer => match layer with
                         | Architecture.Dense u a _ => [(u, a)]
                         | Architecture.Dropout _ => []
                         end) added.

(** The number of dropout layers of a model. *)
Definition dropoutCount (added : list Architecture.Layer) : nat :=
  length (filter (fun layer => match layer with
                               | Architecture.Dropout _ => true
                               | Architecture.Dense _ _ _ => false
                               end) added).

(** No two of the scores are equal. *)
Definition distinctScores (predictions : list Q) : Prop :=
  ForallOrdPairs (fun p q => ~ p == q) predictions.

(** A sample, its score and its label, as a pair of the auc computation. *)
Definition toPair (sample : Q * Q) : Pair := mkPair (fst sample) (snd sample).

(** One turn of the counting loop on a sample. *)
Definition tallySample (cm : ConfusionMatrix) (sample : Q * Q)
  : ConfusionMatrix :=
  tally cm (binarize (fst sample)) (snd sample).

(** The metrics that [evaluateFold] guards with [|| 0]. *)
Definition guarded (m : metric) : bool :=
  match m with
  | Precision | Recall | F1 | Specificity => true
  | Accuracy | Auc => false
  end.

(** The number of labels that are [=== 0]. *)
Definition countZeros (labels : list Q) : Z :=
  Z.of_nat (length (filter (fun l => Qeq_bool l 0) labels)).


(* ================================================================== *)
(** * Properties *)

(** ** Evaluation of one fold *)

Lemma skipn_nth_error {A : Type} (i : nat) (l : list A) (a : A) :
  nth_error l i = Some a -> skipn i l = a :: skipn (S i) l.
Proof.
  revert l. induction i as [|i IH]; intros [|b l] H; try discriminate.
  - cbn in H. injection H as ->. reflexivity.
  - cbn in H |- *. exact (IH _ H).
Qed.

Lemma one_is_not_zero (l : Q) : Qeq_bool l 1 = true -> Qeq_bool l 0 = false.
Proof.
  intros H1. apply Qeq_bool_iff in H1.
  destruct (Qeq_bool l 0) eqn:H0; [|reflexivity].
  apply Qeq_bool_iff in H0. rewrite H0 in H1. discriminate H1.
Qed.

Lemma binarize_0_or_1 (p : Q) : binarize p = 0%Z \/ binarize p = 1%Z.
Proof. unfold binarize. destruct (Qle_bool threshold p); auto. Qed.

Lemma tally_invalid (cm : ConfusionMatrix) (p : Z) (a : Q) :
  validLabel a = false -> tally cm p a = cm.
Proof.
  unfold validLabel, tally. intros H.
  apply orb_false_elim in H as [-> ->].
  rewrite !andb_false_r. reflexivity.
Qed.

Lemma tally_total (cm : ConfusionMatrix) (p : Z) (a : Q) :
  p = 0%Z \/ p = 1%Z ->
  total (tally cm p a) = (total cm + if validLabel a then 1 else 0)%Z.
Proof.
  unfold validLabel, tally, total. intros [-> | ->]; cbn [Z.eqb andb].
  - destruct (Qeq_bool a 1) eqn:H1.
    + rewrite (one_is_not_zero _ H1). cbn. lia.
    + destruct (Qeq_bool a 0); cbn; lia.
  - destruct (Qeq_bool a 1) eqn:H1.
    + rewrite (one_is_not_zero _ H1). cbn. lia.
    + destruct (Qeq_bool a 0); cbn; lia.
Qed.

Lemma countLoop_total (binary : list Z) :
  Forall (fun p => p = 0%Z \/ p = 1%Z) binary ->
  forall (i : nat) (labels : list Q) (cm : ConfusionMatrix),
    (i + length binary <= length labels)%nat ->
    exists cm',
      countLoop binary i labels cm = Returned cm' /\
      total cm' =
        (total cm
         + Z.of_nat (length (filter validLabel
                               (firstn (length binary) (skipn i labels)))))%Z.
Proof.
  induction 1 as [|p rest Hp _ IH]; intros i labels cm Hlen; cbn [countLoop].
  - exists cm. split; [reflexivity|]. cbn. lia.
  - cbn [length] in Hlen.
    destruct (nth_error labels i) as [actual|] eqn:Hnth.
    2:{ apply nth_error_None in Hnth. lia. }
    destruct (IH (S i) labels (tally cm p actual)) as (cm' & Hrun & Htot);
      [lia|].
    exists cm'. split; [exact Hrun|].
    rewrite Htot, tally_total by exact Hp.
    rewrite (skipn_nth_error _ _ Hnth). cbn [length firstn filter].
    destruct (validLabel actual); cbn [length]; lia.
Qed.

Lemma makePairs_returns (predictions : list Q) :
  forall (i : nat) (labels : list Q),
    (i + length predictions <= length labels)%nat ->
    makePairs predictions i labels =
      Returned (map (fun '(p, l) => mkPair p l)
                  (combine predictions (skipn i labels))).
Proof.
  induction predictions as [|p rest IH]; intros i labels Hlen.
  - reflexivity.
  - cbn [length] in Hlen. cbn [makePairs].
    destruct (nth_error labels i) as [l|] eqn:Hnth.
    2:{ apply nth_error_None in Hnth. lia. }
    rewrite IH by lia. cbn [bind].
    rewrite (skipn_nth_error _ _ Hnth). reflexivity.
Qed.

Lemma evaluateFold_returns (predictions labels : list Q) :
  (length predictions <= length labels)%nat ->
  exists r,
    evaluateFold predictions labels = Returned r /\
    total (confusionMatrix r) =
      Z.of_nat (length (filter validLabel
                          (firstn (length predictions) labels))) /\
    accuracy r =
      div (of_Z (tp (confusionMatrix r) + tn (confusionMatrix r)))
          (of_Z (tp (confusionMatrix r) + tn (confusionMatrix r)
                 + fp (confusionMatrix r) + fn (confusionMatrix r))) /\
    auc r =
      aucOfRanks
        (rankLoop
           (sort byPredDescending
              (map (fun '(p, l) => mkPair p l) (combine predictions labels)))
           0 (mkRank 0 0 0)).
Proof.
  intros Hlen.
  destruct (@countLoop_total (map binarize predictions)) with
    (i := 0%nat) (labels := labels) (cm := mkCM 0 0 0 0)
    as (cm & Hrun & Htot).
  - apply Forall_forall. intros p Hp. apply in_map_iff in Hp as (q & <- & _).
    apply binarize_0_or_1.
  - rewrite length_map. exact Hlen.
  - rewrite length_map in Htot. cbn [skipn] in Htot.
    unfold evaluateFold. rewrite Hrun. cbn [bind].
    rewrite makePairs_returns by exact Hlen. cbn [bind skipn].
    eexists. split; [reflexivity|].
    cbn [confusionMatrix accuracy auc].
    split; [rewrite Htot; reflexivity|]. split; reflexivity.
Qed.

(** C10.  A sample whose label is neither exactly 1 nor exactly 0 passes
    the counting loop without touching [tp], [fp], [tn] or [fn].  Hence,
    whenever [evaluateFold] has a label for every prediction, it returns
    normally, [tp + fp + tn + fn] is the number of evaluated samples whose
    label is 0 or 1, at most the number of samples, and that number is the
    denominator of [accuracy]. *)
Theorem evaluateFold_counts_only_valid_labels
    (predictions labels : list Q)
    (Hlen : (length predictions <= length labels)%nat) :
  let evaluated := firstn (length predictions) labels in
  let valid := Z.of_nat (length (filter validLabel evaluated)) in
  (forall cm p a, validLabel a = false -> tally cm p a = cm) /\
  exists r,
    evaluateFold predictions labels = Returned r /\
    total (confusionMatrix r) = valid /\
    (valid <= Z.of_nat (length predictions))%Z /\
    accuracy r =
      div (of_Z (tp (confusionMatrix r) + tn (confusionMatrix r)))
          (of_Z valid).
Proof.
  intros evaluated valid. split; [exact tally_invalid|].
  destruct (evaluateFold_returns _ _ Hlen) as (r & Heval & Htot & Hacc & _).
  exists r. split; [exact Heval|]. split; [exact Htot|]. split.
  - subst valid evaluated.
    pose proof (filter_length_le validLabel
                  (firstn (length predictions) labels)) as Hle.
    rewrite length_firstn in Hle. lia.
  - rewrite Hacc. f_equal. f_equal. subst valid evaluated.
    rewrite <- Htot. unfold total. lia.
Qed.

Lemma evaluateFold_counts_only_valid_labels_witness :
  exists r,
    evaluateFold [9 # 10; 2 # 10; 7 # 10] [1; 2; 0] = Returned r /\
    total (confusionMatrix r) = 2%Z /\
    accuracy r = Fin (1 # 2).
Proof.
  destruct (@evaluateFold_counts_only_valid_labels
              [9 # 10; 2 # 10; 7 # 10] [1; 2; 0]) as (_ & r & Hr & Ht & _ & Ha).
  - cbn. lia.
  - exists r. split; [exact Hr|]. split; [exact Ht|].
    rewrite Ha.
    assert (Hcm : Returned r = evaluateFold [9 # 10; 2 # 10; 7 # 10] [1; 2; 0])
      by (symmetry; exact Hr).
    vm_compute in Hcm. injection Hcm as ->. reflexivity.
Defined.

(** C1.  On predictions [0.9, 0.8, 0.1, 0.2] with labels [1, 1, 0, 0] the
    counts are tp=2, fp=0, tn=2, fn=0 and accuracy, precision, recall and
    f1 are 1, but the auc that [evaluateFold] returns for this perfectly
    separated fold is 0: the ranks are taken in descending order of the
    score, so the two positives get the ranks 1 and 2. *)
Theorem evaluateFold_perfect_separation :
  evaluateFold [9 # 10; 8 # 10; 1 # 10; 2 # 10] [1; 1; 0; 0] =
    Returned
      (mkFoldResult (Fin 1) (Fin 1) (Fin 1) (Fin 1) (Fin 1) (Fin 0)
         (mkCM 2 0 2 0)).
Proof. vm_compute. reflexivity. Qed.

(** C2.  With all four scores tied at 0.5 and labels [1, 0, 1, 0] the
    counts are tp=2, fp=2, tn=0, fn=0, precision is 0.5 and recall 1, but
    the auc that [evaluateFold] returns is 0.25, where a constant score has
    an area under the ROC curve of 0.5.  The stable sort keeps the tied
    samples in input order and the rank sum takes the ranks as they come,
    without mid-ranks, in descending as in ascending order of the score:
    the same four samples give 0.75, 0 and 1 when they come in another
    order. *)
Theorem evaluateFold_all_tied :
  (exists r,
      evaluateFold [5 # 10; 5 # 10; 5 # 10; 5 # 10] [1; 0; 1; 0]
        = Returned r /\
      confusionMatrix r = mkCM 2 2 0 0 /\
      precision r = Fin (1 # 2) /\
      recall r = Fin 1 /\
      auc r = Fin (1 # 4)) /\
  map label
    (sort byPredDescending
       [mkPair (5 # 10) 1; mkPair (5 # 10) 0;
        mkPair (5 # 10) 1; mkPair (5 # 10) 0]) = [1; 0; 1; 0] /\
  sort byPredAscending
    [mkPair (5 # 10) 1; mkPair (5 # 10) 0;
     mkPair (5 # 10) 1; mkPair (5 # 10) 0]
  = sort byPredDescending
      [mkPair (5 # 10) 1; mkPair (5 # 10) 0;
       mkPair (5 # 10) 1; mkPair (5 # 10) 0] /\
  aucOf (evaluateFold [5 # 10; 5 # 10; 5 # 10; 5 # 10] [0; 1; 0; 1])
    = Returned (Fin (3 # 4)) /\
  aucOf (evaluateFold [5 # 10; 5 # 10; 5 # 10; 5 # 10] [1; 1; 0; 0])
    = Returned (Fin 0) /\
  aucOf (evaluateFold [5 # 10; 5 # 10; 5 # 10; 5 # 10] [0; 0; 1; 1])
    = Returned (Fin 1).
Proof.
  split.
  - eexists. split; [vm_compute; reflexivity|]. cbn.
    repeat split; reflexivity.
  - repeat split; vm_compute; reflexivity.
Qed.

(** The rank-sum formula on the samples of C1 ranked in ascending order of
    the score gives 1. *)
Example ascending_ranks_give_one :
  aucOfRanks
    (rankLoop
       (sort byPredAscending
          [mkPair (9 # 10) 1; mkPair (8 # 10) 1;
           mkPair (1 # 10) 0; mkPair (2 # 10) 0])
       0 (mkRank 0 0 0))
  = Fin 1.
Proof. vm_compute. reflexivity. Qed.

(** ** The auc and transformations of the scores *)

Lemma countLoop_throws (binary : list Z) :
  forall (i : nat) (labels : list Q) (cm : ConfusionMatrix),
    (i <= length labels < i + length binary)%nat ->
    countLoop binary i labels cm = Thrown TypeError.
Proof.
  induction binary as [|p rest IH]; intros i labels cm Hlen;
    cbn [length] in Hlen; [lia|].
  cbn [countLoop].
  destruct (nth_error labels i) as [actual|] eqn:Hnth; [|reflexivity].
  apply IH. assert (i < length labels)%nat; [|lia].
  apply nth_error_Some. congruence.
Qed.

Lemma evaluateFold_throws (predictions labels : list Q) :
  (length labels < length predictions)%nat ->
  evaluateFold predictions labels = Thrown TypeError.
Proof.
  intros Hlen. unfold evaluateFold.
  rewrite countLoop_throws; [reflexivity|].
  rewrite length_map. lia.
Qed.

Section SortMap.
Context {A B : Type} (cmpA : A -> A -> Q) (cmpB : B -> B -> Q) (g : A -> B).
Hypothesis same_sign :
  forall a b, is_neg (cmpB (g a) (g b)) = is_neg (cmpA a b).

Lemma insert_map (x : A) (sorted : list A) :
  insert cmpB (g x) (map g sorted) = map g (insert cmpA x sorted).
Proof.
  induction sorted as [|y ys IH]; cbn [insert map]; [reflexivity|].
  rewrite same_sign. destruct (is_neg (cmpA x y)); cbn [map].
  - reflexivity.
  - rewrite IH. reflexivity.
Qed.

Lemma sort_map (arr : list A) :
  sort cmpB (map g arr) = map g (sort cmpA arr).
Proof.
  unfold sort. change (@nil B) with (map g []).
  generalize (@nil A) as acc.
  induction arr as [|x rest IH]; intros acc; cbn [fold_left map].
  - reflexivity.
  - rewrite insert_map. apply IH.
Qed.
End SortMap.

Lemma rankLoop_rescore (f : Q -> Q) (pairs : list Pair) :
  forall (i : nat) (st : RankState),
    rankLoop (map (rescore f) pairs) i st = rankLoop pairs i st.
Proof.
  induction pairs as [|p rest IH]; intros i st; cbn [map rankLoop].
  - reflexivity.
  - rewrite IH. reflexivity.
Qed.

Lemma combine_rescore (f : Q -> Q) (predictions labels : list Q) :
  map (fun '(p, l) => mkPair p l) (combine (map f predictions) labels) =
  map (rescore f)
    (map (fun '(p, l) => mkPair p l) (combine predictions labels)).
Proof.
  revert labels.
  induction predictions as [|p rest IH]; intros [|l labels]; cbn;
    try reflexivity.
  rewrite IH. reflexivity.
Qed.

Lemma is_neg_lt (q : Q) : is_neg q = true <-> q < 0.
Proof.
  unfold is_neg. rewrite negb_true_iff.
  split; intros H.
  - apply Qnot_le_lt. intros Hle. apply Qle_bool_iff in Hle. congruence.
  - destruct (Qle_bool 0 q) eqn:E; [|reflexivity].
    apply Qle_bool_iff in E. exfalso. exact (Qlt_not_le _ _ H E).
Qed.

Lemma byPredDescending_rescore (f : Q -> Q) :
  respectsEquality f -> increasing f ->
  forall a b,
    is_neg (byPredDescending (rescore f a) (rescore f b)) =
    is_neg (byPredDescending a b).
Proof.
  intros Hwd Hinc a b. unfold byPredDescending, rescore. cbn [pred].
  apply eq_true_iff_eq. rewrite !is_neg_lt.
  split; intros H.
  - assert (Hf : f (pred b) < f (pred a)) by lra.
    destruct (Q_dec (pred b) (pred a)) as [[Hlt | Hgt] | Heq].
    + lra.
    + apply Hinc in Hgt. lra.
    + apply Hwd in Heq. lra.
  - assert (Hlt : pred b < pred a) by lra.
    apply Hinc in Hlt. lra.
Qed.

(** C8, as stated: a strictly decreasing map of the scores is strictly
    monotonic, and it changes the auc of a fold on which the auc is
    defined. *)
Lemma auc_changes_under_decreasing_transform :
  exists (f : Q -> Q) (predictions labels : list Q),
    (increasing f \/ decreasing f) /\
    respectsEquality f /\
    existsb (fun l => Qeq_bool l 1) labels = true /\
    existsb (fun l => Qeq_bool l 0) labels = true /\
    aucOf (evaluateFold (map f predictions) labels)
      <> aucOf (evaluateFold predictions labels).
Proof.
  exists (fun p => 1 - p), [9 # 10; 1 # 10], [1; 0].
  split; [right; intros x y H; lra|].
  split; [intros x y H; rewrite H; reflexivity|].
  split; [reflexivity|]. split; [reflexivity|].
  vm_compute. discriminate.
Qed.

(** C8, amended.  For every strictly increasing transform [f] of the
    scores and every input, [evaluateFold] returns the same auc for the
    scores [f(p_i)] as for the scores [p_i] (and throws on the one exactly
    when it throws on the other). *)
Theorem auc_invariant_under_increasing_transform
    (f : Q -> Q) (predictions labels : list Q)
    (Hwd : respectsEquality f) (Hinc : increasing f) :
  aucOf (evaluateFold (map f predictions) labels)
    = aucOf (evaluateFold predictions labels).
Proof.
  destruct (Nat.le_gt_cases (length predictions) (length labels))
    as [Hle | Hgt].
  - destruct (evaluateFold_returns predictions labels Hle)
      as (r & -> & _ & _ & Hauc).
    destruct (evaluateFold_returns (map f predictions) labels)
      as (r' & -> & _ & _ & Hauc'); [rewrite length_map; exact Hle|].
    cbn [aucOf bind]. rewrite Hauc, Hauc'. do 2 f_equal.
    rewrite combine_rescore.
    rewrite (sort_map byPredDescending byPredDescending (rescore f)
               (byPredDescending_rescore Hwd Hinc)).
    apply rankLoop_rescore.
  - rewrite !evaluateFold_throws;
      [reflexivity | exact Hgt | rewrite length_map; exact Hgt].
Qed.

Lemma auc_invariant_under_increasing_transform_witness :
  aucOf (evaluateFold (map (fun p => (7 # 2) * p - (1 # 3))
                         [9 # 10; 3 # 10; 6 # 10; 3 # 10]) [1; 0; 0; 1])
    = Returned (Fin (1 # 2)).
Proof.
  rewrite (@auc_invariant_under_increasing_transform
             (fun p => (7 # 2) * p - (1 # 3)) [9 # 10; 3 # 10; 6 # 10; 3 # 10]
             [1; 0; 0; 1]).
  - vm_compute. reflexivity.
  - intros x y H. rewrite H. reflexivity.
  - intros x y H. lra.
Defined.

(** ** Partition into folds *)

Lemma firstn_plus {A : Type} (a b : nat) (l : list A) :
  firstn (a + b) l = firstn a l ++ firstn b (skipn a l).
Proof.
  revert l. induction a as [|a IH]; intros [|x l]; cbn;
    try reflexivity.
  - rewrite firstn_nil. reflexivity.
  - rewrite IH. reflexivity.
Qed.

(** The first [m] chunks of [per] elements make up the first [m * per]
    elements. *)
Lemma chunks_firstn {A : Type} (per : nat) (l : list A) (m : nat) :
  concat (map (fun i => firstn per (skipn (i * per) l)) (seq 0 m))
    = firstn (m * per) l.
Proof.
  induction m as [|m IH].
  - reflexivity.
  - rewrite seq_S, map_app, concat_app, IH. cbn [map concat plus].
    rewrite app_nil_r.
    replace (S m * per)%nat with (m * per + per)%nat by lia.
    symmetry. apply firstn_plus.
Qed.

Lemma slice_inside {A : Type} (l : list A) (a b : Z) :
  (0 <= a <= b)%Z -> (b <= Z.of_nat (length l))%Z ->
  slice l a b = firstn (Z.to_nat b - Z.to_nat a) (skipn (Z.to_nat a) l).
Proof.
  intros Hab Hb. unfold slice.
  destruct (Z.ltb_spec a 0); [lia|].
  destruct (Z.ltb_spec b 0); [lia|].
  rewrite !Z.min_l by lia. f_equal. lia.
Qed.

Lemma makeFold_indices (pos neg : list nat) (k pp np i : Z) :
  indices (makeFold pos neg k pp np i) = chunk pos k pp i ++ chunk neg k np i.
Proof. reflexivity. Qed.

(** The [k] chunks of an array, in order, are the array. *)
Lemma chunks_cover {A : Type} (l : list A) (k : Z) :
  (1 <= k)%Z ->
  concat (map (fun i => chunk l k (Z.of_nat (length l) / k) (Z.of_nat i))
              (seq 0 (Z.to_nat k))) = l.
Proof.
  intros Hk.
  set (len := Z.of_nat (length l)).
  set (per := (len / k)%Z).
  assert (Hper : (0 <= per)%Z) by (apply Z.div_pos; lia).
  assert (Hfit : (k * per <= len)%Z) by (apply Z.mul_div_le; lia).
  destruct (Z.to_nat k) as [|m] eqn:Hm; [lia|].
  assert (Hkm : k = (Z.of_nat m + 1)%Z) by lia.
  rewrite seq_S, map_app, concat_app. cbn [map concat plus].
  rewrite app_nil_r.
  rewrite map_ext_in with
    (g := fun i => firstn (Z.to_nat per) (skipn (i * Z.to_nat per) l)).
  - rewrite chunks_firstn. unfold chunk.
    replace (Z.of_nat m =? k - 1)%Z with true
      by (symmetry; apply Z.eqb_eq; lia).
    rewrite slice_inside by (fold len; nia).
    fold len.
    replace (Z.to_nat (Z.of_nat m * per)) with (m * Z.to_nat per)%nat
      by nia.
    rewrite (@firstn_all2 _ _ (skipn (m * Z.to_nat per) l)).
    + apply firstn_skipn.
    + rewrite length_skipn. subst len. lia.
  - intros i Hi. apply in_seq in Hi. unfold chunk.
    replace (Z.of_nat i =? k - 1)%Z with false
      by (symmetry; apply Z.eqb_neq; lia).
    rewrite slice_inside by (fold len; nia).
    f_equal; [nia|]. f_equal. nia.
Qed.

Lemma concat_map_app_perm {A B : Type} (f g : A -> list B) (l : list A) :
  Permutation (concat (map (fun i => f i ++ g i) l))
              (concat (map f l) ++ concat (map g l)).
Proof.
  induction l as [|x l IH]; cbn [map concat]; [reflexivity|].
  rewrite IH, <- !app_assoc. apply Permutation_app_head.
  rewrite !app_assoc. apply Permutation_app_tail.
  apply Permutation_app_comm.
Qed.

Lemma groupIndices_perm (labels : list Q) :
  forall idx,
    Permutation (fst (groupIndices labels idx) ++ snd (groupIndices labels idx))
                (seq idx (length labels)).
Proof.
  induction labels as [|l rest IH]; intros idx; cbn [groupIndices].
  - reflexivity.
  - specialize (IH (S idx)).
    destruct (groupIndices rest (S idx)) as [pos neg].
    cbn [fst snd] in IH. cbn [length seq].
    destruct (Qeq_bool l 1); cbn [fst snd].
    + cbn [app]. apply perm_skip. exact IH.
    + rewrite <- Permutation_middle. apply perm_skip. exact IH.
Qed.

Lemma groupIndices_lengths (labels : list Q) :
  forall idx,
    length (fst (groupIndices labels idx))
      = length (filter (fun l => Qeq_bool l 1) labels) /\
    length (snd (groupIndices labels idx))
      = length (filter (fun l => negb (Qeq_bool l 1)) labels).
Proof.
  induction labels as [|l rest IH]; intros idx; cbn [groupIndices filter].
  - split; reflexivity.
  - specialize (IH (S idx)).
    destruct (groupIndices rest (S idx)) as [pos neg].
    cbn [fst snd] in IH. destruct IH as [IHp IHn].
    destruct (Qeq_bool l 1); cbn [fst snd negb length]; split; congruence.
Qed.

Lemma NoDup_concat_disjoint {A : Type} (ls : list (list A)) :
  NoDup (concat ls) ->
  forall i j a b,
    i <> j -> nth_error ls i = Some a -> nth_error ls j = Some b ->
    forall x, In x a -> ~ In x b.
Proof.
  induction ls as [|l ls IH]; intros Hnd i j a b Hij Ha Hb x Hxa Hxb.
  - destruct i; discriminate.
  - cbn [concat] in Hnd.
    assert (Hsep : forall y, In y l -> In y (concat ls) -> False).
    { intros y Hy Hy'. revert Hnd Hy Hy'. clear.
      induction l as [|z l IHl]; intros Hnd Hy Hy'; [contradiction|].
      cbn in Hnd. inversion Hnd as [|? ? Hnot Hnd']; subst.
      destruct Hy as [-> | Hy].
      - apply Hnot. apply in_or_app. right. exact Hy'.
      - exact (IHl Hnd' Hy Hy'). }
    assert (Hin : forall n c, nth_error ls n = Some c ->
                    forall y, In y c -> In y (concat ls)).
    { intros n c Hc y Hy. apply in_concat. exists c. split; [|exact Hy].
      eapply nth_error_In. exact Hc. }
    destruct i as [|i], j as [|j]; cbn [nth_error] in Ha, Hb.
    + congruence.
    + injection Ha as <-. exact (Hsep x Hxa (Hin _ _ Hb _ Hxb)).
    + injection Hb as <-. exact (Hsep x Hxb (Hin _ _ Ha _ Hxa)).
    + apply (IH (NoDup_app_remove_l _ _ Hnd) i j a b) with (x := x); auto.
Qed.

Section Partitioner.

Variable Math_sin : Q -> Q.
Variable engine_sort :
  forall (A S : Type), (A -> A -> S -> Q * S) -> list A -> S -> list A * S.

(** The one assumption on the engine: whatever the comparator, its sort
    only rearranges the array, losing and duplicating nothing (the language
    leaves the order open when the comparator is not consistent). *)
Hypothesis engine_sort_rearranges :
  forall (A S : Type) (cmp : A -> A -> S -> Q * S) (arr : list A) (s : S),
    Permutation (fst (engine_sort cmp arr s)) arr.

Lemma createStratifiedFolds_run (cfg : CVConfig) (labels : list Q) (k : Z)
    (w : World) :
  createStratifiedFolds Math_sin engine_sort cfg labels k w =
    (Returned (stratifiedFolds Math_sin engine_sort cfg labels k),
     mkWorld
       (console w ++ [LogCreatingFolds k]
          ++ LogFoldsCreated
          :: foldSummaries
               (stratifiedFolds Math_sin engine_sort cfg labels k))
       (files w)).
Proof.
  unfold createStratifiedFolds, stratifiedFolds.
  destruct (groupIndices labels 0) as [pos neg].
  cbn [fst snd]. unfold bindEff, say, ret. cbn [console files].
  rewrite <- app_assoc. reflexivity.
Qed.

Lemma shuffle_perm (arr : list nat) (seed : Z) :
  Permutation (shuffle Math_sin engine_sort arr seed) arr.
Proof. apply engine_sort_rearranges. Qed.

Lemma stratifiedFolds_length (cfg : CVConfig) (labels : list Q) (k : Z) :
  length (stratifiedFolds Math_sin engine_sort cfg labels k) = Z.to_nat k.
Proof. unfold stratifiedFolds. rewrite length_map, length_seq. reflexivity. Qed.

(** All the folds together hold every index exactly once. *)
Lemma stratifiedFolds_perm (cfg : CVConfig) (labels : list Q) (k : Z) :
  (1 <= k)%Z ->
  Permutation
    (concat (map indices (stratifiedFolds Math_sin engine_sort cfg labels k)))
    (seq 0 (length labels)).
Proof.
  intros Hk. unfold stratifiedFolds.
  set (pos := shuffle Math_sin engine_sort (fst (groupIndices labels 0))
                (randomSeed cfg)).
  set (neg := shuffle Math_sin engine_sort (snd (groupIndices labels 0))
                (randomSeed cfg + 1)).
  rewrite map_map.
  rewrite (map_ext _
             (fun i => chunk pos k (Z.of_nat (length pos) / k) (Z.of_nat i)
                       ++ chunk neg k (Z.of_nat (length neg) / k)
                            (Z.of_nat i)))
    by (intros i; apply makeFold_indices).
  rewrite concat_map_app_perm, !chunks_cover by exact Hk.
  subst pos neg. rewrite !shuffle_perm.
  apply groupIndices_perm.
Qed.

(** C5.  For every [k >= 2] and every label sequence with at least [k]
    positives (labels 1) and at least [k] negatives (labels 0),
    [createStratifiedFolds] returns exactly [k] folds; their index lists
    have no repetition, are pairwise disjoint, and together hold exactly
    the indices [0 .. n-1] of the input. *)
Theorem createStratifiedFolds_partitions
    (cfg : CVConfig) (labels : list Q) (k : Z) (w : World)
    (Hk : (2 <= k)%Z)
    (Hpos : (k <= Z.of_nat (length (filter (fun l => Qeq_bool l 1)
                                      labels)))%Z)
    (Hneg : (k <= Z.of_nat (length (filter (fun l => Qeq_bool l 0)
                                      labels)))%Z) :
  exists folds w',
    createStratifiedFolds Math_sin engine_sort cfg labels k w
      = (Returned folds, w') /\
    Z.of_nat (length folds) = k /\
    NoDup (concat (map indices folds)) /\
    (forall i j a b,
        i <> j ->
        nth_error folds i = Some a -> nth_error folds j = Some b ->
        forall x, In x (indices a) -> ~ In x (indices b)) /\
    (forall x,
        (exists fold, In fold folds /\ In x (indices fold))
        <-> (x < length labels)%nat).
Proof.
  rewrite createStratifiedFolds_run. eexists. eexists.
  split; [reflexivity|].
  pose proof (@stratifiedFolds_perm cfg labels k ltac:(lia)) as Hperm.
  assert (Hnd : NoDup (concat (map indices
                                 (stratifiedFolds Math_sin engine_sort cfg
                                    labels k)))).
  { apply (Permutation_NoDup (Permutation_sym Hperm)). apply seq_NoDup. }
  split; [rewrite stratifiedFolds_length; lia|].
  split; [exact Hnd|]. split.
  - intros i j a b Hij Ha Hb.
    apply (NoDup_concat_disjoint _ Hnd Hij).
    + rewrite nth_error_map, Ha. reflexivity.
    + rewrite nth_error_map, Hb. reflexivity.
  - intros x. split.
    + intros (fold & Hfold & Hx).
      assert (Hin : In x (concat (map indices
                                    (stratifiedFolds Math_sin engine_sort
                                       cfg labels k)))).
      { apply in_concat. exists (indices fold). split; [|exact Hx].
        apply in_map. exact Hfold. }
      apply (Permutation_in _ Hperm) in Hin. apply in_seq in Hin. lia.
    + intros Hx.
      assert (Hin : In x (seq 0 (length labels))) by (apply in_seq; lia).
      apply (Permutation_in _ (Permutation_sym Hperm)) in Hin.
      apply in_concat in Hin as (l & Hl & Hxl).
      apply in_map_iff in Hl as (fold & <- & Hfold).
      exists fold. split; assumption.
Qed.

Lemma positive_of_makeFold (pos neg : list nat) (k np : Z) (i : nat) :
  (Z.of_nat (length pos) < k)%Z ->
  positive (makeFold pos neg k (Z.of_nat (length pos) / k) np (Z.of_nat i))
    = if (Z.of_nat i =? k - 1)%Z then Z.of_nat (length pos) else 0%Z.
Proof.
  intros Hlt. unfold makeFold. cbn [positive].
  rewrite Z.div_small by lia.
  destruct (Z.of_nat i =? k - 1)%Z; lia.
Qed.

Lemma negative_of_makeFold (pos neg : list nat) (k pp : Z) (i : nat) :
  (Z.of_nat (length neg) < k)%Z ->
  negative (makeFold pos neg k pp (Z.of_nat (length neg) / k) (Z.of_nat i))
    = if (Z.of_nat i =? k - 1)%Z then Z.of_nat (length neg) else 0%Z.
Proof.
  intros Hlt. unfold makeFold. cbn [negative].
  rewrite Z.div_small by lia.
  destruct (Z.of_nat i =? k - 1)%Z; lia.
Qed.

Lemma stratifiedFolds_nth (cfg : CVConfig) (labels : list Q) (k : Z)
    (i : nat) (fold : Fold) :
  nth_error (stratifiedFolds Math_sin engine_sort cfg labels k) i = Some fold ->
  let pos := shuffle Math_sin engine_sort (fst (groupIndices labels 0))
               (randomSeed cfg) in
  let neg := shuffle Math_sin engine_sort (snd (groupIndices labels 0))
               (randomSeed cfg + 1) in
  fold = makeFold pos neg k (Z.of_nat (length pos) / k)
           (Z.of_nat (length neg) / k) (Z.of_nat i).
Proof.
  intros H pos neg. unfold stratifiedFolds in H. fold pos neg in H.
  rewrite nth_error_map in H.
  destruct (nth_error (seq 0 (Z.to_nat k)) i) as [j|] eqn:Hj;
    [|discriminate].
  assert (Hlt : (i < length (seq 0 (Z.to_nat k)))%nat)
    by (apply nth_error_Some; congruence).
  rewrite length_seq in Hlt.
  rewrite nth_error_nth' with (d := 0%nat) in Hj
    by (rewrite length_seq; exact Hlt).
  rewrite seq_nth in Hj by exact Hlt.
  injection Hj as <-. cbn in H. injection H as <-. reflexivity.
Qed.

(** C7.  The folds returned by [createStratifiedFolds] are a function of
    the seed, the labels and [k] alone: two invocations on the same
    inputs return identical folds (the same index lists in the same
    order), whatever the rest of the configuration and the state of the
    console and files they start from; in particular a second invocation,
    run in the world the first one left, repeats its result.  The
    counter [currentSeed] of the shuffle starts afresh in every call. *)
Theorem createStratifiedFolds_deterministic
    (cfg1 cfg2 : CVConfig) (labels : list Q) (k : Z) (w1 w2 : World)
    (Hseed : randomSeed cfg1 = randomSeed cfg2) :
  fst (createStratifiedFolds Math_sin engine_sort cfg1 labels k w1)
    = fst (createStratifiedFolds Math_sin engine_sort cfg2 labels k w2)
  /\
  (let (first, w') :=
     createStratifiedFolds Math_sin engine_sort cfg1 labels k w1 in
   fst (createStratifiedFolds Math_sin engine_sort cfg2 labels k w')
     = first).
Proof.
  rewrite !createStratifiedFolds_run. cbn [fst].
  unfold stratifiedFolds. rewrite Hseed. split; reflexivity.
Qed.

End Partitioner.

(** The insertion engine only rearranges, like every engine. *)
Lemma insertSt_perm {A S : Type} (cmp : A -> A -> S -> Q * S) (x : A)
    (sorted : list A) :
  forall s, Permutation (fst (insertSt cmp x sorted s)) (x :: sorted).
Proof.
  induction sorted as [|y ys IH]; intros s; cbn [insertSt].
  - reflexivity.
  - destruct (cmp x y s) as [c s']. destruct (is_neg c); cbn [fst].
    + reflexivity.
    + specialize (IH s'). destruct (insertSt cmp x ys s') as [r s''].
      cbn [fst] in *. rewrite IH. apply perm_swap.
Qed.

Lemma insertAllSt_perm {A S : Type} (cmp : A -> A -> S -> Q * S)
    (arr : list A) :
  forall sorted s,
    Permutation (fst (insertAllSt cmp arr sorted s)) (arr ++ sorted).
Proof.
  induction arr as [|x rest IH]; intros sorted s; cbn [insertAllSt].
  - reflexivity.
  - pose proof (insertSt_perm cmp x sorted s) as Hins.
    destruct (insertSt cmp x sorted s) as [sorted' s']. cbn [fst] in Hins.
    rewrite IH, Hins. cbn [app]. symmetry. apply Permutation_middle.
Qed.

Lemma insertionEngine_rearranges :
  forall (A S : Type) (cmp : A -> A -> S -> Q * S) (arr : list A) (s : S),
    Permutation (fst (insertionEngine cmp arr s)) arr.
Proof.
  intros A S cmp arr s. unfold insertionEngine.
  rewrite insertAllSt_perm, app_nil_r. reflexivity.
Qed.

Lemma createStratifiedFolds_partitions_witness :
  exists folds w',
    createStratifiedFolds triangleWave (@insertionEngine) CV_CONFIG
      [1; 0; 1; 0; 0; 1; 1; 0] 2 (mkWorld [] []) = (Returned folds, w') /\
    Z.of_nat (length folds) = 2%Z /\
    NoDup (concat (map indices folds)).
Proof.
  destruct (@createStratifiedFolds_partitions triangleWave (@insertionEngine)
              insertionEngine_rearranges CV_CONFIG
              [1; 0; 1; 0; 0; 1; 1; 0] 2 (mkWorld [] []))
    as (folds & w' & Hrun & Hlen & Hnd & _).
  - lia.
  - cbn. lia.
  - cbn. lia.
  - exists folds, w'. repeat split; assumption.
Defined.

Lemma createStratifiedFolds_deterministic_witness :
  fst (createStratifiedFolds triangleWave (@insertionEngine) CV_CONFIG
         [1; 0; 1; 0; 0; 1] 2 (mkWorld [] []))
  = fst (createStratifiedFolds triangleWave (@insertionEngine)
           (mkConfig 3 false 42 "elsewhere")
           [1; 0; 1; 0; 0; 1] 2 (mkWorld [LogCompleted] [])).
Proof.
  apply (@createStratifiedFolds_deterministic triangleWave (@insertionEngine)
           CV_CONFIG (mkConfig 3 false 42 "elsewhere")).
  reflexivity.
Defined.

(** C4, as stated: with [k = 1 < 2] (and likewise with [k = 3] above the
    single positive) the partitioner would fail with
    [InvalidConfiguration].  It returns folds. *)
Lemma createStratifiedFolds_accepts_any_k :
  (1 < 2)%Z /\
  fst (createStratifiedFolds triangleWave (@insertionEngine) CV_CONFIG
         [1; 0] 1 (mkWorld [] []))
    = Returned [mkFold [0; 1]%nat 1 1] /\
  Z.lt (Z.of_nat (length (filter (fun l => Qeq_bool l 1) [1; 0; 0; 0]))) 3 /\
  fst (createStratifiedFolds triangleWave (@insertionEngine) CV_CONFIG
         [1; 0; 0; 0] 3 (mkWorld [] []))
    <> Thrown InvalidConfiguration.
Proof.
  split; [lia|]. split; [vm_compute; reflexivity|].
  split; [cbn; lia|]. vm_compute. discriminate.
Qed.

(** ** Aggregation over the folds *)

Lemma fin_eq (a b : Q) : a == b -> fin a = fin b.
Proof. intros H. unfold fin. f_equal. apply Qred_complete. exact H. Qed.

Lemma same_refl (x : number) : same x x.
Proof. destruct x; cbn; auto. reflexivity. Qed.

Lemma same_fin (q : Q) : same (fin q) (Fin q).
Proof. cbn. apply Qred_correct. Qed.

Lemma is_zero_eq (a b : Q) : a == b -> is_zero a = is_zero b.
Proof.
  intros H. unfold is_zero. apply eq_true_iff_eq.
  rewrite !Qeq_bool_iff, H. reflexivity.
Qed.

Lemma is_neg_eq (a b : Q) : a == b -> is_neg a = is_neg b.
Proof.
  intros H. apply eq_true_iff_eq. rewrite !is_neg_lt, H. reflexivity.
Qed.

Ltac number_cases :=
  repeat match goal with
         | x : number |- _ => destruct x
         end;
  cbn [add neg sub mul div same fin zero of_Z] in *;
  try reflexivity; try contradiction; try discriminate.

Lemma add_same (x x' y y' : number) :
  same x x' -> same y y' -> add x y = add x' y'.
Proof.
  intros Hx Hy. number_cases. apply fin_eq. rewrite Hx, Hy. reflexivity.
Qed.

Lemma div_same (x x' y y' : number) :
  same x x' -> same y y' -> div x y = div x' y'.
Proof.
  destruct x as [a| | |], x' as [a'| | |]; cbn [same];
    try contradiction;
    destruct y as [b| | |], y' as [b'| | |]; cbn [same];
    try contradiction; intros Hx Hy; cbn [div]; try reflexivity;
    unfold inf_signed.
  - rewrite (is_zero_eq Hx), (is_zero_eq Hy), (is_neg_eq Hx).
    destruct (is_zero b'); [reflexivity|].
    apply fin_eq. rewrite Hx, Hy. reflexivity.
  - rewrite (is_neg_eq Hy). reflexivity.
  - rewrite (is_neg_eq Hy). reflexivity.
Qed.

Lemma add_comm (x y : number) : add x y = add y x.
Proof. number_cases. apply fin_eq. ring. Qed.

Lemma add_assoc (x y z : number) : add (add x y) z = add x (add y z).
Proof.
  number_cases. apply fin_eq. rewrite !Qred_correct. ring.
Qed.

Lemma add_zero_r (x : number) : same (add x zero) x.
Proof.
  number_cases; auto. rewrite !Qred_correct. change (inject_Z 0) with 0. ring.
Qed.

Lemma add_zero_l (x : number) : same (add zero x) x.
Proof. rewrite add_comm. apply add_zero_r. Qed.

Lemma fold_left_add (vs : list number) :
  vs <> [] -> forall a, fold_left add vs a = add a (sum vs).
Proof.
  induction vs as [|x vs IH]; intros Hne a; [congruence|].
  cbn [fold_left sum fold_right].
  destruct vs as [|y vs].
  - cbn [fold_left fold_right]. apply add_same.
    + apply same_refl.
    + destruct x; cbn [same add zero of_Z fin]; auto.
      rewrite !Qred_correct. change (inject_Z 0) with 0. ring.
  - rewrite IH by discriminate. apply add_assoc.
Qed.

Lemma fold_left_add_map {A : Type} (g : A -> number) (l : list A) :
  forall a,
    fold_left (fun acc b => add acc (g b)) l a = fold_left add (map g l) a.
Proof.
  induction l as [|x l IH]; intros a; cbn [fold_left map]; [reflexivity|].
  apply IH.
Qed.

Lemma sum_nonempty_absorbs_zero (vs : list number) :
  vs <> [] -> add zero (sum vs) = sum vs.
Proof.
  destruct vs as [|x vs]; [congruence|]. intros _.
  cbn [sum fold_right]. rewrite <- add_assoc.
  apply add_same; [apply add_zero_l | apply same_refl].
Qed.

(** The two folds of [calculateStats] compute the specification's mean and
    population standard deviation. *)
Lemma calculateStats_refines (foldResults : list FoldResult) (m : metric) :
  foldResults <> [] ->
  calculateStats foldResults m =
    Returned (mkStats (arithmeticMean (map (getMetric m) foldResults))
                      (populationStd (map (getMetric m) foldResults))
                      (map (getMetric m) foldResults)).
Proof.
  intros Hne. unfold calculateStats.
  destruct (map (getMetric m) foldResults) as [|v vs] eqn:Hvals.
  - destruct foldResults; [congruence | discriminate].
  - assert (Hmean : div (fold_left add vs v) (of_nat (length (v :: vs)))
                    = arithmeticMean (v :: vs)).
    { unfold arithmeticMean. cbn [sum fold_right].
      destruct vs as [|y vs].
      - cbn [fold_left fold_right]. apply div_same.
        + destruct v; cbn [same add zero of_Z fin]; auto.
          rewrite !Qred_correct. change (inject_Z 0) with 0. ring.
        + apply same_refl.
      - rewrite fold_left_add by discriminate. reflexivity. }
    rewrite Hmean. unfold populationStd, Math_sqrt.
    rewrite fold_left_add_map, fold_left_add by discriminate.
    rewrite sum_nonempty_absorbs_zero by discriminate. reflexivity.
Qed.

Lemma sum_map_finite (g : number -> number) (h : Q -> Q) (qs : list Q) :
  (forall q, same (g (Fin q)) (Fin (h q))) ->
  same (sum (map g (map Fin qs))) (Fin (Qsum (map h qs))).
Proof.
  intros Hg. induction qs as [|q qs IH]; cbn [map sum fold_right Qsum].
  - apply same_fin.
  - fold (sum (map g (map Fin qs))). fold (Qsum (map h qs)).
    rewrite (add_same _ _ _ _ (Hg q) IH). apply same_fin.
Qed.

Lemma sum_finite (qs : list Q) : same (sum (map Fin qs)) (Fin (Qsum qs)).
Proof.
  pose proof (sum_map_finite (fun v => v) (fun q => q) qs
                (fun q => same_refl (Fin q))) as H.
  rewrite !map_id in H. exact H.
Qed.

Lemma of_nat_finite (n : nat) :
  same (of_nat n) (Fin (inject_Z (Z.of_nat n))).
Proof. apply same_fin. Qed.

Lemma Qcount_nonzero (qs : list Q) : qs <> [] -> is_zero (Qcount qs) = false.
Proof.
  intros Hne. unfold is_zero, Qcount.
  destruct (Qeq_bool _ 0) eqn:E; [|reflexivity].
  apply Qeq_bool_iff in E. exfalso.
  destruct qs as [|q qs]; [congruence|].
  cbn [length] in E. unfold Qeq, inject_Z in E. cbn in E. lia.
Qed.

(** On finite values the specification's mean is the sum over [k]. *)
Lemma arithmeticMean_finite (qs : list Q) :
  qs <> [] -> arithmeticMean (map Fin qs) = fin (Qmean qs).
Proof.
  intros Hne. unfold arithmeticMean. rewrite length_map.
  rewrite (div_same _ _ _ _ (sum_finite qs) (of_nat_finite (length qs))).
  cbn [div]. fold (Qcount qs). rewrite (Qcount_nonzero Hne). reflexivity.
Qed.

(** On finite values the radicand of the specification's standard
    deviation is the sum of the squared deviations over [k]. *)
Lemma populationStd_finite (qs : list Q) :
  qs <> [] ->
  populationStd (map Fin qs) = Sqrt (fin (QpopulationVariance qs)).
Proof.
  intros Hne. unfold populationStd. f_equal.
  rewrite arithmeticMean_finite by exact Hne. rewrite length_map.
  assert (Hsq : forall q,
             same (pow2 (sub (Fin q) (fin (Qmean qs))))
                  (Fin ((q - Qmean qs) * (q - Qmean qs)))).
  { intros q. cbn [pow2 sub neg add mul fin same].
    rewrite !Qred_correct. ring. }
  rewrite (div_same _ _ _ _
             (sum_map_finite (fun v => pow2 (sub v (fin (Qmean qs))))
                (fun q => (q - Qmean qs) * (q - Qmean qs)) qs Hsq)
             (of_nat_finite (length qs))).
  cbn [div]. fold (Qcount qs). rewrite (Qcount_nonzero Hne). reflexivity.
Qed.

(** ** The standard deviation in double arithmetic *)

Lemma float_eq (x y : PrimFloat.float) :
  FloatOps.Prim2SF x = FloatOps.Prim2SF y -> x = y.
Proof.
  intros H. rewrite <- (FloatAxioms.SF2Prim_Prim2SF x).
  rewrite <- (FloatAxioms.SF2Prim_Prim2SF y). rewrite H. reflexivity.
Qed.

(** A square is never the negative zero, so adding it to zero leaves
    it. *)
Lemma zero_add_square (x : PrimFloat.float) :
  PrimFloat.add PrimFloat.zero (Double.pow2 x) = Double.pow2 x.
Proof.
  apply float_eq. unfold Double.pow2.
  rewrite FloatAxioms.add_spec, FloatAxioms.mul_spec.
  change (FloatOps.Prim2SF PrimFloat.zero) with (SpecFloat.S754_zero false).
  destruct (FloatOps.Prim2SF x) as [[]|[]| |s m e]; try reflexivity.
  unfold FloatAxioms.SF64mul, SpecFloat.SFmul.
  replace (xorb s s) with false by (destruct s; reflexivity).
  unfold SpecFloat.binary_round_aux.
  destruct (SpecFloat.shr_fexp _ _ _ _ _) as [mrs' e'].
  destruct (SpecFloat.shr_fexp _ _ _ _ _) as [mrs'' e''].
  destruct (SpecFloat.shr_m mrs''); try reflexivity.
  destruct (_ <=? _)%Z; reflexivity.
Qed.

Lemma add_NaN_l (x : PrimFloat.float) :
  PrimFloat.add PrimFloat.nan x = PrimFloat.nan.
Proof.
  apply float_eq. rewrite FloatAxioms.add_spec.
  change (FloatOps.Prim2SF PrimFloat.nan) with SpecFloat.S754_nan.
  reflexivity.
Qed.

Lemma add_NaN_r (x : PrimFloat.float) :
  PrimFloat.add x PrimFloat.nan = PrimFloat.nan.
Proof.
  apply float_eq. rewrite FloatAxioms.add_spec.
  change (FloatOps.Prim2SF PrimFloat.nan) with SpecFloat.S754_nan.
  destruct (FloatOps.Prim2SF x); reflexivity.
Qed.

Lemma sub_NaN_r (x : PrimFloat.float) :
  PrimFloat.sub x PrimFloat.nan = PrimFloat.nan.
Proof.
  apply float_eq. rewrite FloatAxioms.sub_spec.
  change (FloatOps.Prim2SF PrimFloat.nan) with SpecFloat.S754_nan.
  destruct (FloatOps.Prim2SF x); reflexivity.
Qed.

Lemma div_NaN_l (x : PrimFloat.float) :
  PrimFloat.div PrimFloat.nan x = PrimFloat.nan.
Proof.
  apply float_eq. rewrite FloatAxioms.div_spec.
  change (FloatOps.Prim2SF PrimFloat.nan) with SpecFloat.S754_nan.
  reflexivity.
Qed.

Lemma fold_left_fused {A B : Type} (op : A -> A -> A) (f : B -> A)
    (l : list B) :
  forall a,
    fold_left (fun a b => op a (f b)) l a = fold_left op (map f l) a.
Proof.
  induction l as [|b l IH]; intros a; cbn [fold_left map];
    [reflexivity | apply IH].
Qed.

Lemma Double_mean_refines (values : list PrimFloat.float) :
  Double.mean values = doubleArithmeticMean values.
Proof. destruct values; [vm_compute|]; reflexivity. Qed.

(** The sum of squares that [reduce] starts from 0 is the sum of the
    squares from the first one on. *)
Lemma Double_std_refines (values : list PrimFloat.float) :
  Double.std values = doublePopulationStd values.
Proof.
  unfold Double.std, doublePopulationStd.
  rewrite Double_mean_refines. do 2 f_equal.
  destruct values as [|v vs]; [reflexivity|].
  cbn [fold_left map doubleSum]. rewrite zero_add_square.
  apply (fold_left_fused PrimFloat.add).
Qed.

(** ** The run *)

Lemma aggregate_returns (foldResults : list FoldResult) :
  foldResults <> [] ->
  exists aggregated,
    aggregate foldResults = Returned aggregated /\
    forall m, calculateStats foldResults m = Returned (statsOf aggregated m).
Proof.
  intros Hne. unfold aggregate.
  rewrite !calculateStats_refines by exact Hne. cbn [bind].
  eexists. split; [reflexivity|].
  intros []; rewrite calculateStats_refines by exact Hne; reflexivity.
Qed.

Lemma aggregate_inv (foldResults : list FoldResult) (aggregated : Aggregated) :
  aggregate foldResults = Returned aggregated ->
  foldResults <> [] /\
  forall m, calculateStats foldResults m = Returned (statsOf aggregated m).
Proof.
  intros H. destruct foldResults as [|r rest]; [discriminate H|].
  split; [discriminate|].
  destruct (@aggregate_returns (r :: rest)) as (a & Ha & Hstats);
    [discriminate|].
  rewrite Ha in H. injection H as <-. exact Hstats.
Qed.

Lemma rejection_accepts (fs : FileSystem) (cfg : CVConfig) :
  rejection fs cfg = None <-> accepts fs cfg.
Proof.
  unfold rejection, accepts.
  destruct (mkdirError fs (resultsPath cfg)); split.
  - discriminate.
  - intros [H _]. discriminate H.
  - intros H. split; [reflexivity|].
    destruct (writeFileError fs (reportPath cfg)); [discriminate H|].
    reflexivity.
  - intros [_ H]. rewrite H. reflexivity.
Qed.


Lemma finishRun_returns (now : string) (fs : FileSystem) (cfg : CVConfig)
    (foldResults : list FoldResult) (aggregated : Aggregated) (w : World) :
  aggregate foldResults = Returned aggregated ->
  accepts fs cfg ->
  finishRun now fs cfg foldResults w =
    (Returned (reportObject cfg now foldResults aggregated),
     mkWorld
       (console w ++ [LogResultsSaved (reportPath cfg);
                      verdictLine aggregated; LogCompleted])
       (store (reportPath cfg)
          (JSON_stringify (reportObject cfg now foldResults aggregated))
          (files w))).
Proof.
  intros Hagg [Hmkdir Hwrite].
  unfold finishRun, bindEff, lift, say, mkdir, writeFile, ret.
  rewrite Hagg, Hmkdir, Hwrite. cbn [console files].
  rewrite <- !app_assoc. reflexivity.
Qed.

Lemma finishRun_rejected (now : string) (fs : FileSystem) (cfg : CVConfig)
    (foldResults : list FoldResult) (aggregated : Aggregated) (e : error)
    (w : World) :
  aggregate foldResults = Returned aggregated ->
  rejection fs cfg = Some e ->
  finishRun now fs cfg foldResults w =
    (Thrown e, mkWorld (console w) (afterRejection fs cfg (files w))).
Proof.
  intros Hagg Hrej. unfold rejection in Hrej. unfold afterRejection.
  unfold finishRun, bindEff, lift, say, mkdir, writeFile, ret.
  rewrite Hagg. destruct w as [lines fls]. cbn [console files].
  destruct (mkdirError fs (resultsPath cfg)) as [e'|].
  - injection Hrej as ->. reflexivity.
  - destruct (writeFileError fs (reportPath cfg)) as [[e' [partial|]]|];
      [| |discriminate Hrej]; injection Hrej as ->; reflexivity.
Qed.

Lemma finishRun_throws (now : string) (fs : FileSystem) (cfg : CVConfig)
    (foldResults : list FoldResult) (e : error) (w : World) :
  aggregate foldResults = Thrown e ->
  finishRun now fs cfg foldResults w = (Thrown e, w).
Proof.
  intros Hagg. unfold finishRun, bindEff, lift. rewrite Hagg. reflexivity.
Qed.

Lemma finishRun_inv (now : string) (fs : FileSystem) (cfg : CVConfig)
    (foldResults : list FoldResult) (report : jsval) (w w' : World) :
  finishRun now fs cfg foldResults w = (Returned report, w') ->
  exists aggregated,
    aggregate foldResults = Returned aggregated /\
    report = reportObject cfg now foldResults aggregated /\
    console w' = console w ++ [LogResultsSaved (reportPath cfg);
                               verdictLine aggregated; LogCompleted].
Proof.
  intros H. destruct (aggregate foldResults) as [aggregated|e] eqn:Hagg.
  - destruct (rejection fs cfg) as [e|] eqn:Hrej.
    + rewrite (@finishRun_rejected now fs cfg _ _ e w Hagg Hrej) in H.
      discriminate H.
    + apply rejection_accepts in Hrej.
      rewrite (@finishRun_returns now fs cfg _ _ w Hagg Hrej) in H.
      injection H as <- <-. exists aggregated. repeat split; reflexivity.
  - rewrite (@finishRun_throws now fs cfg _ e w Hagg) in H. discriminate H.
Qed.

Section Run.

Variable Math_sin : Q -> Q.
Variable engine_sort :
  forall (A S : Type), (A -> A -> S -> Q * S) -> list A -> S -> list A * S.
Variable Features : Type.
Variable loadAndPreprocessData : outcome (list (Features * Q)).
Variable classifier :
  nat -> list Features -> list Q -> list Features -> outcome (list Q).
Variable now : string.
Variable fs : FileSystem.

Lemma runFold_inv (xs : list Features) (ys : list Q) (folds : list Fold)
    (foldIdx : nat) (testFold : Fold) (r : FoldResult) (w w' : World) :
  runFold classifier xs ys folds foldIdx testFold w = (Returned r, w') ->
  evaluates classifier xs ys folds foldIdx testFold r.
Proof.
  unfold runFold, evaluates, splitByIndices, bindEff, lift, say, ret.
  destruct (classifier foldIdx _ _ _) as [predictions|e]; [|discriminate].
  destruct (evaluateFold predictions _) as [metrics|e] eqn:He;
    [|discriminate].
  intros H. injection H as <- _. exists predictions. split; [reflexivity|].
  exact He.
Qed.

Lemma foldLoop_inv (xs : list Features) (ys : list Q) (folds : list Fold)
    (todo : list Fold) :
  forall (foldIdx : nat) (done results : list FoldResult) (w w' : World),
    foldLoop classifier xs ys folds foldIdx todo done w
      = (Returned results, w') ->
    exists new,
      results = done ++ new /\
      length new = length todo /\
      forall j testFold r,
        nth_error todo j = Some testFold -> nth_error new j = Some r ->
        evaluates classifier xs ys folds (foldIdx + j) testFold r.
Proof.
  induction todo as [|testFold rest IH];
    intros foldIdx done results w w' H; cbn [foldLoop] in H.
  - unfold ret in H. injection H as <- _. exists [].
    rewrite app_nil_r. split; [reflexivity|]. split; [reflexivity|].
    intros [|j] ? ? Hj; discriminate Hj.
  - unfold bindEff in H at 1.
    destruct (runFold classifier xs ys folds foldIdx testFold w)
      as [[metrics|e] w1] eqn:Hfold; [|discriminate H].
    apply runFold_inv in Hfold.
    apply IH in H as (new & -> & Hlen & Hnew).
    exists (metrics :: new). rewrite <- app_assoc.
    split; [reflexivity|]. split; [cbn [length]; congruence|].
    intros [|j] fold r Hj Hr; cbn [nth_error] in Hj, Hr.
    + injection Hj as <-. injection Hr as <-.
      rewrite Nat.add_0_r. exact Hfold.
    + replace (foldIdx + S j)%nat with (S foldIdx + j)%nat by lia.
      exact (Hnew j fold r Hj Hr).
Qed.

(** A run that returns its report went through every step. *)
Lemma runCrossValidation_inv (cfg : CVConfig) (report : jsval)
    (w w' : World) :
  runCrossValidation Math_sin engine_sort loadAndPreprocessData classifier
    now fs cfg w = (ReportReturned report, w') ->
  exists samples foldResults aggregated,
    let ys := map snd samples in
    let folds := stratifiedFolds Math_sin engine_sort cfg ys (nFolds cfg) in
    loadAndPreprocessData = Returned samples /\
    length foldResults = length folds /\
    (forall i testFold r,
        nth_error folds i = Some testFold ->
        nth_error foldResults i = Some r ->
        evaluates classifier (map fst samples) ys folds i testFold r) /\
    aggregate foldResults = Returned aggregated /\
    report = reportObject cfg now foldResults aggregated /\
    exists before,
      console w' = before ++ [LogResultsSaved (reportPath cfg);
                              verdictLine aggregated; LogCompleted].
Proof.
  unfold runCrossValidation.
  destruct (tryBlock _ _ _ _ _ _ _ w) as [[report'|e] w1] eqn:Htry;
    [|discriminate].
  intros H. injection H as -> ->.
  unfold tryBlock in Htry. unfold bindEff at 1, lift at 1 in Htry.
  destruct loadAndPreprocessData as [samples|e]; [|discriminate Htry].
  unfold bindEff at 1 in Htry.
  rewrite createStratifiedFolds_run in Htry.
  unfold bindEff at 1 in Htry.
  destruct (foldLoop _ _ _ _ _ _ _ _) as [[foldResults|e] w2] eqn:Hloop;
    [|discriminate Htry].
  apply foldLoop_inv in Hloop as (new & -> & Hlen & Hnew).
  apply finishRun_inv in Htry as (aggregated & Hagg & -> & Hcon).
  exists samples, new, aggregated. cbn zeta.
  split; [reflexivity|]. split; [exact Hlen|].
  split; [exact Hnew|]. split; [exact Hagg|]. split; [reflexivity|].
  eexists. exact Hcon.
Qed.

End Run.

(** C6.  For every non-empty sequence of [k] fold results the aggregation
    returns, and what it returns for each metric is what [calculateStats]
    returns: the [k] values, as [mean] their arithmetic mean and as [std]
    their population standard deviation, the square root of the sum of the
    squared deviations divided by [k]; on finite values these are
    [sum / k] and the root of [sum of squares / k] over the rationals.  On
    doubles, every operation rounded, the computation of [calculateStats]
    gives for every sequence of values the mean [(v1 + ... + vk) / k] and
    the root of the sum of the squared deviations over [k].  The double
    that the engine holds as standard deviation of auc is this population
    standard deviation of the doubles of the auc values, and the line
    logged as verdict is the stable one exactly when this double is below
    the double of 0.05, the variable one otherwise.  A run whose report the
    file system accepts logs that line in every configuration: the
    threshold is not read from it. *)
Theorem aggregation_mean_and_population_std
    (foldResults : list FoldResult) (Hk : foldResults <> []) :
  exists aggregated,
    aggregate foldResults = Returned aggregated /\
    (forall m,
        let vals := map (getMetric m) foldResults in
        calculateStats foldResults m = Returned (statsOf aggregated m) /\
        statsOf aggregated m =
          mkStats (arithmeticMean vals) (populationStd vals) vals /\
        forall qs,
          vals = map Fin qs ->
          mean (statsOf aggregated m) = fin (Qmean qs) /\
          std (statsOf aggregated m) = Sqrt (fin (QpopulationVariance qs))) /\
    (forall values : list PrimFloat.float,
        Double.mean values = doubleArithmeticMean values /\
        Double.std values = doublePopulationStd values) /\
    stdDouble (agg_auc aggregated) =
      doublePopulationStd (map Double.of_number (map auc foldResults)) /\
    (verdictLine aggregated = LogStable
     <-> belowThreshold (stdDouble (agg_auc aggregated)) = true) /\
    (verdictLine aggregated = LogVariable
     <-> belowThreshold (stdDouble (agg_auc aggregated)) = false) /\
    forall now fs cfg w,
      accepts fs cfg ->
      console (snd (finishRun now fs cfg foldResults w)) =
        console w ++ [LogResultsSaved (reportPath cfg);
                      verdictLine aggregated; LogCompleted].
Proof.
  destruct (aggregate_returns Hk) as (aggregated & Hagg & Hstats).
  exists aggregated. split; [exact Hagg|].
  assert (Hrefines : forall m,
             statsOf aggregated m =
               mkStats (arithmeticMean (map (getMetric m) foldResults))
                 (populationStd (map (getMetric m) foldResults))
                 (map (getMetric m) foldResults)).
  { intros m. pose proof (Hstats m) as H.
    rewrite (calculateStats_refines m Hk) in H.
    apply (f_equal (fun o => match o with
                             | Returned a => a
                             | Thrown _ => statsOf aggregated m
                             end)) in H.
    symmetry. exact H. }
  split; [|split; [|split; [|split; [|split]]]].
  - intros m vals. split; [exact (Hstats m)|].
    split; [exact (Hrefines m)|].
    intros qs Hqs. rewrite (Hrefines m). cbn [mean std]. fold vals.
    rewrite Hqs.
    assert (Hne : qs <> []).
    { intros ->. subst vals. destruct foldResults; [congruence|].
      discriminate Hqs. }
    split; [apply arithmeticMean_finite | apply populationStd_finite];
      exact Hne.
  - intros values.
    split; [apply Double_mean_refines | apply Double_std_refines].
  - unfold stdDouble. change (agg_auc aggregated) with (statsOf aggregated Auc).
    rewrite (Hrefines Auc). cbn [values getMetric].
    apply Double_std_refines.
  - unfold verdictLine, belowThreshold, stableThreshold.
    destruct (PrimFloat.ltb _ _); split; intros H;
      try reflexivity; discriminate H.
  - unfold verdictLine, belowThreshold, stableThreshold.
    destruct (PrimFloat.ltb _ _); split; intros H;
      try reflexivity; discriminate H.
  - intros now fs cfg w Hfs.
    rewrite (@finishRun_returns now fs cfg _ _ w Hagg Hfs). reflexivity.
Qed.

Lemma aggregation_mean_and_population_std_witness :
  exists aggregated,
    aggregate
      (map withAuc [70 # 100; 72 # 100; 69 # 100; 71 # 100; 73 # 100])
      = Returned aggregated /\
    agg_auc aggregated =
      mkStats (Fin (71 # 100)) (Sqrt (Fin (1 # 5000)))
        [Fin (70 # 100); Fin (72 # 100); Fin (69 # 100); Fin (71 # 100);
         Fin (73 # 100)] /\
    verdictLine aggregated = LogStable.
Proof.
  destruct (@aggregation_mean_and_population_std
              (map withAuc [70 # 100; 72 # 100; 69 # 100; 71 # 100; 73 # 100]))
    as (aggregated & Hagg & Hstats & _ & Hstd & Hstable & _).
  - discriminate.
  - exists aggregated. split; [exact Hagg|].
    destruct (Hstats Auc) as (_ & Hauc & _). cbn [statsOf] in Hauc.
    split.
    + rewrite Hauc. vm_compute. reflexivity.
    + apply Hstable. rewrite Hstd. vm_compute. reflexivity.
Defined.

(** The two examples of the specification: auc values
    [0.70, 0.72, 0.69, 0.71, 0.73] have mean 0.71 and are reported stable,
    [0.50, 0.90, 0.55, 0.95, 0.60] are reported variable. *)
Example stable_example :
  exists aggregated,
    aggregate (map withAuc [70 # 100; 72 # 100; 69 # 100; 71 # 100; 73 # 100])
      = Returned aggregated /\
    mean (agg_auc aggregated) = Fin (71 # 100) /\
    verdictLine aggregated = LogStable.
Proof.
  eexists. split; [vm_compute; reflexivity|].
  split; vm_compute; reflexivity.
Qed.

Example variable_example :
  exists aggregated,
    aggregate (map withAuc [50 # 100; 90 # 100; 55 # 100; 95 # 100; 60 # 100])
      = Returned aggregated /\
    std (agg_auc aggregated) = Sqrt (Fin (7 # 200)) /\
    verdictLine aggregated = LogVariable.
Proof.
  eexists. split; [vm_compute; reflexivity|].
  split; vm_compute; reflexivity.
Qed.

(** Next to the bound the rounding decides.  The auc values
    [0.25, 0.25, 0.25, 0.25, 0.375] have a variance of 0.0025, so their
    standard deviation is 0.05; the double computed for it is the one
    just below the double of 0.05, and the run is reported stable. *)
Example boundary_example :
  exists aggregated,
    aggregate (map withAuc [1 # 4; 1 # 4; 1 # 4; 1 # 4; 3 # 8])
      = Returned aggregated /\
    std (agg_auc aggregated) = Sqrt (Fin (1 # 400)) /\
    PrimFloat.ltb (stdDouble (agg_auc aggregated))
      (Double.of_number (Fin (5 # 100))) = true /\
    verdictLine aggregated = LogStable.
Proof.
  eexists. split; [vm_compute; reflexivity|].
  split; [|split]; vm_compute; reflexivity.
Qed.

(** ** Degenerate folds *)

Lemma insert_perm {A : Type} (cmp : A -> A -> Q) (x : A) (sorted : list A) :
  Permutation (insert cmp x sorted) (x :: sorted).
Proof.
  induction sorted as [|y ys IH]; cbn [insert]; [reflexivity|].
  destruct (is_neg (cmp x y)); [reflexivity|].
  rewrite IH. apply perm_swap.
Qed.

Lemma sort_perm {A : Type} (cmp : A -> A -> Q) (arr : list A) :
  Permutation (sort cmp arr) arr.
Proof.
  unfold sort. rewrite <- (app_nil_r arr) at 2.
  generalize (@nil A) as acc.
  induction arr as [|x rest IH]; intros acc; cbn [fold_left app].
  - reflexivity.
  - rewrite IH, insert_perm. symmetry. apply Permutation_middle.
Qed.

Lemma rankLoop_no_positive (pairs : list Pair) :
  Forall (fun p => Qeq_bool (label p) 1 = false) pairs ->
  forall i st,
    rankLoop pairs i st =
      mkRank (positives st) (negatives st + Z.of_nat (length pairs))
             (sumRanks st).
Proof.
  induction 1 as [|p rest Hp _ IH]; intros i st; cbn [rankLoop length].
  - destruct st. cbn. f_equal. lia.
  - rewrite Hp, IH. cbn [positives negatives sumRanks]. f_equal. lia.
Qed.

Lemma rankLoop_all_positive (pairs : list Pair) :
  Forall (fun p => Qeq_bool (label p) 1 = true) pairs ->
  forall i st,
    exists s,
      rankLoop pairs i st =
        mkRank (positives st + Z.of_nat (length pairs)) (negatives st) s /\
      (2 * s = 2 * sumRanks st
               + Z.of_nat (length pairs)
                 * (2 * Z.of_nat i + Z.of_nat (length pairs) + 1))%Z.
Proof.
  induction 1 as [|p rest Hp _ IH]; intros i st; cbn [rankLoop length].
  - exists (sumRanks st). destruct st. cbn. split; [f_equal; lia | lia].
  - rewrite Hp.
    destruct (IH (S i) (mkRank (positives st + 1) (negatives st)
                          (sumRanks st + (Z.of_nat i + 1))))
      as (s & -> & Hs).
    cbn [positives negatives sumRanks] in *.
    exists s. split; [f_equal; lia | nia].
Qed.

Lemma aucOfRanks_no_positive (n : Z) : aucOfRanks (mkRank 0 n 0) = NaN.
Proof.
  unfold aucOfRanks. cbn [positives negatives sumRanks Z.mul]. reflexivity.
Qed.

Lemma aucOfRanks_no_negative (p s : Z) :
  (2 * s = p * (p + 1))%Z -> aucOfRanks (mkRank p 0 s) = NaN.
Proof.
  intros Hs. unfold aucOfRanks. cbn [positives negatives sumRanks].
  rewrite Z.mul_0_r, <- Hs.
  rewrite (div_same _ (Fin 0) _ (Fin 0)); [reflexivity | | apply same_fin].
  cbn [sub div of_Z fin].
  change (is_zero (Qred (inject_Z 2))) with false.
  unfold sub, of_Z, fin. cbn [neg add same]. unfold fin. cbn [same].
  rewrite !Qred_correct, inject_Z_mult.
  change (inject_Z 2) with 2. field.
Qed.

Lemma pairs_labels (P : Q -> Prop) (predictions labels : list Q) :
  Forall P labels ->
  Forall (fun p => P (label p))
    (map (fun '(p, l) => mkPair p l) (combine predictions labels)).
Proof.
  intros H. apply Forall_forall. intros pr Hin.
  apply in_map_iff in Hin as ([p l] & <- & Hin).
  apply in_combine_r in Hin. rewrite Forall_forall in H.
  exact (H l Hin).
Qed.

(** On a fold whose labels are all 0 or all 1, [evaluateFold], when it
    returns, returns [NaN] as auc. *)
Lemma evaluateFold_degenerate (predictions labels : list Q) (r : FoldResult) :
  lacksAClass labels = true ->
  evaluateFold predictions labels = Returned r ->
  auc r = NaN.
Proof.
  intros Hlack Heval.
  destruct (Nat.le_gt_cases (length predictions) (length labels))
    as [Hle | Hgt].
  2:{ rewrite evaluateFold_throws in Heval by exact Hgt. discriminate. }
  destruct (evaluateFold_returns predictions labels Hle)
    as (r' & Hr & _ & _ & Hauc).
  rewrite Hr in Heval. injection Heval as ->. rewrite Hauc.
  unfold lacksAClass, allLabels in Hlack.
  apply orb_true_iff in Hlack as [H0 | H1].
  - rewrite rankLoop_no_positive.
    + cbn [positives negatives sumRanks]. apply aucOfRanks_no_positive.
    + apply (Permutation_Forall (Permutation_sym (sort_perm _ _))).
      apply (@pairs_labels (fun l => Qeq_bool l 1 = false)).
      rewrite forallb_forall in H0. apply Forall_forall. intros l Hl.
      specialize (H0 l Hl).
      destruct (Qeq_bool l 1) eqn:E; [|reflexivity].
      rewrite (one_is_not_zero _ E) in H0. discriminate H0.
  - edestruct rankLoop_all_positive as (s & -> & Hs).
    + apply (Permutation_Forall (Permutation_sym (sort_perm _ _))).
      apply (@pairs_labels (fun l => Qeq_bool l 1 = true)).
      rewrite forallb_forall in H1. apply Forall_forall. exact H1.
    + cbn [positives negatives sumRanks] in *.
      apply aucOfRanks_no_negative. rewrite Hs. cbn [Z.of_nat]. lia.
Qed.

Lemma sum_NaN (vals : list number) : In NaN vals -> sum vals = NaN.
Proof.
  induction vals as [|v vals IH]; intros Hin; [contradiction|].
  cbn [sum fold_right]. destruct Hin as [-> | Hin]; [reflexivity|].
  fold (sum vals). rewrite (IH Hin). destruct v; reflexivity.
Qed.

Lemma arithmeticMean_NaN (vals : list number) :
  In NaN vals -> arithmeticMean vals = NaN.
Proof.
  intros Hin. unfold arithmeticMean. rewrite (sum_NaN _ Hin). reflexivity.
Qed.

(** ** The console only grows *)

Lemma grows_refl (w : World) : grows w w.
Proof. exists []. rewrite app_nil_r. reflexivity. Qed.

Lemma grows_trans (w1 w2 w3 : World) :
  grows w1 w2 -> grows w2 w3 -> grows w1 w3.
Proof.
  intros (l1 & H1) (l2 & H2). exists (l1 ++ l2).
  rewrite H2, H1, app_assoc. reflexivity.
Qed.

Lemma growing_ret {A : Type} (a : A) : growing (ret a).
Proof. intros w. apply grows_refl. Qed.

Lemma growing_lift {A : Type} (m : outcome A) : growing (lift m).
Proof. intros w. apply grows_refl. Qed.

Lemma growing_say (lines : list console_line) : growing (say lines).
Proof. intros w. exists lines. reflexivity. Qed.

Lemma growing_mkdir (fs : FileSystem) (path : string) :
  growing (mkdir fs path).
Proof.
  intros w. exists []. unfold mkdir.
  destruct (mkdirError fs path); cbn; rewrite app_nil_r; reflexivity.
Qed.

Lemma growing_writeFile (fs : FileSystem) (path : string)
    (content : jsval) :
  growing (writeFile fs path content).
Proof.
  intros w. exists []. unfold writeFile.
  destruct (writeFileError fs path) as [[e [partial|]]|]; cbn;
    rewrite app_nil_r; reflexivity.
Qed.

Lemma growing_bind {A B : Type} (m : Eff A) (k : A -> Eff B) :
  growing m -> (forall a, growing (k a)) -> growing (bindEff m k).
Proof.
  intros Hm Hk w. unfold bindEff. specialize (Hm w).
  destruct (m w) as [[a|e] w1]; cbn [snd] in *; [|exact Hm].
  exact (grows_trans Hm (Hk a w1)).
Qed.

Create HintDb growing.

#[local] Hint Resolve growing_ret growing_lift growing_say growing_mkdir
  growing_writeFile : growing.

Lemma in_console_bind {A B : Type} (m : Eff A) (k : A -> Eff B) (w : World)
    (line : console_line) :
  In line (console (snd (m w))) ->
  (forall a, growing (k a)) ->
  In line (console (snd (bindEff m k w))).
Proof.
  intros Hin Hk. unfold bindEff.
  destruct (m w) as [[a|e] w1]; cbn [snd] in *; [|exact Hin].
  destruct (Hk a w1) as (lines & ->). apply in_or_app. left. exact Hin.
Qed.

Lemma in_console_say {A : Type} (lines : list console_line) (k : Eff A)
    (w : World) (line : console_line) :
  growing k ->
  In line lines ->
  In line (console (snd (bindEff (say lines) (fun _ => k) w))).
Proof.
  intros Hk Hin. apply in_console_bind; [|intros _; exact Hk].
  cbn. apply in_or_app. right. exact Hin.
Qed.

Ltac growing :=
  repeat first [ apply growing_bind; [|intros ?] | solve [auto with growing] ].

Lemma growing_finishRun (now : string) (fs : FileSystem) (cfg : CVConfig)
    (foldResults : list FoldResult) :
  growing (finishRun now fs cfg foldResults).
Proof. unfold finishRun. growing. Qed.

Section RunProperties.

Variable Math_sin : Q -> Q.
Variable engine_sort :
  forall (A S : Type), (A -> A -> S -> Q * S) -> list A -> S -> list A * S.
Variable Features : Type.
Variable loadAndPreprocessData : outcome (list (Features * Q)).
Variable classifier :
  nat -> list Features -> list Q -> list Features -> outcome (list Q).
Variable now : string.
Variable fs : FileSystem.

(** The one assumption on the engine: whatever the comparator, its sort
    only rearranges the array, losing and duplicating nothing (the language
    leaves the order open when the comparator is not consistent). *)
Hypothesis engine_sort_rearranges :
  forall (A S : Type) (cmp : A -> A -> S -> Q * S) (arr : list A) (s : S),
    Permutation (fst (engine_sort cmp arr s)) arr.

Lemma growing_runFold (xs : list Features) (ys : list Q) (folds : list Fold)
    (foldIdx : nat) (testFold : Fold) :
  growing (runFold classifier xs ys folds foldIdx testFold).
Proof. unfold runFold, splitByIndices. growing. Qed.

Lemma growing_foldLoop (xs : list Features) (ys : list Q) (folds : list Fold)
    (todo : list Fold) :
  forall foldIdx done,
    growing (foldLoop classifier xs ys folds foldIdx todo done).
Proof.
  induction todo as [|testFold rest IH]; intros foldIdx done;
    cbn [foldLoop].
  - apply growing_ret.
  - apply growing_bind; [apply growing_runFold|]. intros metrics. apply IH.
Qed.

(** A run that loads its data and is configured with one fold or more
    enters the loop and logs the start of its first fold, with the sizes of
    the training and of the test set. *)
Lemma run_reaches_first_fold (cfg : CVConfig)
    (samples : list (Features * Q)) (w : World) :
  loadAndPreprocessData = Returned samples ->
  (1 <= nFolds cfg)%Z ->
  let folds :=
    stratifiedFolds Math_sin engine_sort cfg (map snd samples) (nFolds cfg) in
  exists testFold,
    nth_error folds 0 = Some testFold /\
    In (LogFoldStart 1 (length (trainIndicesOf folds 0))
          (length (indices testFold)))
       (console (snd (runCrossValidation Math_sin engine_sort
                        loadAndPreprocessData classifier now fs cfg w))).
Proof.
  intros Hload Hk folds.
  assert (Htry : exists testFold,
             nth_error folds 0 = Some testFold /\
             In (LogFoldStart 1 (length (trainIndicesOf folds 0))
                   (length (indices testFold)))
                (console (snd (tryBlock Math_sin engine_sort
                                 loadAndPreprocessData classifier now fs
                                 cfg w)))).
  { unfold tryBlock. rewrite Hload.
    unfold bindEff at 1, lift at 1. unfold bindEff at 1.
    rewrite createStratifiedFolds_run. fold folds.
    pose proof (stratifiedFolds_length Math_sin engine_sort cfg
                  (map snd samples) (nFolds cfg)) as Hlen.
    fold folds in Hlen. clearbody folds.
    destruct folds as [|testFold rest]; [cbn [length] in Hlen; lia|].
    exists testFold. split; [reflexivity|].
    cbn [foldLoop].
    apply in_console_bind; [|intros ?; apply growing_finishRun].
    apply in_console_bind; [|intros ?; apply growing_foldLoop].
    unfold runFold. apply in_console_say.
    - unfold splitByIndices. growing.
    - left. reflexivity. }
  destruct Htry as (testFold & Hnth & Hin).
  exists testFold. split; [exact Hnth|]. unfold runCrossValidation.
  destruct (tryBlock _ _ _ _ _ _ _ w) as [[report|e] w1]; cbn [snd] in *.
  - exact Hin.
  - cbn [console]. apply in_or_app. left. exact Hin.
Qed.

(** With a single fold the training set of that fold is empty: a run that
    loads its data trains on no sample and tests on all of them, and when
    the collaborators throw on the empty training set, the run ends in
    [process.exit(1)] with their error. *)
Lemma run_with_one_fold (cfg : CVConfig) (samples : list (Features * Q))
    (w : World) :
  loadAndPreprocessData = Returned samples ->
  nFolds cfg = 1%Z ->
  let run :=
    runCrossValidation Math_sin engine_sort loadAndPreprocessData classifier
      now fs cfg w in
  In (LogFoldStart 1 0 (length samples)) (console (snd run)) /\
  forall e,
    (forall xTest, classifier 0 [] [] xTest = Thrown e) ->
    fst run = ProcessExit 1 /\
    exists lines, console (snd run) = console w ++ lines ++ [LogFailed e].
Proof.
  intros Hload Hk run. subst run.
  pose proof (@stratifiedFolds_perm Math_sin engine_sort
                engine_sort_rearranges cfg (map snd samples) 1 ltac:(lia))
    as Hperm.
  pose proof (stratifiedFolds_length Math_sin engine_sort cfg
                (map snd samples) 1) as Hlen.
  split.
  - destruct (run_reaches_first_fold cfg w Hload ltac:(lia))
      as (testFold & Hnth & Hin).
    rewrite Hk in Hnth, Hin.
    destruct (stratifiedFolds Math_sin engine_sort cfg (map snd samples) 1)
      as [|fold [|? ?]];
      try discriminate Hlen.
    injection Hnth as <-.
    cbn [map concat] in Hperm. rewrite app_nil_r in Hperm.
    apply Permutation_length in Hperm.
    rewrite length_seq, length_map in Hperm. rewrite Hperm in Hin.
    change (length (trainIndicesOf [fold] 0)) with 0%nat in Hin.
    exact Hin.
  - intros e He.
    unfold runCrossValidation, tryBlock, bindEff, lift. rewrite Hload, Hk.
    rewrite createStratifiedFolds_run.
    destruct (stratifiedFolds Math_sin engine_sort cfg (map snd samples) 1)
      as [|fold [|? ?]];
      try discriminate Hlen.
    cbn [foldLoop]. unfold runFold, trainIndicesOf, splitByIndices.
    cbn [length seq combine flat_map Nat.eqb app gather].
    unfold bindEff, lift, say. rewrite He.
    cbn [fst snd console]. split; [reflexivity|].
    exists ((LogCreatingFolds 1 :: LogFoldsCreated :: foldSummaries [fold])
            ++ [LogFoldStart (0 + 1) 0 (length (indices fold))]).
    rewrite <- !app_assoc. reflexivity.
Qed.

(** C4, amended.  [createStratifiedFolds] checks nothing and never fails:
    for every label sequence and every integer [k] it returns normally,
    with [max(k, 0)] folds.  With [k = 1] the single fold holds every
    index.  When [k] exceeds the number of samples labelled 1 (of the
    other samples), every fold but the last gets a [positive]
    ([negative]) count of 0 and the last one gets them all.  Nothing is
    surfaced before the loop over the folds: a run that has loaded its data
    and is configured with one fold or more logs the start of its first
    fold, with the sizes of its training and test sets.  With a single fold
    these are 0 and the number of samples, and if the collaborators throw
    on the empty training set the run exits with code 1 and their error. *)
Theorem createStratifiedFolds_never_rejects
    (cfg : CVConfig) (labels : list Q) (k : Z) (w : World) :
  let positives := length (filter (fun l => Qeq_bool l 1) labels) in
  let others := length (filter (fun l => negb (Qeq_bool l 1)) labels) in
  (exists folds w',
      createStratifiedFolds Math_sin engine_sort cfg labels k w
        = (Returned folds, w') /\
      length folds = Z.to_nat k /\
      (k = 1%Z ->
       exists fold,
         folds = [fold] /\
         Permutation (indices fold) (seq 0 (length labels))) /\
      ((Z.of_nat positives < k)%Z ->
       forall i fold,
         nth_error folds i = Some fold ->
         positive fold = if (Z.of_nat i =? k - 1)%Z
                         then Z.of_nat positives else 0%Z) /\
      ((Z.of_nat others < k)%Z ->
       forall i fold,
         nth_error folds i = Some fold ->
         negative fold = if (Z.of_nat i =? k - 1)%Z
                         then Z.of_nat others else 0%Z)) /\
  (forall samples,
      loadAndPreprocessData = Returned samples ->
      (1 <= nFolds cfg)%Z ->
      let folds :=
        stratifiedFolds Math_sin engine_sort cfg (map snd samples)
          (nFolds cfg) in
      exists testFold,
        nth_error folds 0 = Some testFold /\
        In (LogFoldStart 1 (length (trainIndicesOf folds 0))
              (length (indices testFold)))
           (console (snd (runCrossValidation Math_sin engine_sort
                            loadAndPreprocessData classifier now fs cfg w))))
  /\
  (forall samples,
      loadAndPreprocessData = Returned samples ->
      nFolds cfg = 1%Z ->
      let run :=
        runCrossValidation Math_sin engine_sort loadAndPreprocessData
          classifier now fs cfg w in
      In (LogFoldStart 1 0 (length samples)) (console (snd run)) /\
      forall e,
        (forall xTest, classifier 0 [] [] xTest = Thrown e) ->
        fst run = ProcessExit 1 /\
        exists lines,
          console (snd run) = console w ++ lines ++ [LogFailed e]).
Proof.
  intros positives others. split; [|split].
  2:{ intros samples Hload Hk. exact (run_reaches_first_fold cfg w Hload Hk). }
  2:{ intros samples Hload Hk. exact (run_with_one_fold cfg w Hload Hk). }
  rewrite createStratifiedFolds_run. eexists. eexists.
  split; [reflexivity|].
  split; [apply stratifiedFolds_length|].
  destruct (groupIndices_lengths labels 0) as [Hp Hn].
  fold positives in Hp. fold others in Hn.
  split; [|split].
  - intros ->.
    pose proof (@stratifiedFolds_perm Math_sin engine_sort
                  engine_sort_rearranges cfg labels 1 ltac:(lia)) as Hperm.
    pose proof (stratifiedFolds_length Math_sin engine_sort cfg labels 1)
      as Hlen.
    destruct (stratifiedFolds Math_sin engine_sort cfg labels 1)
      as [|fold [|? ?]];
      try discriminate Hlen.
    exists fold. split; [reflexivity|].
    cbn [map concat] in Hperm. rewrite app_nil_r in Hperm. exact Hperm.
  - intros Hlt i fold Hnth.
    rewrite (stratifiedFolds_nth _ _ _ _ _ _ Hnth).
    rewrite positive_of_makeFold;
      rewrite (Permutation_length
                 (@shuffle_perm Math_sin engine_sort
                    engine_sort_rearranges _ _)), Hp;
      [reflexivity | exact Hlt].
  - intros Hlt i fold Hnth.
    rewrite (stratifiedFolds_nth _ _ _ _ _ _ Hnth).
    rewrite negative_of_makeFold;
      rewrite (Permutation_length
                 (@shuffle_perm Math_sin engine_sort
                    engine_sort_rearranges _ _)), Hn;
      [reflexivity | exact Hlt].
Qed.

(** C3, amended.  A fold whose test labels lack one of the two classes
    (all 0 or all 1) raises nothing: [evaluateFold] returns normally, with
    [NaN] as auc.  Whenever the run returns its report, the entry of every
    such fold in the report's fold results has [NaN] as auc, and the mean of
    auc in the aggregated results is [NaN] as well. *)
Theorem degenerate_fold_gives_NaN_auc
    (cfg : CVConfig) (samples : list (Features * Q)) (report : jsval)
    (w w' : World)
    (Hload : loadAndPreprocessData = Returned samples)
    (Hrun : runCrossValidation Math_sin engine_sort loadAndPreprocessData
              classifier now fs cfg w = (ReportReturned report, w')) :
  let ys := map snd samples in
  let folds := stratifiedFolds Math_sin engine_sort cfg ys (nFolds cfg) in
  (forall predictions labels,
      lacksAClass labels = true ->
      (length predictions <= length labels)%nat ->
      exists r, evaluateFold predictions labels = Returned r /\ auc r = NaN)
  /\
  exists foldResults,
    get "folds" report = Some (JArray (map foldResultObject foldResults)) /\
    length foldResults = length folds /\
    forall i testFold r,
      nth_error folds i = Some testFold ->
      nth_error foldResults i = Some r ->
      lacksAClass (gather ys (indices testFold)) = true ->
      get "auc" (foldResultObject r) = Some (JNumber NaN) /\
      exists aucEntry,
        option_map (get "auc") (get "aggregated" report)
          = Some (Some aucEntry) /\
        get "mean" aucEntry = Some (JNumber NaN).
Proof.
  intros ys folds. split.
  - intros predictions labels Hlack Hlen.
    destruct (evaluateFold_returns predictions labels Hlen)
      as (r & Hr & _).
    exists r. split; [exact Hr|].
    exact (evaluateFold_degenerate _ _ Hlack Hr).
  - apply runCrossValidation_inv in Hrun
      as (samples' & foldResults & aggregated & Hload' & Hlen & Hev
          & Hagg & -> & _).
    rewrite Hload in Hload'. injection Hload' as <-.
    exists foldResults. split; [reflexivity|]. split; [exact Hlen|].
    intros i testFold r Hfold Hr Hlack.
    destruct (Hev i testFold r Hfold Hr) as (predictions & _ & Heval).
    pose proof (evaluateFold_degenerate _ _ Hlack Heval) as Hnan.
    split; [cbn; rewrite Hnan; reflexivity|].
    eexists. split; [reflexivity|]. cbn.
    apply aggregate_inv in Hagg as [Hne Hstats].
    specialize (Hstats Auc).
    rewrite calculateStats_refines in Hstats by exact Hne.
    injection Hstats as <-. cbn [mean]. do 2 f_equal.
    apply arithmeticMean_NaN. rewrite <- Hnan.
    apply (in_map (getMetric Auc)). eapply nth_error_In. exact Hr.
Qed.

(** C9, amended.  The report of a run has exactly the fields [config],
    [timestamp], [folds] and [aggregated]: the configuration, the time
    stamp, the fold results in fold order (one per fold, the entry at each
    position being what [evaluateFold] returned for the predictions and the
    test labels of the fold at that position), and for each metric name an
    object with exactly the mean and the standard deviation that
    [calculateStats] computed over these results.  The raw per-fold values
    are not in it, and the stability verdict is a line on the console, not
    a field. *)
Theorem report_structure
    (cfg : CVConfig) (report : jsval) (w w' : World)
    (Hrun : runCrossValidation Math_sin engine_sort loadAndPreprocessData
              classifier now fs cfg w = (ReportReturned report, w')) :
  keys report = ["config"; "timestamp"; "folds"; "aggregated"]%string /\
  get "config" report = Some (configObject cfg) /\
  get "timestamp" report = Some (JString now) /\
  exists samples foldResults aggregated aggregatedObj,
    let ys := map snd samples in
    let folds := stratifiedFolds Math_sin engine_sort cfg ys (nFolds cfg) in
    loadAndPreprocessData = Returned samples /\
    get "folds" report = Some (JArray (map foldResultObject foldResults)) /\
    length foldResults = length folds /\
    (forall i testFold r,
        nth_error folds i = Some testFold ->
        nth_error foldResults i = Some r ->
        evaluates classifier (map fst samples) ys folds i testFold r) /\
    aggregate foldResults = Returned aggregated /\
    get "aggregated" report = Some aggregatedObj /\
    keys aggregatedObj = map metricName metrics /\
    (forall m,
        calculateStats foldResults m = Returned (statsOf aggregated m) /\
        get (metricName m) aggregatedObj =
          Some (JObject
                  [("mean", JNumber (mean (statsOf aggregated m)));
                   ("std", JRadical (std (statsOf aggregated m)))]%string)) /\
    In (verdictLine aggregated) (console w').
Proof.
  apply runCrossValidation_inv in Hrun
    as (samples & foldResults & aggregated & Hload & Hlen & Hev & Hagg & ->
        & Hcon).
  split; [reflexivity|]. split; [reflexivity|]. split; [reflexivity|].
  exists samples, foldResults, aggregated, (aggregatedObject aggregated).
  cbn zeta.
  split; [exact Hload|]. split; [reflexivity|]. split; [exact Hlen|].
  split; [exact Hev|]. split; [exact Hagg|]. split; [reflexivity|].
  split; [reflexivity|]. split.
  - intros m. split; [exact (proj2 (@aggregate_inv _ _ Hagg) m)|].
    destruct m; reflexivity.
  - destruct Hcon as (before & ->). apply in_or_app. right.
    right. left. reflexivity.
Qed.

End RunProperties.

(** ** Two concrete runs *)

(** C3, as stated: a run with a test fold without positives would fail
    with [DegenerateFoldError].  This one has such a first fold, returns its
    report, carries [NaN] as the auc of that fold, and logs no failure. *)
Lemma degenerate_fold_run_completes :
  (exists testFold rest,
      stratifiedFolds triangleWave (@insertionEngine) CV_CONFIG
        (map snd degenerateRows) (nFolds CV_CONFIG) = testFold :: rest /\
      lacksAClass (gather (map snd degenerateRows) (indices testFold))
        = true) /\
  exists report first others,
    fst degenerateRun = ReportReturned report /\
    get "folds" report = Some (JArray (first :: others)) /\
    get "auc" first = Some (JNumber NaN) /\
    forall e, ~ In (LogFailed e) (console (snd degenerateRun)).
Proof.
  split.
  - eexists. eexists. split; [vm_compute; reflexivity|]. reflexivity.
  - eexists. eexists. eexists. split; [vm_compute; reflexivity|].
    split; [reflexivity|]. split; [reflexivity|].
    intros e Hin. vm_compute in Hin.
    repeat (destruct Hin as [Hin | Hin]; [discriminate Hin|]).
    exact Hin.
Qed.

Lemma degenerate_fold_gives_NaN_auc_witness :
  exists foldResults,
    get "folds" (reportOf degenerateRun)
      = Some (JArray (map foldResultObject foldResults)) /\
    length foldResults = 5%nat.
Proof.
  destruct (@degenerate_fold_gives_NaN_auc triangleWave (@insertionEngine)
              (list Q) (Returned degenerateRows) constantClassifier
              "2024-01-01T00:00:00.000Z" acceptingFileSystem CV_CONFIG
              degenerateRows
              (reportOf degenerateRun) (mkWorld [] []) (snd degenerateRun))
    as (_ & foldResults & Hfolds & Hlen & _).
  - reflexivity.
  - vm_compute. reflexivity.
  - exists foldResults. split; [exact Hfolds|].
    rewrite Hlen. vm_compute. reflexivity.
Defined.

(** C9, as stated: the report would hold the raw per-fold values of each
    metric and a stability-verdict field.  The report of this run has
    neither. *)
Lemma report_lacks_values_and_verdict :
  exists report,
    fst balancedRun = ReportReturned report /\
    reportAsSpecified report = false /\
    keys report = ["config"; "timestamp"; "folds"; "aggregated"]%string /\
    option_map (fun aggregated =>
                  map (fun m => option_map keys
                                  (get (metricName m) aggregated)) metrics)
      (get "aggregated" report)
    = Some (map (fun _ => Some ["mean"; "std"]%string) metrics).
Proof.
  eexists. split; [vm_compute; reflexivity|].
  split; [reflexivity|]. split; reflexivity.
Qed.

Lemma report_structure_witness :
  keys (reportOf balancedRun)
    = ["config"; "timestamp"; "folds"; "aggregated"]%string /\
  get "timestamp" (reportOf balancedRun)
    = Some (JString "2024-01-01T00:00:00.000Z").
Proof.
  destruct (@report_structure triangleWave (@insertionEngine)
              (list Q) (Returned balancedRows) firstFeatureClassifier
              "2024-01-01T00:00:00.000Z" acceptingFileSystem CV_CONFIG
              (reportOf balancedRun) (mkWorld [] []) (snd balancedRun))
    as (Hkeys & _ & Hstamp & _).
  - vm_compute. reflexivity.
  - split; [exact Hkeys | exact Hstamp].
Defined.

Lemma createStratifiedFolds_never_rejects_witness :
  exists folds w',
    createStratifiedFolds triangleWave (@insertionEngine) CV_CONFIG
      [1; 0; 0; 0] 3 (mkWorld [] []) = (Returned folds, w') /\
    map positive folds = [0; 0; 1]%Z.
Proof.
  destruct (@createStratifiedFolds_never_rejects triangleWave
              (@insertionEngine) (list Q) (Returned degenerateRows)
              constantClassifier "2024-01-01T00:00:00.000Z"%string
              acceptingFileSystem insertionEngine_rearranges CV_CONFIG
              [1; 0; 0; 0] 3 (mkWorld [] []))
    as ((folds & w' & Hrun & _) & _ & _).
  exists folds, w'. split; [exact Hrun|].
  vm_compute in Hrun. injection Hrun as <- _. reflexivity.
Defined.

(** ** The sort of the pairs *)

Lemma insert_sorted (x : Pair) (sorted : list Pair) :
  StronglySorted notBelow sorted ->
  StronglySorted notBelow (insert byPredDescending x sorted).
Proof.
  induction 1 as [|y ys Hys IH Hy]; cbn [insert].
  - constructor; constructor.
  - unfold byPredDescending at 1.
    destruct (is_neg (pred y - pred x)) eqn:E.
    + apply is_neg_lt in E.
      constructor; [constructor; assumption|].
      constructor.
      * unfold notBelow. lra.
      * eapply Forall_impl; [|exact Hy].
        unfold notBelow. intros z Hz. lra.
    + constructor; [exact IH|].
      apply (Permutation_Forall (Permutation_sym (insert_perm _ x ys))).
      constructor; [|exact Hy].
      unfold notBelow.
      destruct (Qlt_le_dec (pred y - pred x) 0) as [Hlt | Hge]; [|lra].
      apply is_neg_lt in Hlt. congruence.
Qed.

Lemma filter_none {A : Type} (f : A -> bool) (l : list A) :
  Forall (fun a => f a = false) l -> filter f l = [].
Proof.
  induction 1 as [|a l Ha _ IH]; cbn [filter]; [reflexivity|].
  rewrite Ha. exact IH.
Qed.

Lemma insert_withScore (q : Q) (x : Pair) (sorted : list Pair) :
  StronglySorted notBelow sorted ->
  filter (withScore q) (insert byPredDescending x sorted) =
    filter (withScore q) sorted ++ (if withScore q x then [x] else []).
Proof.
  induction 1 as [|y ys Hys IH Hy]; cbn [insert].
  - cbn [filter app]. destruct (withScore q x); reflexivity.
  - unfold byPredDescending at 1.
    destruct (is_neg (pred y - pred x)) eqn:E.
    + apply is_neg_lt in E. cbn [filter].
      destruct (withScore q x) eqn:Hx; [|rewrite app_nil_r; reflexivity].
      assert (Hnone : filter (withScore q) (y :: ys) = []).
      { apply filter_none.
        unfold withScore in Hx. apply Qeq_bool_iff in Hx.
        assert (Hbelow : forall z, pred z < pred x -> withScore q z = false).
        { intros z Hz. unfold withScore.
          destruct (Qeq_bool (pred z) q) eqn:Hq; [|reflexivity].
          apply Qeq_bool_iff in Hq. lra. }
        constructor; [apply Hbelow; lra|].
        eapply Forall_impl; [|exact Hy].
        unfold notBelow. intros z Hz. apply Hbelow. lra. }
      cbn [filter] in Hnone. rewrite Hnone. reflexivity.
    + cbn [filter]. rewrite IH.
      destruct (withScore q y); reflexivity.
Qed.

(** The sort of [evaluateFold] is the stable sort in descending order of
    the score: it rearranges the pairs, puts them in descending order, and
    keeps pairs of equal score in their input order.  These three fix its
    result, whatever algorithm the engine runs. *)
Lemma sort_byPredDescending_stable (pairs : list Pair) :
  Permutation (sort byPredDescending pairs) pairs /\
  StronglySorted notBelow (sort byPredDescending pairs) /\
  forall q,
    filter (withScore q) (sort byPredDescending pairs)
      = filter (withScore q) pairs.
Proof.
  split; [apply sort_perm|].
  assert (H : forall acc,
             StronglySorted notBelow acc ->
             StronglySorted notBelow
               (fold_left (fun sorted x => insert byPredDescending x sorted)
                  pairs acc) /\
             forall q,
               filter (withScore q)
                 (fold_left (fun sorted x => insert byPredDescending x sorted)
                    pairs acc)
               = filter (withScore q) acc ++ filter (withScore q) pairs).
  { induction pairs as [|x rest IH]; intros acc Hacc; cbn [fold_left].
    - split; [exact Hacc|]. intros q. cbn [filter]. rewrite app_nil_r.
      reflexivity.
    - destruct (IH _ (insert_sorted x Hacc)) as [Hs Hf].
      split; [exact Hs|]. intros q.
      rewrite Hf, (insert_withScore q x Hacc), <- app_assoc.
      cbn [filter]. destruct (withScore q x); reflexivity. }
  destruct (H [] (SSorted_nil _)) as [Hs Hf].
  split; [exact Hs|]. intros q. unfold sort. rewrite (Hf q). reflexivity.
Qed.

(** ** What the rank sum counts *)

Lemma rankLoop_closed (pairs : list Pair) :
  forall i st,
    exists r,
      rankLoop pairs i st =
        mkRank (positives st + positivesIn pairs)
               (negatives st + (Z.of_nat (length pairs) - positivesIn pairs))
               (sumRanks st + positivesIn pairs * Z.of_nat i + r) /\
      (2 * r = positivesIn pairs * (positivesIn pairs + 1)
               + 2 * negativeFirst pairs)%Z.
Proof.
  induction pairs as [|p rest IH]; intros i st.
  - exists 0%Z. cbn. destruct st. cbn. split; [f_equal; lia | lia].
  - cbn [rankLoop positivesIn negativeFirst length].
    fold (isPositive p). destruct (isPositive p).
    + destruct (IH (S i) (mkRank (positives st + 1) (negatives st)
                            (sumRanks st + (Z.of_nat i + 1))))
        as (r & -> & Hr).
      cbn [positives negatives sumRanks].
      exists (1 + r + positivesIn rest)%Z. split; [f_equal; lia | nia].
    + destruct (IH (S i) (mkRank (positives st) (negatives st + 1)
                            (sumRanks st)))
        as (r & -> & Hr).
      cbn [positives negatives sumRanks].
      exists (r + positivesIn rest)%Z. split; [f_equal; lia | nia].
Qed.

Lemma aucOfRanks_counts (p n s m : Z) :
  (2 * s = p * (p + 1) + 2 * m)%Z ->
  aucOfRanks (mkRank p n s) = div (of_Z m) (of_Z (p * n)).
Proof.
  intros Hs. unfold aucOfRanks. cbn [positives negatives sumRanks].
  apply div_same; [|apply same_refl].
  replace (p * (p + 1))%Z with (2 * s + - (2 * m))%Z by lia.
  unfold sub, of_Z. cbn [div fin].
  change (is_zero (Qred (inject_Z 2))) with false.
  cbn [neg add fin same]. unfold fin. cbn [same].
  rewrite !Qred_correct.
  rewrite inject_Z_plus, inject_Z_opp, !inject_Z_mult.
  change (inject_Z 2) with 2. field.
Qed.

(** The auc of [evaluateFold] is the share, among all couples of a
    positive and a negative sample, of those in which the negative is
    ranked first, that is, in which the negative has the higher score, or
    the same score and the earlier place in the input. *)
Lemma auc_counts_negative_first (predictions labels : list Q) :
  (length predictions <= length labels)%nat ->
  let pairs :=
    sort byPredDescending
      (map (fun '(p, l) => mkPair p l) (combine predictions labels)) in
  exists r,
    evaluateFold predictions labels = Returned r /\
    auc r =
      div (of_Z (negativeFirst pairs))
          (of_Z (positivesIn pairs
                 * (Z.of_nat (length pairs) - positivesIn pairs))).
Proof.
  intros Hlen pairs.
  destruct (evaluateFold_returns predictions labels Hlen)
    as (r & Hr & _ & _ & Hauc).
  exists r. split; [exact Hr|]. rewrite Hauc. fold pairs.
  destruct (rankLoop_closed pairs 0 (mkRank 0 0 0)) as (s & -> & Hs).
  cbn [positives negatives sumRanks Z.add Z.of_nat].
  apply aucOfRanks_counts. lia.
Qed.

Lemma no_positive (pairs : list Pair) :
  (forall a, In a pairs -> isPositive a = false) -> positivesIn pairs = 0%Z.
Proof.
  induction pairs as [|p rest IH]; intros H; cbn [positivesIn]; [reflexivity|].
  rewrite (H p (or_introl eq_refl)), IH; [reflexivity|].
  intros a Ha. apply H. right. exact Ha.
Qed.

Lemma separated_sorted_negativeFirst (pairs : list Pair) :
  StronglySorted notBelow pairs -> separated pairs ->
  negativeFirst pairs = 0%Z.
Proof.
  induction 1 as [|p rest Hrest IH Hp]; intros Hsep; cbn [negativeFirst].
  - reflexivity.
  - assert (Hsep' : separated rest).
    { intros a b Ha Hb. apply Hsep; right; assumption. }
    rewrite (IH Hsep').
    destruct (isPositive p) eqn:Hpos; [reflexivity|].
    rewrite no_positive; [reflexivity|].
    intros a Ha. destruct (isPositive a) eqn:Hpa; [|reflexivity].
    exfalso. rewrite Forall_forall in Hp. specialize (Hp a Ha).
    unfold notBelow in Hp.
    assert (pred p < pred a)
      by (apply Hsep; [right; exact Ha | left; reflexivity | exact Hpa
                      | exact Hpos]).
    lra.
Qed.

(** On every fold in which the scores separate the classes perfectly,
    every positive scoring strictly above every negative, the rank sum
    counts no couple: the auc is 0, or [NaN] when the division is by 0. *)
Lemma perfect_separation_gives_auc_zero (predictions labels : list Q) :
  (length predictions <= length labels)%nat ->
  separated (map (fun '(p, l) => mkPair p l) (combine predictions labels)) ->
  exists r,
    evaluateFold predictions labels = Returned r /\
    (auc r = Fin 0 \/ auc r = NaN).
Proof.
  intros Hlen Hsep.
  destruct (auc_counts_negative_first predictions labels Hlen)
    as (r & Hr & Hauc).
  exists r. split; [exact Hr|]. rewrite Hauc.
  destruct (sort_byPredDescending_stable
              (map (fun '(p, l) => mkPair p l) (combine predictions labels)))
    as (Hperm & Hsorted & _).
  rewrite separated_sorted_negativeFirst; [|exact Hsorted|].
  - match goal with
    | |- context [of_Z (?a * ?b)] => generalize (a * b)%Z
    end.
    intros z. unfold of_Z, fin. cbn [div].
    change (is_zero (Qred (inject_Z 0))) with true.
    destruct (is_zero (Qred (inject_Z z))); [right; reflexivity|].
    left. change (Fin 0) with (fin 0). apply fin_eq.
    rewrite !Qred_correct. change (inject_Z 0) with 0. unfold Qdiv. ring.
  - intros a b Ha Hb. apply Hsep.
    + exact (Permutation_in _ Hperm Ha).
    + exact (Permutation_in _ Hperm Hb).
Qed.

(** ** The range of the metrics *)

Lemma tally_nonnegative (cm : ConfusionMatrix) (p : Z) (a : Q) :
  nonnegative cm -> nonnegative (tally cm p a).
Proof.
  unfold tally, nonnegative. destruct cm as [a1 a2 a3 a4]. cbn.
  repeat match goal with
         | |- context [if ?c then _ else _] => destruct c; cbn
         end; lia.
Qed.

Lemma countLoop_nonnegative (binary : list Z) :
  forall i labels cm cm',
    countLoop binary i labels cm = Returned cm' ->
    nonnegative cm -> nonnegative cm'.
Proof.
  induction binary as [|p rest IH]; intros i labels cm cm' H Hcm; cbn in H.
  - injection H as <-. exact Hcm.
  - destruct (nth_error labels i) as [a|]; [|discriminate].
    eapply IH; [exact H|]. now apply tally_nonnegative.
Qed.

Lemma is_zero_inject_Z (z : Z) : is_zero (Qred (inject_Z z)) = (z =? 0)%Z.
Proof.
  unfold is_zero. rewrite Qeq_bool_comm.
  destruct (Z.eqb_spec z 0) as [->|Hz]; [reflexivity|].
  apply not_true_is_false. intros H. apply Qeq_bool_iff in H.
  rewrite Qred_correct in H. unfold Qeq in H. cbn in H. lia.
Qed.

Lemma of_Z_div (a b : Z) :
  b <> 0%Z -> div (of_Z a) (of_Z b) = fin (inject_Z a / inject_Z b).
Proof.
  intros Hb. unfold of_Z, fin. cbn [div].
  rewrite is_zero_inject_Z. destruct (Z.eqb_spec b 0) as [|_]; [contradiction|].
  apply fin_eq. now rewrite !Qred_correct.
Qed.

Lemma unitInterval_fin (q : Q) : 0 <= q <= 1 -> unitInterval (fin q).
Proof.
  intros H. exists (Qred q). split; [reflexivity|].
  now rewrite Qred_correct.
Qed.

Lemma unitInterval_or_zero (x : number) :
  x = NaN \/ unitInterval x -> unitInterval (or_zero x).
Proof.
  assert (Hz : unitInterval zero) by (exists 0; split; [reflexivity|lra]).
  intros [->|[q [-> Hq]]]; cbn [or_zero]; [exact Hz|].
  destruct (is_zero q); [exact Hz|]. now exists q.
Qed.

Lemma ratio_in_unitInterval (a b : Z) :
  (0 <= a <= b)%Z ->
  div (of_Z a) (of_Z b) = NaN \/ unitInterval (div (of_Z a) (of_Z b)).
Proof.
  intros H. destruct (Z.eq_dec b 0) as [->|Hb].
  - assert (a = 0%Z) as -> by lia. left. reflexivity.
  - right. rewrite of_Z_div by exact Hb. apply unitInterval_fin.
    assert (0 < inject_Z b) by (unfold Qlt; cbn; lia).
    split.
    + apply Qle_shift_div_l; [assumption|]. rewrite Qmult_0_l.
      unfold Qle; cbn; lia.
    + apply Qle_shift_div_r; [assumption|]. rewrite Qmult_1_l.
      rewrite <- Zle_Qle. lia.
Qed.

Lemma harmonic_in_unitInterval (x y : number) :
  unitInterval x -> unitInterval y ->
  unitInterval (or_zero (div (mul (of_Z 2) (mul x y)) (add x y))).
Proof.
  intros [p [-> Hp]] [r [-> Hr]]. apply unitInterval_or_zero.
  unfold of_Z, fin. cbn [mul add div fin].
  unfold fin.
  destruct (is_zero (Qred (p + r))) eqn:Hden.
  - left. apply Qeq_bool_iff in Hden. rewrite Qred_correct in Hden.
    assert (Hp0 : p == 0) by (apply Qle_antisym; lra).
    assert (Hn : is_zero (Qred (Qred (inject_Z 2) * Qred (p * r))) = true).
    { apply Qeq_bool_iff. rewrite !Qred_correct. rewrite Hp0. ring. }
    now rewrite Hn.
  - right. apply unitInterval_fin.
    assert (Hpos : 0 < Qred (p + r)).
    { rewrite Qred_correct.
      assert (~ p + r == 0).
      { intros E. rewrite <- (Qred_correct (p + r)) in E.
        apply Qeq_bool_iff in E. unfold is_zero in Hden. congruence. }
      lra. }
    split.
    + apply Qle_shift_div_l; [assumption|]. rewrite Qmult_0_l.
      rewrite !Qred_correct.
      setoid_replace (inject_Z 2) with 2 by reflexivity. nra.
    + apply Qle_shift_div_r; [assumption|]. rewrite Qmult_1_l.
      rewrite !Qred_correct.
      setoid_replace (inject_Z 2) with 2 by reflexivity. nra.
Qed.

Lemma guarded_metric_in_unitInterval
    (predictions labels : list Q) (r : FoldResult) (m : metric) :
  evaluateFold predictions labels = Returned r ->
  guarded m = true ->
  unitInterval (getMetric m r).
Proof.
  intros Hr Hm. unfold evaluateFold in Hr.
  destruct (countLoop (map binarize predictions) 0 labels (mkCM 0 0 0 0))
    as [cm|e] eqn:Hcm; [|discriminate].
  cbn [JS.bind] in Hr.
  destruct (makePairs predictions 0 labels) as [ps|e]; [|discriminate].
  cbn [JS.bind] in Hr.
  apply (f_equal (fun o => match o with Returned a => a | Thrown _ => r end))
    in Hr.
  subst r.
  assert (Hnn : nonnegative cm).
  { eapply countLoop_nonnegative; [exact Hcm|]. unfold nonnegative. cbn. lia. }
  destruct Hnn as (Htp & Hfp & Htn & Hfn).
  assert (Hp : unitInterval
                 (or_zero (div (of_Z (tp cm)) (of_Z (tp cm + fp cm))))).
  { apply unitInterval_or_zero, ratio_in_unitInterval. lia. }
  assert (Hrec : unitInterval
                   (or_zero (div (of_Z (tp cm)) (of_Z (tp cm + fn cm))))).
  { apply unitInterval_or_zero, ratio_in_unitInterval. lia. }
  destruct m; try discriminate Hm;
    cbn [getMetric precision recall f1 specificity].
  - exact Hp.
  - exact Hrec.
  - now apply harmonic_in_unitInterval.
  - apply unitInterval_or_zero, ratio_in_unitInterval. lia.
Qed.

(** X1.  Whatever the predictions and the labels, the precision, the
    recall, the f1 score and the specificity that [evaluateFold] returns
    are finite numbers between 0 and 1 (0 standing in for an undefined
    ratio), and so is the accuracy unless no sample was counted, in which
    case, and only then, it is [NaN]. *)
Theorem evaluateFold_metrics_in_unit_interval
    (predictions labels : list Q) (r : FoldResult)
    (Hr : evaluateFold predictions labels = Returned r) :
  unitInterval (precision r) /\ unitInterval (recall r) /\
  unitInterval (f1 r) /\ unitInterval (specificity r) /\
  (accuracy r = NaN <-> total (confusionMatrix r) = 0%Z) /\
  (total (confusionMatrix r) <> 0%Z -> unitInterval (accuracy r)).
Proof.
  split; [exact (guarded_metric_in_unitInterval _ _ Precision Hr eq_refl)|].
  split; [exact (guarded_metric_in_unitInterval _ _ Recall Hr eq_refl)|].
  split; [exact (guarded_metric_in_unitInterval _ _ F1 Hr eq_refl)|].
  split;
    [exact (guarded_metric_in_unitInterval _ _ Specificity Hr eq_refl)|].
  unfold evaluateFold in Hr.
  destruct (countLoop (map binarize predictions) 0 labels (mkCM 0 0 0 0))
    as [cm|e] eqn:Hcm; [|discriminate].
  cbn [JS.bind] in Hr.
  destruct (makePairs predictions 0 labels) as [ps|e]; [|discriminate].
  cbn [JS.bind] in Hr.
  apply (f_equal (fun o => match o with Returned a => a | Thrown _ => r end))
    in Hr.
  subst r. cbn [accuracy confusionMatrix].
  assert (Hnn : nonnegative cm).
  { eapply countLoop_nonnegative; [exact Hcm|]. unfold nonnegative. cbn. lia. }
  destruct Hnn as (Htp & Hfp & Htn & Hfn).
  split; [split|].
  - intros Hacc. unfold total.
    destruct (Z.eq_dec (tp cm + tn cm + fp cm + fn cm) 0) as [E|E]; [lia|].
    rewrite of_Z_div in Hacc by exact E. discriminate.
  - unfold total. intros E.
    replace (tp cm + tn cm + fp cm + fn cm)%Z with 0%Z by lia.
    replace (tp cm + tn cm)%Z with 0%Z by lia. reflexivity.
  - unfold total. intros E.
    destruct (@ratio_in_unitInterval (tp cm + tn cm)
                (tp cm + tn cm + fp cm + fn cm)) as [H|H]; [lia| |exact H].
    rewrite of_Z_div in H by lia. discriminate.
Qed.

Lemma evaluateFold_metrics_in_unit_interval_witness :
  exists r,
    evaluateFold [9 # 10; 2 # 10; 7 # 10; 1 # 10] [1; 1; 0; 0] = Returned r /\
    precision r = Fin (1 # 2) /\ f1 r = Fin (1 # 2) /\
    unitInterval (f1 r) /\ unitInterval (accuracy r).
Proof.
  eexists. split; [reflexivity|].
  split; [reflexivity|]. split; [reflexivity|].
  pose proof (@evaluateFold_metrics_in_unit_interval
                [9 # 10; 2 # 10; 7 # 10; 1 # 10] [1; 1; 0; 0] _ eq_refl)
    as (_ & _ & Hf1 & _ & _ & Hacc).
  split; [exact Hf1|]. apply Hacc. vm_compute. discriminate.
Defined.

Lemma positivesIn_labels (pairs : list Pair) :
  positivesIn pairs = countOnes (map label pairs).
Proof.
  unfold countOnes.
  induction pairs as [|p rest IH]; [reflexivity|].
  cbn [positivesIn map filter]. unfold isPositive at 1.
  destruct (Qeq_bool (label p) 1); cbn [length]; lia.
Qed.

Lemma countOnes_perm (l l' : list Q) :
  Permutation l l' -> countOnes l = countOnes l'.
Proof.
  intros H. unfold countOnes. f_equal. apply Permutation_length.
  induction H; cbn [filter].
  - constructor.
  - destruct (Qeq_bool x 1); [now constructor|assumption].
  - destruct (Qeq_bool x 1), (Qeq_bool y 1);
      try apply perm_swap; apply Permutation_refl.
  - eapply Permutation_trans; eassumption.
Qed.

Lemma negativeFirst_bounds (pairs : list Pair) :
  (0 <= positivesIn pairs <= Z.of_nat (length pairs))%Z /\
  (0 <= negativeFirst pairs
   <= positivesIn pairs * (Z.of_nat (length pairs) - positivesIn pairs))%Z.
Proof.
  induction pairs as [|p rest [IHp IHn]]; [cbn; lia|].
  cbn [positivesIn negativeFirst length]. rewrite Nat2Z.inj_succ.
  destruct (isPositive p); nia.
Qed.

Lemma labels_of_pairs (predictions labels : list Q) :
  (length predictions <= length labels)%nat ->
  map label (map (fun '(p, l) => mkPair p l) (combine predictions labels))
    = firstn (length predictions) labels.
Proof.
  revert labels. induction predictions as [|p rest IH]; intros [|l labels] H;
    cbn in H |- *; try reflexivity; try lia.
  f_equal. apply IH. lia.
Qed.

Lemma evaluateFold_returned_length (predictions labels : list Q)
    (r : FoldResult) :
  evaluateFold predictions labels = Returned r ->
  (length predictions <= length labels)%nat.
Proof.
  intros H. destruct (le_lt_dec (length predictions) (length labels)) as [|Hlt];
    [assumption|].
  rewrite (evaluateFold_throws _ _ Hlt) in H. discriminate.
Qed.

(** X2.  The [auc] that [evaluateFold] returns is [NaN] exactly when the
    evaluated labels hold no label [=== 1] or nothing but labels [=== 1]
    (the division 0/0), and a finite number between 0 and 1 in every other
    case. *)
Theorem evaluateFold_auc_in_unit_interval
    (predictions labels : list Q) (r : FoldResult)
    (Hr : evaluateFold predictions labels = Returned r) :
  let ones := countOnes (firstn (length predictions) labels) in
  let others := (Z.of_nat (length predictions) - ones)%Z in
  (0 <= ones)%Z /\ (0 <= others)%Z /\
  (auc r = NaN <-> ones = 0%Z \/ others = 0%Z) /\
  (auc r <> NaN -> unitInterval (auc r)).
Proof.
  intros ones others.
  pose proof (evaluateFold_returned_length _ _ Hr) as Hlen.
  destruct (auc_counts_negative_first _ _ Hlen) as (r' & Hr' & Hauc).
  assert (r' = r) as -> by congruence.
  set (pairs := sort byPredDescending
                  (map (fun '(p, l) => mkPair p l)
                     (combine predictions labels))) in *.
  assert (Hones : positivesIn pairs = ones).
  { rewrite positivesIn_labels. unfold ones, pairs.
    rewrite <- (labels_of_pairs _ _ Hlen).
    apply countOnes_perm, Permutation_map, sort_perm. }
  assert (Hn : length pairs = length predictions).
  { unfold pairs. rewrite (Permutation_length (sort_perm _ _)).
    rewrite length_map, length_combine. lia. }
  destruct (negativeFirst_bounds pairs) as [Hp Hnf].
  rewrite Hones, Hn in *. fold others in Hauc, Hnf.
  split; [lia|]. split; [unfold others; lia|].
  destruct (Z.eq_dec (ones * others) 0) as [E|E].
  - assert (Hz : negativeFirst pairs = 0%Z) by lia.
    rewrite Hz, E in Hauc.
    assert (HNaN : auc r = NaN) by (rewrite Hauc; reflexivity).
    split; [split; [lia|intros _; exact HNaN]|].
    intros H. contradiction.
  - assert (Hu : unitInterval (auc r)).
    { rewrite Hauc.
      destruct (@ratio_in_unitInterval (negativeFirst pairs) (ones * others))
        as [H|H]; [lia| |exact H].
      rewrite of_Z_div in H by exact E. discriminate. }
    split; [|intros _; exact Hu].
    split.
    + intros H. destruct Hu as (q & Hq & _). congruence.
    + intros [H|H]; rewrite H in E; lia.
Qed.

Lemma evaluateFold_auc_in_unit_interval_witness :
  exists r,
    evaluateFold [9 # 10; 3 # 10; 6 # 10; 3 # 10] [1; 0; 0; 1] = Returned r /\
    auc r = Fin (1 # 2) /\ unitInterval (auc r).
Proof.
  eexists. split; [reflexivity|]. split; [reflexivity|].
  apply (@evaluateFold_auc_in_unit_interval
           [9 # 10; 3 # 10; 6 # 10; 3 # 10] [1; 0; 0; 1] _ eq_refl).
  vm_compute. discriminate.
Defined.

(** ** When the evaluation returns *)

Lemma countLoop_firstn (binary : list Z) :
  forall (i : nat) (labels : list Q) (cm : ConfusionMatrix),
    countLoop binary i (firstn (i + length binary) labels) cm
      = countLoop binary i labels cm.
Proof.
  induction binary as [|p rest IH]; intros i labels cm; [reflexivity|].
  cbn [countLoop length]. rewrite nth_error_firstn.
  destruct (Nat.ltb_spec i (i + S (length rest))) as [_|H]; [|lia].
  destruct (nth_error labels i) as [a|]; [|reflexivity].
  replace (i + S (length rest))%nat with (S i + length rest)%nat by lia.
  apply IH.
Qed.

Lemma makePairs_firstn (predictions : list Q) :
  forall (i : nat) (labels : list Q),
    makePairs predictions i (firstn (i + length predictions) labels)
      = makePairs predictions i labels.
Proof.
  induction predictions as [|p rest IH]; intros i labels; [reflexivity|].
  cbn [makePairs length]. rewrite nth_error_firstn.
  destruct (Nat.ltb_spec i (i + S (length rest))) as [_|H]; [|lia].
  destruct (nth_error labels i) as [a|]; [|reflexivity].
  replace (i + S (length rest))%nat with (S i + length rest)%nat by lia.
  now rewrite IH.
Qed.

(** X3.  [evaluateFold] returns exactly when every prediction has a
    label; with fewer labels than predictions it throws a [TypeError]
    (reading [labels[i][0]] past the end), and labels beyond the last
    prediction are never read: they do not change the result. *)
Theorem evaluateFold_returns_iff (predictions labels : list Q) :
  ((exists r, evaluateFold predictions labels = Returned r)
   <-> (length predictions <= length labels)%nat) /\
  (~ (length predictions <= length labels)%nat
   <-> evaluateFold predictions labels = Thrown TypeError) /\
  evaluateFold predictions (firstn (length predictions) labels)
    = evaluateFold predictions labels.
Proof.
  split; [split|split; [split|]].
  - intros [r Hr]. exact (evaluateFold_returned_length _ _ Hr).
  - intros Hlen. destruct (evaluateFold_returns _ _ Hlen) as (r & Hr & _).
    now exists r.
  - intros Hlen. apply evaluateFold_throws. lia.
  - intros H Hlen. destruct (evaluateFold_returns _ _ Hlen) as (r & Hr & _).
    congruence.
  - unfold evaluateFold.
    pose proof (countLoop_firstn (map binarize predictions) 0 labels
                  (mkCM 0 0 0 0)) as Hc.
    rewrite length_map in Hc. cbn [plus] in Hc. rewrite Hc.
    pose proof (makePairs_firstn predictions 0 labels) as Hp.
    cbn [plus] in Hp. rewrite Hp. reflexivity.
Qed.

(** X4.  On every fold in which the scores separate the classes
    perfectly, every positive scoring strictly above every negative, the
    auc that [evaluateFold] returns is 0 as soon as the evaluated labels
    hold both a label [=== 1] and another one, where the area under the
    ROC curve is 1; it is [NaN] when they hold only one of the two. *)
Theorem separated_classes_give_auc_zero (predictions labels : list Q)
    (Hlen : (length predictions <= length labels)%nat)
    (Hsep : separated
              (map (fun '(p, l) => mkPair p l)
                 (combine predictions labels))) :
  let ones := countOnes (firstn (length predictions) labels) in
  let others := (Z.of_nat (length predictions) - ones)%Z in
  exists r,
    evaluateFold predictions labels = Returned r /\
    auc r = if ((0 <? ones) && (0 <? others))%Z then Fin 0 else NaN.
Proof.
  intros ones others.
  destruct (auc_counts_negative_first _ _ Hlen) as (r & Hr & Hauc).
  exists r. split; [exact Hr|].
  set (pairs := sort byPredDescending
                  (map (fun '(p, l) => mkPair p l)
                     (combine predictions labels))) in *.
  assert (Hones : positivesIn pairs = ones).
  { rewrite positivesIn_labels. unfold ones, pairs.
    rewrite <- (labels_of_pairs _ _ Hlen).
    apply countOnes_perm, Permutation_map, sort_perm. }
  assert (Hn : length pairs = length predictions).
  { unfold pairs. rewrite (Permutation_length (sort_perm _ _)).
    rewrite length_map, length_combine. lia. }
  destruct (negativeFirst_bounds pairs) as [Hp _].
  assert (Hz : negativeFirst pairs = 0%Z).
  { destruct (sort_byPredDescending_stable
                (map (fun '(p, l) => mkPair p l)
                   (combine predictions labels)))
      as (Hperm & Hsorted & _).
    apply separated_sorted_negativeFirst; [exact Hsorted|].
    intros a b Ha Hb. apply Hsep.
    - exact (Permutation_in _ Hperm Ha).
    - exact (Permutation_in _ Hperm Hb). }
  rewrite Hauc, Hz, Hones, Hn in *. fold others. fold others in Hp.
  destruct (Z.ltb_spec 0 ones) as [H1|H1];
    destruct (Z.ltb_spec 0 others) as [H2|H2]; cbn [andb].
  - rewrite of_Z_div by nia. change (Fin 0) with (fin 0). apply fin_eq.
    change (inject_Z 0) with 0. unfold Qdiv. ring.
  - replace (ones * others)%Z with 0%Z by nia. reflexivity.
  - replace (ones * others)%Z with 0%Z by nia. reflexivity.
  - replace (ones * others)%Z with 0%Z by nia. reflexivity.
Qed.

Lemma separated_classes_give_auc_zero_witness :
  exists r,
    evaluateFold [9 # 10; 3 # 10; 7 # 10; 1 # 10; 6 # 10] [1; 0; 1; 0; 1]
      = Returned r /\
    auc r = Fin 0.
Proof.
  apply (@separated_classes_give_auc_zero
           [9 # 10; 3 # 10; 7 # 10; 1 # 10; 6 # 10] [1; 0; 1; 0; 1]).
  - cbn. lia.
  - intros a b Ha Hb Hpa Hpb. cbn in Ha, Hb.
    repeat match goal with
           | H : _ \/ _ |- _ => destruct H as [H|H]
           | H : False |- _ => contradiction
           end; subst; try discriminate; reflexivity.
Defined.

(** ** The order of the samples *)

Lemma tally_commutes (cm : ConfusionMatrix) (p p' : Z) (a a' : Q) :
  tally (tally cm p a) p' a' = tally (tally cm p' a') p a.
Proof.
  assert (Hsum : forall cm p a,
             tally cm p a =
               mkCM (tp cm + Z.b2z ((p =? 1)%Z && Qeq_bool a 1))
                    (fp cm + Z.b2z ((p =? 1)%Z && Qeq_bool a 0))
                    (tn cm + Z.b2z ((p =? 0)%Z && Qeq_bool a 0))
                    (fn cm + Z.b2z ((p =? 0)%Z && Qeq_bool a 1))).
  { intros [c1 c2 c3 c4] q b. unfold tally. cbn [tp fp tn fn].
    destruct ((q =? 1)%Z && Qeq_bool b 1), ((q =? 1)%Z && Qeq_bool b 0),
      ((q =? 0)%Z && Qeq_bool b 0), ((q =? 0)%Z && Qeq_bool b 1);
      cbn [tp fp tn fn Z.b2z]; f_equal; lia. }
  rewrite !Hsum. cbn [tp fp tn fn]. f_equal; lia.
Qed.

Lemma fold_left_perm {A B : Type} (f : A -> B -> A) (l l' : list B) :
  (forall a x y, f (f a x) y = f (f a y) x) ->
  Permutation l l' -> forall a, fold_left f l a = fold_left f l' a.
Proof.
  intros Hf H. induction H; intros a; cbn [fold_left].
  - reflexivity.
  - apply IHPermutation.
  - now rewrite Hf.
  - now rewrite IHPermutation1.
Qed.

Lemma countLoop_samples (samples : list (Q * Q)) :
  forall (before : list Q) (cm : ConfusionMatrix),
    countLoop (map binarize (map fst samples)) (length before)
      (before ++ map snd samples) cm
    = Returned (fold_left tallySample samples cm).
Proof.
  induction samples as [|[p l] rest IH]; intros before cm; [reflexivity|].
  cbn [map countLoop fold_left fst snd].
  rewrite nth_error_app2, Nat.sub_diag by lia. cbn [nth_error].
  specialize (IH (before ++ [l]) (tally cm (binarize p) l)).
  rewrite length_app, <- app_assoc in IH. cbn [length app] in IH.
  rewrite Nat.add_1_r in IH. exact IH.
Qed.

Lemma makePairs_samples (samples : list (Q * Q)) :
  makePairs (map fst samples) 0 (map snd samples)
    = Returned (map toPair samples).
Proof.
  rewrite makePairs_returns by (rewrite !length_map; lia).
  cbn [skipn]. f_equal.
  induction samples as [|[p l] rest IH]; [reflexivity|].
  cbn [map combine fst snd]. now rewrite IH.
Qed.

Lemma distinctScores_injective (samples : list (Q * Q)) :
  distinctScores (map fst samples) ->
  forall a b,
    In a (map toPair samples) -> In b (map toPair samples) ->
    pred a == pred b -> a = b.
Proof.
  unfold distinctScores.
  induction samples as [|s rest IH]; intros H a b Ha Hb E; [contradiction|].
  cbn [map] in H. inversion H as [|x l Hx Hrest]; subst.
  rewrite Forall_forall in Hx.
  assert (Hin : forall c, In c (map toPair rest) ->
                          In (pred c) (map fst rest)).
  { intros c Hc. apply in_map_iff in Hc as (s' & <- & Hs').
    apply in_map_iff. now exists s'. }
  destruct Ha as [<-|Ha], Hb as [<-|Hb].
  - reflexivity.
  - exfalso. apply (Hx _ (Hin _ Hb)). exact E.
  - exfalso. apply (Hx _ (Hin _ Ha)). symmetry. exact E.
  - now apply IH.
Qed.

Lemma sorted_perm_unique (l : list Pair) :
  forall l',
    StronglySorted notBelow l -> StronglySorted notBelow l' ->
    Permutation l l' ->
    (forall a b, In a l -> In b l -> pred a == pred b -> a = b) ->
    l = l'.
Proof.
  induction l as [|a t IH]; intros l' Hs Hs' Hp Hinj.
  - apply Permutation_nil in Hp. now subst.
  - destruct l' as [|b t'];
      [apply Permutation_sym, Permutation_nil in Hp; discriminate|].
    apply StronglySorted_inv in Hs as [Hst Ha].
    apply StronglySorted_inv in Hs' as [Hst' Hb].
    rewrite Forall_forall in Ha, Hb.
    assert (Eab : a = b).
    { assert (Hbin : In b (a :: t))
        by (apply (Permutation_in _ (Permutation_sym Hp)); now left).
      assert (Hain : In a (b :: t'))
        by (apply (Permutation_in _ Hp); now left).
      destruct Hbin as [E|Hbt]; [exact E|].
      destruct Hain as [E|Hat']; [now symmetry|].
      apply Hinj; [now left|now right|].
      apply Qle_antisym; [exact (Hb _ Hat')|exact (Ha _ Hbt)]. }
    subst b. f_equal. apply IH; [exact Hst|exact Hst'| |].
    + exact (Permutation_cons_inv Hp).
    + intros x y Hx Hy. apply Hinj; now right.
Qed.

(** X5.  When no two scores are equal, [evaluateFold] does not depend on
    the order of the samples: on every rearrangement of the test fold,
    predictions and labels together, it returns the same result, all
    metrics and the auc included.  (With ties it may not: tied samples
    are ranked in the order they arrive.) *)
Theorem evaluateFold_ignores_the_order_without_ties
    (samples samples' : list (Q * Q))
    (Hperm : Permutation samples samples')
    (Hdistinct : distinctScores (map fst samples)) :
  evaluateFold (map fst samples') (map snd samples')
    = evaluateFold (map fst samples) (map snd samples).
Proof.
  unfold evaluateFold.
  pose proof (countLoop_samples samples' [] (mkCM 0 0 0 0)) as Hc'.
  pose proof (countLoop_samples samples [] (mkCM 0 0 0 0)) as Hc.
  cbn [length app] in Hc, Hc'. rewrite Hc, Hc'.
  rewrite !makePairs_samples. cbn [JS.bind].
  assert (Ecm : fold_left tallySample samples' (mkCM 0 0 0 0)
                = fold_left tallySample samples (mkCM 0 0 0 0)).
  { symmetry. apply fold_left_perm; [|exact Hperm].
    intros cm x y. apply tally_commutes. }
  assert (Esort : sort byPredDescending (map toPair samples')
                  = sort byPredDescending (map toPair samples)).
  { symmetry.
    destruct (sort_byPredDescending_stable (map toPair samples))
      as (P1 & S1 & _).
    destruct (sort_byPredDescending_stable (map toPair samples'))
      as (P2 & S2 & _).
    apply sorted_perm_unique; [exact S1|exact S2| |].
    - eapply Permutation_trans; [exact P1|].
      eapply Permutation_trans; [|apply Permutation_sym; exact P2].
      now apply Permutation_map.
    - intros a b Ha Hb.
      apply (distinctScores_injective samples Hdistinct);
        [exact (Permutation_in _ P1 Ha)|exact (Permutation_in _ P1 Hb)]. }
  rewrite Ecm, Esort. reflexivity.
Qed.

Lemma evaluateFold_ignores_the_order_without_ties_witness :
  evaluateFold [3 # 10; 9 # 10; 6 # 10; 1 # 10] [0; 1; 0; 1]
  = evaluateFold [9 # 10; 3 # 10; 1 # 10; 6 # 10] [1; 0; 1; 0].
Proof.
  apply (@evaluateFold_ignores_the_order_without_ties
           [(9 # 10, 1); (3 # 10, 0); (1 # 10, 1); (6 # 10, 0)]
           [(3 # 10, 0); (9 # 10, 1); (6 # 10, 0); (1 # 10, 1)]).
  - apply perm_trans with
      [(3 # 10, 0); (9 # 10, 1); (1 # 10, 1); (6 # 10, 0)];
      [apply perm_swap|].
    do 2 apply perm_skip. apply perm_swap.
  - unfold distinctScores. cbn [map fst].
    repeat constructor; intros H; discriminate H.
Defined.

(** ** Train and test indices *)

Lemma trainIndicesOf_above (folds : list Fold) (foldIdx start : nat) :
  (foldIdx < start)%nat ->
  flat_map (fun '(i, f) => if Nat.eqb i foldIdx then [] else indices f)
           (combine (seq start (length folds)) folds)
    = concat (map indices folds).
Proof.
  revert start. induction folds as [|f rest IH]; intros start H;
    [reflexivity|].
  cbn [length seq combine flat_map map concat].
  destruct (Nat.eqb_spec start foldIdx) as [E|_]; [lia|].
  f_equal. apply IH. lia.
Qed.

Lemma trainIndicesOf_from (folds : list Fold) :
  forall (start offset : nat) (testFold : Fold),
    nth_error folds offset = Some testFold ->
    Permutation
      (flat_map (fun '(i, f) =>
                   if Nat.eqb i (start + offset) then [] else indices f)
                (combine (seq start (length folds)) folds)
         ++ indices testFold)
      (concat (map indices folds)).
Proof.
  induction folds as [|f rest IH]; intros start [|offset] testFold H;
    cbn in H; try discriminate.
  - injection H as ->.
    cbn [length seq combine flat_map map concat].
    rewrite Nat.add_0_r, Nat.eqb_refl. cbn [app].
    rewrite trainIndicesOf_above by lia.
    apply Permutation_app_comm.
  - cbn [length seq combine flat_map map concat].
    destruct (Nat.eqb_spec start (start + S offset)) as [E|_]; [lia|].
    rewrite <- app_assoc. apply Permutation_app_head.
    replace (start + S offset)%nat with (S start + offset)%nat by lia.
    now apply IH.
Qed.

Lemma trainIndicesOf_split (folds : list Fold) (foldIdx : nat)
    (testFold : Fold) :
  nth_error folds foldIdx = Some testFold ->
  Permutation (trainIndicesOf folds foldIdx ++ indices testFold)
              (concat (map indices folds)).
Proof. intros H. exact (trainIndicesOf_from folds 0 foldIdx H). Qed.

Lemma gather_length {A : Type} (arr : list A) (idxs : list nat) :
  Forall (fun i => (i < length arr)%nat) idxs ->
  length (gather arr idxs) = length idxs.
Proof.
  induction 1 as [|i rest Hi _ IH]; [reflexivity|].
  unfold gather in *. cbn [flat_map]. rewrite length_app, IH.
  apply nth_error_Some in Hi.
  destruct (nth_error arr i); [reflexivity|contradiction].
Qed.

Section Splits.

Variable Math_sin : Q -> Q.
Variable engine_sort :
  forall (A S : Type), (A -> A -> S -> Q * S) -> list A -> S -> list A * S.

Hypothesis engine_sort_rearranges :
  forall (A S : Type) (cmp : A -> A -> S -> Q * S) (arr : list A) (s : S),
    Permutation (fst (engine_sort cmp arr s)) arr.

(** X6.  For [k >= 1], in every turn of the loop of [runCrossValidation]
    the train indices and the test indices of the fold are disjoint and
    together are the positions [0 .. n-1] of the samples, each once: no
    test sample is trained on, none is left out, and every index is a
    position of the data, so that [splitByIndices] finds a row for each. *)
Theorem train_and_test_indices_split
    (cfg : CVConfig) (labels : list Q) (k : Z) (w : World)
    (folds : list Fold) (foldIdx : nat) (testFold : Fold)
    (Hk : (1 <= k)%Z)
    (Hfolds : fst (createStratifiedFolds Math_sin engine_sort cfg labels k w)
              = Returned folds)
    (Hfold : nth_error folds foldIdx = Some testFold) :
  let testIndices := indices testFold in
  let trainIndices := trainIndicesOf folds foldIdx in
  Permutation (trainIndices ++ testIndices) (seq 0 (length labels)) /\
  (forall i, In i testIndices -> ~ In i trainIndices) /\
  (length trainIndices + length testIndices = length labels)%nat /\
  length (gather labels trainIndices) = length trainIndices /\
  length (gather labels testIndices) = length testIndices.
Proof.
  intros testIndices trainIndices.
  rewrite (createStratifiedFolds_run Math_sin engine_sort) in Hfolds.
  cbn [fst] in Hfolds.
  assert (folds = stratifiedFolds Math_sin engine_sort cfg labels k)
    as Efolds by congruence.
  assert (Hperm : Permutation (trainIndices ++ testIndices)
                    (seq 0 (length labels))).
  { eapply Permutation_trans; [exact (trainIndicesOf_split _ _ Hfold)|].
    rewrite Efolds.
    now apply (@stratifiedFolds_perm Math_sin engine_sort
                 engine_sort_rearranges). }
  assert (Hnodup : NoDup (trainIndices ++ testIndices)).
  { eapply Permutation_NoDup; [apply Permutation_sym; exact Hperm|].
    apply seq_NoDup. }
  assert (Hrange : Forall (fun i => (i < length labels)%nat)
                     (trainIndices ++ testIndices)).
  { apply Forall_forall. intros i Hi.
    apply (Permutation_in _ Hperm), in_seq in Hi. lia. }
  apply Forall_app in Hrange as [Htrain Htest].
  split; [exact Hperm|]. split.
  - intros i Htest' Htrain'.
    apply in_split in Htrain' as (l1 & l2 & E). rewrite E in Hnodup.
    rewrite <- app_assoc in Hnodup. cbn [app] in Hnodup.
    apply NoDup_remove_2 in Hnodup. apply Hnodup.
    rewrite app_assoc. apply in_or_app. now right.
  - split.
    + rewrite <- length_app, (Permutation_length Hperm). apply length_seq.
    + split; now apply gather_length.
Qed.

End Splits.

Lemma train_and_test_indices_split_witness :
  exists folds testFold,
    fst (createStratifiedFolds triangleWave (@insertionEngine) CV_CONFIG
           [1; 0; 1; 0; 0; 1; 1; 0] 3 (mkWorld [] [])) = Returned folds /\
    nth_error folds 1 = Some testFold /\
    Permutation (trainIndicesOf folds 1 ++ indices testFold) (seq 0 8).
Proof.
  eexists. eexists.
  split; [reflexivity|]. split; [reflexivity|].
  apply (@train_and_test_indices_split triangleWave (@insertionEngine)
           insertionEngine_rearranges CV_CONFIG
           [1; 0; 1; 0; 0; 1; 1; 0] 3 (mkWorld [] []) _ 1%nat _
           ltac:(lia) eq_refl eq_refl).
Defined.

(** ** The composition of the folds *)

Lemma groupIndices_labels (labels : list Q) :
  forall idx x,
    (In x (fst (groupIndices labels idx)) ->
     exists l, nth_error labels (x - idx) = Some l /\ Qeq_bool l 1 = true
               /\ (idx <= x)%nat) /\
    (In x (snd (groupIndices labels idx)) ->
     exists l, nth_error labels (x - idx) = Some l /\ Qeq_bool l 1 = false
               /\ (idx <= x)%nat).
Proof.
  induction labels as [|l rest IH]; intros idx x; cbn [groupIndices].
  - split; intros [].
  - specialize (IH (S idx) x).
    destruct (groupIndices rest (S idx)) as [pos neg]. cbn [fst snd] in IH.
    destruct IH as [IHp IHn].
    assert (Hstep : forall b,
               (exists l', nth_error rest (x - S idx) = Some l'
                           /\ Qeq_bool l' 1 = b /\ (S idx <= x)%nat) ->
               exists l', nth_error (l :: rest) (x - idx) = Some l'
                          /\ Qeq_bool l' 1 = b /\ (idx <= x)%nat).
    { intros b (l' & H1 & H2 & H3). exists l'.
      replace (x - idx)%nat with (S (x - S idx)) by lia.
      cbn. repeat split; [exact H1|exact H2|lia]. }
    destruct (Qeq_bool l 1) eqn:El; cbn [fst snd]; split; intros H.
    + destruct H as [<-|H]; [|now apply Hstep, IHp].
      exists l. rewrite Nat.sub_diag. cbn. repeat split; [exact El|lia].
    + now apply Hstep, IHn.
    + now apply Hstep, IHp.
    + destruct H as [<-|H]; [|now apply Hstep, IHn].
      exists l. rewrite Nat.sub_diag. cbn. repeat split; [exact El|lia].
Qed.

Lemma gather_class (labels : list Q) (b : bool) (idxs : list nat) :
  (forall x, In x idxs ->
     exists l, nth_error labels x = Some l /\ Qeq_bool l 1 = b) ->
  length (gather labels idxs) = length idxs /\
  countOnes (gather labels idxs)
    = if b then Z.of_nat (length idxs) else 0%Z.
Proof.
  unfold countOnes, gather.
  induction idxs as [|i rest IH]; intros H.
  - cbn. now destruct b.
  - destruct (H i (or_introl eq_refl)) as (l & Hl & Hb).
    destruct IH as [IH1 IH2]; [intros x Hx; apply H; now right|].
    cbn [flat_map]. rewrite Hl. cbn [app length filter]. rewrite Hb.
    split; [now rewrite IH1|].
    destruct b; cbn [length]; lia.
Qed.

Lemma countOnes_app (l l' : list Q) :
  countOnes (l ++ l') = (countOnes l + countOnes l')%Z.
Proof. unfold countOnes. rewrite filter_app, length_app. lia. Qed.

Lemma chunk_incl {A : Type} (l : list A) (k per i : Z) (x : A) :
  In x (chunk l k per i) -> In x l.
Proof.
  unfold chunk, slice. intros H.
  match type of H with
  | In x (firstn ?n (skipn ?m l)) =>
      rewrite <- (firstn_skipn m l); apply in_or_app; right;
      rewrite <- (firstn_skipn n (skipn m l)); apply in_or_app; now left
  end.
Qed.

Lemma chunk_length {A : Type} (l : list A) (k : Z) (i : nat) :
  (1 <= k)%Z -> (Z.of_nat i < k)%Z ->
  let len := Z.of_nat (length l) in
  Z.of_nat (length (chunk l k (len / k) (Z.of_nat i)))
    = if (Z.of_nat i =? k - 1)%Z then (len - (k - 1) * (len / k))%Z
      else (len / k)%Z.
Proof.
  intros Hk Hi len. unfold chunk.
  set (per := (len / k)%Z).
  assert (Hper : (0 <= per)%Z) by (apply Z.div_pos; lia).
  assert (Hfit : (k * per <= len)%Z) by (apply Z.mul_div_le; lia).
  destruct (Z.eqb_spec (Z.of_nat i) (k - 1)) as [E|E].
  - rewrite slice_inside by (fold len; nia).
    rewrite length_firstn, length_skipn. fold len. rewrite E. nia.
  - rewrite slice_inside by (fold len; nia).
    rewrite length_firstn, length_skipn. nia.
Qed.

Section Stratification.

Variable Math_sin : Q -> Q.
Variable engine_sort :
  forall (A S : Type), (A -> A -> S -> Q * S) -> list A -> S -> list A * S.

Hypothesis engine_sort_rearranges :
  forall (A S : Type) (cmp : A -> A -> S -> Q * S) (arr : list A) (s : S),
    Permutation (fst (engine_sort cmp arr s)) arr.

(** X7.  For [k >= 1], with [P] labels [=== 1] and [N] others, every fold
    but the last holds [floor(P/k)] positives and [floor(N/k)] negatives and
    the last one takes the remainders; the fields [positive] and [negative]
    of a fold are the true counts of its samples: the test labels of the
    fold hold exactly [positive] labels [=== 1] among
    [positive + negative]. *)
Theorem folds_are_stratified
    (cfg : CVConfig) (labels : list Q) (k : Z) (w : World)
    (folds : list Fold) (i : nat) (fold : Fold)
    (Hk : (1 <= k)%Z)
    (Hfolds : fst (createStratifiedFolds Math_sin engine_sort cfg labels k w)
              = Returned folds)
    (Hfold : nth_error folds i = Some fold) :
  let P := countOnes labels in
  let N := (Z.of_nat (length labels) - P)%Z in
  let testLabels := gather labels (indices fold) in
  positive fold = (if (Z.of_nat i =? k - 1)%Z then P - (k - 1) * (P / k)
                   else P / k)%Z /\
  negative fold = (if (Z.of_nat i =? k - 1)%Z then N - (k - 1) * (N / k)
                   else N / k)%Z /\
  countOnes testLabels = positive fold /\
  Z.of_nat (length testLabels) = (positive fold + negative fold)%Z.
Proof.
  intros P N testLabels.
  rewrite (createStratifiedFolds_run Math_sin engine_sort) in Hfolds.
  cbn [fst] in Hfolds.
  assert (folds = stratifiedFolds Math_sin engine_sort cfg labels k)
    as -> by congruence.
  assert (Hi : (Z.of_nat i < k)%Z).
  { assert (H : (i < length (stratifiedFolds Math_sin engine_sort cfg labels
                                k))%nat)
      by (apply nth_error_Some; congruence).
    rewrite stratifiedFolds_length in H. lia. }
  pose proof (stratifiedFolds_nth _ _ _ _ _ _ Hfold) as E. cbn zeta in E.
  set (pos := shuffle Math_sin engine_sort (fst (groupIndices labels 0))
                (randomSeed cfg)) in *.
  set (neg := shuffle Math_sin engine_sort (snd (groupIndices labels 0))
                (randomSeed cfg + 1)) in *.
  assert (Hpos : Permutation pos (fst (groupIndices labels 0)))
    by apply (shuffle_perm Math_sin engine_sort engine_sort_rearranges).
  assert (Hneg : Permutation neg (snd (groupIndices labels 0)))
    by apply (shuffle_perm Math_sin engine_sort engine_sort_rearranges).
  destruct (groupIndices_lengths labels 0) as [Lp Ln].
  assert (HP : Z.of_nat (length pos) = P).
  { rewrite (Permutation_length Hpos), Lp. reflexivity. }
  assert (HN : Z.of_nat (length neg) = N).
  { rewrite (Permutation_length Hneg), Ln. unfold N, P, countOnes.
    pose proof (filter_length (fun l => Qeq_bool l 1) labels). lia. }
  pose proof (@chunk_length _ pos k i Hk Hi) as Cp. cbn zeta in Cp.
  pose proof (@chunk_length _ neg k i Hk Hi) as Cn. cbn zeta in Cn.
  rewrite HP in Cp. rewrite HN in Cn.
  assert (Epos : positive fold
                 = Z.of_nat (length (chunk pos k (P / k) (Z.of_nat i)))).
  { rewrite Cp, E. unfold makeFold. cbn [positive]. rewrite HP.
    destruct (Z.eqb_spec (Z.of_nat i) (k - 1)) as [Ei|Ei];
      [rewrite Ei|]; ring. }
  assert (Eneg : negative fold
                 = Z.of_nat (length (chunk neg k (N / k) (Z.of_nat i)))).
  { rewrite Cn, E. unfold makeFold. cbn [negative]. rewrite HN.
    destruct (Z.eqb_spec (Z.of_nat i) (k - 1)) as [Ei|Ei];
      [rewrite Ei|]; ring. }
  split; [now rewrite Epos|]. split; [now rewrite Eneg|].
  assert (Gp : forall x, In x (chunk pos k (P / k) (Z.of_nat i)) ->
                 exists l, nth_error labels x = Some l
                           /\ Qeq_bool l 1 = true).
  { intros x Hx. apply chunk_incl in Hx.
    apply (Permutation_in _ Hpos) in Hx.
    apply (groupIndices_labels labels 0 x) in Hx as (l & H1 & H2 & _).
    rewrite Nat.sub_0_r in H1. now exists l. }
  assert (Gn : forall x, In x (chunk neg k (N / k) (Z.of_nat i)) ->
                 exists l, nth_error labels x = Some l
                           /\ Qeq_bool l 1 = false).
  { intros x Hx. apply chunk_incl in Hx.
    apply (Permutation_in _ Hneg) in Hx.
    apply (groupIndices_labels labels 0 x) in Hx as (l & H1 & H2 & _).
    rewrite Nat.sub_0_r in H1. now exists l. }
  apply gather_class in Gp as [Gp1 Gp2].
  apply gather_class in Gn as [Gn1 Gn2].
  assert (Eidx : testLabels
                 = gather labels (chunk pos k (P / k) (Z.of_nat i))
                   ++ gather labels (chunk neg k (N / k) (Z.of_nat i))).
  { unfold testLabels. rewrite E, makeFold_indices, HP, HN.
    unfold gather. apply flat_map_app. }
  rewrite Eidx, countOnes_app, length_app, Gp1, Gn1, Gp2, Gn2, Epos, Eneg.
  split; lia.
Qed.

End Stratification.

Lemma folds_are_stratified_witness :
  exists folds,
    fst (createStratifiedFolds triangleWave (@insertionEngine) CV_CONFIG
           [1; 0; 1; 0; 0; 1; 1; 0; 1; 0; 0] 3 (mkWorld [] []))
      = Returned folds /\
    map positive folds = [1; 1; 3]%Z /\
    map negative folds = [2; 2; 2]%Z /\
    forall fold, nth_error folds 2 = Some fold ->
      countOnes (gather [1; 0; 1; 0; 0; 1; 1; 0; 1; 0; 0] (indices fold))
        = positive fold.
Proof.
  eexists. split; [reflexivity|]. split; [reflexivity|].
  split; [reflexivity|]. intros fold Hfold.
  apply (@folds_are_stratified triangleWave (@insertionEngine)
           insertionEngine_rearranges CV_CONFIG
           [1; 0; 1; 0; 0; 1; 1; 0; 1; 0; 0] 3 (mkWorld [] []) _ 2%nat fold
           ltac:(lia) eq_refl Hfold).
Defined.

(** ** How a run ends *)

Lemma keepsFiles_ret {A : Type} (a : A) : keepsFiles (ret a).
Proof. intros w. reflexivity. Qed.

Lemma keepsFiles_lift {A : Type} (m : outcome A) : keepsFiles (lift m).
Proof. intros w. reflexivity. Qed.

Lemma keepsFiles_say (lines : list console_line) : keepsFiles (say lines).
Proof. intros w. reflexivity. Qed.

Lemma keepsFiles_bind {A B : Type} (m : Eff A) (k : A -> Eff B) :
  keepsFiles m -> (forall a, keepsFiles (k a)) -> keepsFiles (bindEff m k).
Proof.
  intros Hm Hk w. unfold bindEff. specialize (Hm w).
  destruct (m w) as [[a|e] w1]; cbn [snd] in *; [|exact Hm].
  now rewrite Hk.
Qed.

Ltac keepsFiles :=
  repeat first [ apply keepsFiles_bind; [|intros ?]
               | apply keepsFiles_ret | apply keepsFiles_lift
               | apply keepsFiles_say ].

Lemma gather_map {A B : Type} (f : A -> B) (arr : list A) (idxs : list nat) :
  gather (map f arr) idxs = map f (gather arr idxs).
Proof.
  unfold gather. induction idxs as [|i rest IH]; [reflexivity|].
  cbn [flat_map]. rewrite map_app, IH, nth_error_map.
  now destruct (nth_error arr i).
Qed.

Section RunOutcomes.

Variable Math_sin : Q -> Q.
Variable engine_sort :
  forall (A S : Type), (A -> A -> S -> Q * S) -> list A -> S -> list A * S.
Variable Features : Type.
Variable loadAndPreprocessData : outcome (list (Features * Q)).
Variable classifier :
  nat -> list Features -> list Q -> list Features -> outcome (list Q).
Variable now : string.
Variable fs : FileSystem.

Lemma keepsFiles_runFold (xs : list Features) (ys : list Q)
    (folds : list Fold) (foldIdx : nat) (testFold : Fold) :
  keepsFiles (runFold classifier xs ys folds foldIdx testFold).
Proof. unfold runFold, splitByIndices. keepsFiles. Qed.

Lemma keepsFiles_foldLoop (xs : list Features) (ys : list Q)
    (folds : list Fold) (todo : list Fold) :
  forall foldIdx done,
    keepsFiles (foldLoop classifier xs ys folds foldIdx todo done).
Proof.
  induction todo as [|testFold rest IH]; intros foldIdx done;
    cbn [foldLoop].
  - apply keepsFiles_ret.
  - apply keepsFiles_bind; [apply keepsFiles_runFold|]. intros m. apply IH.
Qed.

(** The folds are evaluated, one after the other, as long as none
    fails. *)
Lemma tryBlock_stages (cfg : CVConfig) (w : World) :
  let run := tryBlock Math_sin engine_sort loadAndPreprocessData classifier
               now fs cfg w in
  (exists e, run = (Thrown e, w)) \/
  exists w1,
    files w1 = files w /\ grows w w1 /\
    ((exists e, run = (Thrown e, w1)) \/
     exists foldResults, run = finishRun now fs cfg foldResults w1).
Proof.
  cbn zeta. unfold tryBlock, bindEff, lift.
  destruct loadAndPreprocessData as [samples|e]; [|left; now exists e].
  right. rewrite createStratifiedFolds_run.
  set (folds := stratifiedFolds Math_sin engine_sort cfg (map snd samples)
                  (nFolds cfg)).
  set (w0 := mkWorld _ (files w)).
  pose proof (keepsFiles_foldLoop (map fst samples) (map snd samples) folds
                folds 0 [] w0) as Hfiles.
  pose proof (@growing_foldLoop Features classifier (map fst samples)
                (map snd samples) folds folds 0%nat [] w0) as Hgrows.
  destruct (foldLoop classifier (map fst samples) (map snd samples) folds 0
              folds [] w0) as [[foldResults|e] w1]; cbn [snd] in *.
  - exists w1. split; [exact Hfiles|]. split.
    + eapply grows_trans; [|exact Hgrows]. eexists. reflexivity.
    + right. now exists foldResults.
  - exists w1. split; [exact Hfiles|]. split.
    + eapply grows_trans; [|exact Hgrows]. eexists. reflexivity.
    + left. now exists e.
Qed.

(** X8.  However a run ends, it has written its report or failed.  A run
    returns only if the file system accepted the directory and the file;
    the file [resultsPath/cv_results.json] then holds the JSON text of the
    returned report, in place of what it held before, no other file has
    changed, and the last line announces the completion.  A run that fails
    exits with code 1, its last line is the failure, and the files are as
    they were, but for what a rejected [fs.writeFile] has left in the file
    of the report. *)
Theorem run_writes_report_or_nothing (cfg : CVConfig) (w : World) :
  match runCrossValidation Math_sin engine_sort loadAndPreprocessData
          classifier now fs cfg w with
  | (ReportReturned report, w') =>
      accepts fs cfg /\
      files w' = store (reportPath cfg) (JSON_stringify report) (files w) /\
      exists lines, console w' = console w ++ lines ++ [LogCompleted]
  | (ProcessExit code, w') =>
      code = 1%Z /\
      (files w' = files w \/
       exists e partial,
         mkdirError fs (resultsPath cfg) = None /\
         writeFileError fs (reportPath cfg) = Some (e, Some partial) /\
         files w' = store (reportPath cfg) partial (files w)) /\
      exists lines e, console w' = console w ++ lines ++ [LogFailed e]
  end.
Proof.
  unfold runCrossValidation.
  destruct (tryBlock_stages cfg w) as [[e ->]|(w1 & Hf & [l1 Hc] & H)].
  - split; [reflexivity|]. split; [left; reflexivity|].
    exists [], e. reflexivity.
  - destruct H as [[e ->]|[foldResults ->]].
    + split; [reflexivity|]. split; [left; exact Hf|].
      exists l1, e. cbn [console]. now rewrite Hc, <- app_assoc.
    + destruct (aggregate foldResults) as [aggregated|e] eqn:Hagg.
      * destruct (rejection fs cfg) as [e|] eqn:Hrej.
        -- rewrite (@finishRun_rejected now fs cfg _ _ e w1 Hagg Hrej).
           cbn [files console]. split; [reflexivity|]. split.
           ++ unfold afterRejection, rejection in *. rewrite Hf.
              destruct (mkdirError fs (resultsPath cfg));
                [left; reflexivity|].
              destruct (writeFileError fs (reportPath cfg))
                as [[e' [partial|]]|]; [|left; reflexivity..].
              right. exists e', partial. repeat split; reflexivity.
           ++ exists l1, e. now rewrite Hc, <- app_assoc.
        -- apply rejection_accepts in Hrej.
           rewrite (@finishRun_returns now fs cfg _ _ w1 Hagg Hrej).
           cbn [files console]. rewrite Hf, Hc. split; [exact Hrej|].
           split; [reflexivity|].
           exists (l1 ++ [LogResultsSaved (reportPath cfg);
                          verdictLine aggregated]).
           now rewrite <- !app_assoc.
      * rewrite (@finishRun_throws now fs cfg _ e w1 Hagg).
        split; [reflexivity|]. split; [left; exact Hf|].
        exists l1, e. cbn [console]. now rewrite Hc, <- app_assoc.
Qed.

(** X9.  With [nFolds <= 0] no fold is built, and the run fails in the
    aggregation: [reduce] of the empty array of fold results throws a
    [TypeError]; nothing is trained, nothing is written, the exit code
    is 1. *)
Theorem run_without_folds_fails
    (cfg : CVConfig) (samples : list (Features * Q)) (w : World)
    (Hload : loadAndPreprocessData = Returned samples)
    (Hk : (nFolds cfg <= 0)%Z) :
  runCrossValidation Math_sin engine_sort loadAndPreprocessData classifier
    now fs cfg w
  = (ProcessExit 1,
     mkWorld (console w ++ [LogCreatingFolds (nFolds cfg); LogFoldsCreated;
                            LogFailed TypeError])
             (files w)).
Proof.
  unfold runCrossValidation, tryBlock, bindEff, lift. rewrite Hload.
  rewrite createStratifiedFolds_run. unfold stratifiedFolds.
  replace (Z.to_nat (nFolds cfg)) with 0%nat by lia.
  cbn. now rewrite <- app_assoc.
Qed.




End RunOutcomes.

Lemma run_without_folds_fails_witness :
  runCrossValidation triangleWave (@insertionEngine)
    (Returned balancedRows) firstFeatureClassifier
    "2024-01-01T00:00:00.000Z" acceptingFileSystem
    (mkConfig 0 true 42 "./results/cv_gastrectomy") (mkWorld [] [])
  = (ProcessExit 1,
     mkWorld [LogCreatingFolds 0; LogFoldsCreated; LogFailed TypeError] []).
Proof.
  apply (@run_without_folds_fails triangleWave (@insertionEngine) _
           (Returned balancedRows) firstFeatureClassifier
           "2024-01-01T00:00:00.000Z"%string acceptingFileSystem
           (mkConfig 0 true 42 "./results/cv_gastrectomy") balancedRows
           (mkWorld [] []) eq_refl).
  cbn. lia.
Defined.


(** ** The verdict on the stability *)

Lemma sub_NaN (v : number) : sub v NaN = NaN.
Proof. now destruct v. Qed.

Lemma pow2_NaN : pow2 NaN = NaN.
Proof. reflexivity. Qed.

Lemma sum_all_NaN (vals : list number) :
  vals <> [] -> sum (map (fun _ => NaN) vals) = NaN.
Proof. destruct vals as [|v vs]; [congruence|]. reflexivity. Qed.

Lemma populationStd_NaN (vals : list number) :
  In NaN vals -> populationStd vals = Sqrt NaN.
Proof.
  intros H. unfold populationStd. rewrite (arithmeticMean_NaN _ H).
  rewrite (map_ext _ (fun _ => NaN))
    by (intros v; now rewrite sub_NaN).
  rewrite sum_all_NaN by (intros ->; contradiction).
  reflexivity.
Qed.

Lemma agg_auc_stats (foldResults : list FoldResult) (aggregated : Aggregated) :
  aggregate foldResults = Returned aggregated ->
  foldResults <> [] /\
  agg_auc aggregated
    = mkStats (arithmeticMean (map auc foldResults))
              (populationStd (map auc foldResults))
              (map auc foldResults).
Proof.
  intros H. apply aggregate_inv in H as [Hne H]. split; [exact Hne|].
  specialize (H Auc). rewrite (calculateStats_refines Auc Hne) in H.
  cbn [statsOf getMetric] in H.
  change (map (getMetric Auc) foldResults) with (map auc foldResults) in H.
  congruence.
Qed.

Lemma fold_left_add_NaN (vs : list PrimFloat.float) :
  forall a,
    a = PrimFloat.nan \/ In PrimFloat.nan vs ->
    fold_left PrimFloat.add vs a = PrimFloat.nan.
Proof.
  induction vs as [|v vs IH]; intros a H; cbn [fold_left].
  - destruct H as [H|[]]. exact H.
  - apply IH. destruct H as [->|[->|H]].
    + left. apply add_NaN_l.
    + left. apply add_NaN_r.
    + right. exact H.
Qed.

Lemma Double_mean_NaN (values : list PrimFloat.float) :
  In PrimFloat.nan values -> Double.mean values = PrimFloat.nan.
Proof.
  destruct values as [|v vs]; [intros []|]. intros H. unfold Double.mean.
  rewrite fold_left_add_NaN.
  - apply div_NaN_l.
  - destruct H as [H|H]; [left; exact H | right; exact H].
Qed.

(** Around a mean that is [NaN] every squared deviation is [NaN], and so
    is their sum. *)
Lemma Double_squares_NaN (values : list PrimFloat.float) :
  forall a,
    values <> [] ->
    fold_left
      (fun a b => PrimFloat.add a (Double.pow2 (PrimFloat.sub b PrimFloat.nan)))
      values a = PrimFloat.nan.
Proof.
  induction values as [|v vs IH]; intros a Hne; [congruence|].
  cbn [fold_left]. rewrite sub_NaN_r.
  change (Double.pow2 PrimFloat.nan) with PrimFloat.nan.
  rewrite add_NaN_r. destruct vs as [|v' vs']; [reflexivity|].
  apply IH. discriminate.
Qed.

Lemma Double_std_NaN (values : list PrimFloat.float) :
  In PrimFloat.nan values -> Double.std values = PrimFloat.nan.
Proof.
  intros H. unfold Double.std. rewrite (Double_mean_NaN _ H).
  rewrite Double_squares_NaN by (intros ->; contradiction).
  rewrite div_NaN_l. reflexivity.
Qed.

(** X11.  A fold whose auc is [NaN] (a test fold without positives or
    without negatives) decides the verdict: the mean and the standard
    deviation of the auc are [NaN], the comparison [std < 0.05] is false,
    and the run reports VARIABLE performance, whatever the other folds
    are. *)
Theorem degenerate_fold_makes_the_verdict_variable
    (foldResults : list FoldResult) (aggregated : Aggregated) (r : FoldResult)
    (Hagg : aggregate foldResults = Returned aggregated)
    (Hin : In r foldResults)
    (HNaN : auc r = NaN) :
  mean (agg_auc aggregated) = NaN /\
  std (agg_auc aggregated) = Sqrt NaN /\
  verdictLine aggregated = LogVariable.
Proof.
  apply agg_auc_stats in Hagg as [_ E].
  assert (H : In NaN (map auc foldResults)).
  { rewrite <- HNaN. now apply in_map. }
  unfold verdictLine, stdDouble. rewrite E. cbn [mean std values].
  rewrite (arithmeticMean_NaN _ H), (populationStd_NaN _ H).
  split; [reflexivity|]. split; [reflexivity|].
  rewrite Double_std_NaN; [reflexivity|].
  change PrimFloat.nan with (Double.of_number NaN). apply in_map. exact H.
Qed.

Lemma degenerate_fold_makes_the_verdict_variable_witness :
  exists aggregated,
    aggregate [withAuc (7 # 10);
               mkFoldResult (Fin 1) zero zero zero (Fin 1) NaN (mkCM 0 0 3 0);
               withAuc (7 # 10)]
      = Returned aggregated /\
    verdictLine aggregated = LogVariable.
Proof.
  eexists. split; [reflexivity|].
  eapply (@degenerate_fold_makes_the_verdict_variable
            [withAuc (7 # 10);
             mkFoldResult (Fin 1) zero zero zero (Fin 1) NaN (mkCM 0 0 3 0);
             withAuc (7 # 10)] _
            (mkFoldResult (Fin 1) zero zero zero (Fin 1) NaN (mkCM 0 0 3 0))
            eq_refl).
  - right. left. reflexivity.
  - reflexivity.
Defined.

Lemma Qsum_squares_nonneg (f : Q -> Q) (qs : list Q) :
  0 <= Qsum (map (fun q => f q * f q) qs).
Proof.
  induction qs as [|q rest IH]; cbn [map Qsum fold_right]; [lra|].
  unfold Qsum in IH. nra.
Qed.

Lemma Qcount_positive (qs : list Q) : qs <> [] -> 0 < Qcount qs.
Proof.
  intros H. unfold Qcount. destruct qs as [|q rest]; [congruence|].
  unfold Qlt. cbn [length]. cbn. lia.
Qed.

Lemma QpopulationVariance_nonneg (qs : list Q) :
  qs <> [] -> 0 <= QpopulationVariance qs.
Proof.
  intros H. unfold QpopulationVariance.
  apply Qle_shift_div_l; [now apply Qcount_positive|].
  rewrite Qmult_0_l.
  apply (Qsum_squares_nonneg (fun q => q - Qmean qs)).
Qed.

(** ** The training script *)

Lemma rankLoop_padLabel (pairs : list Train.Pair) :
  forall i st,
    rankLoop (map padLabel pairs) i st = Train.rankLoop pairs i st.
Proof.
  induction pairs as [|p rest IH]; intros i st; [reflexivity|].
  cbn [map rankLoop Train.rankLoop]. rewrite IH.
  destruct p as [s [l|]]; reflexivity.
Qed.

Lemma nth_error_padding (labels : list Q) (extra i : nat) :
  (i < length labels + extra)%nat ->
  nth_error (labels ++ repeat 0 extra) i
    = Some (match nth_error labels i with
            | Some l => l
            | None => 0
            end).
Proof.
  intros H. destruct (le_lt_dec (length labels) i) as [Hge|Hlt].
  - rewrite nth_error_app2 by exact Hge.
    rewrite (proj2 (nth_error_None labels i) Hge).
    rewrite nth_error_repeat by lia. reflexivity.
  - rewrite nth_error_app1 by exact Hlt.
    destruct (nth_error labels i) eqn:E; [reflexivity|].
    apply nth_error_None in E. lia.
Qed.

Lemma makePairs_padLabel (labels : list Q) (extra : nat)
    (predictions : list Q) :
  forall i,
    (i + length predictions <= length labels + extra)%nat ->
    map padLabel (Train.makePairs predictions i labels)
      = map (fun '(p, l) => mkPair p l)
          (combine predictions (skipn i (labels ++ repeat 0 extra))).
Proof.
  induction predictions as [|p rest IH]; intros i H; [reflexivity|].
  cbn [length] in H. cbn [Train.makePairs map].
  rewrite (@skipn_nth_error _ i (labels ++ repeat 0 extra) _
             (@nth_error_padding labels extra i ltac:(lia))).
  cbn [combine map]. f_equal. apply IH. lia.
Qed.

Lemma calculateAUC_ranks (predictions labels : list Q) :
  Train.calculateAUC predictions labels
    = aucOfRanks
        (rankLoop
           (sort byPredDescending
              (map (fun '(p, l) => mkPair p l)
                 (combine predictions (padded predictions labels))))
           0 (mkRank 0 0 0)).
Proof.
  unfold Train.calculateAUC, aucOfRanks, padded.
  rewrite <- rankLoop_padLabel.
  rewrite <- (@sort_map _ _ Train.byPredDescending byPredDescending padLabel)
    by reflexivity.
  rewrite (@makePairs_padLabel labels
             (length predictions - length labels) predictions 0%nat)
    by lia.
  reflexivity.
Qed.

(** X14.  [calculateAUC] of the training script never throws and computes
    the [auc] of [evaluateFold]: on the same predictions and labels when
    every prediction has a label; a prediction past the end of the labels
    is ranked as a negative, as if its label were 0. *)
Theorem calculateAUC_is_the_auc_of_evaluateFold
    (predictions labels : list Q) :
  exists r,
    evaluateFold predictions (padded predictions labels) = Returned r /\
    Train.calculateAUC predictions labels = auc r /\
    ((length predictions <= length labels)%nat ->
     evaluateFold predictions labels = Returned r).
Proof.
  destruct (@evaluateFold_returns predictions (padded predictions labels))
    as (r & Hr & _ & _ & Hauc).
  { unfold padded. rewrite length_app, repeat_length. lia. }
  exists r. split; [exact Hr|]. split.
  - rewrite Hauc. apply calculateAUC_ranks.
  - intros Hlen. unfold padded in Hr.
    replace (length predictions - length labels)%nat with 0%nat in Hr by lia.
    cbn [repeat] in Hr. now rewrite app_nil_r in Hr.
Qed.

(** X15.  [evaluateModel] of the training script and [evaluateFold] are
    the same evaluation: on all predictions and labels the one throws iff
    the other does, and otherwise they agree on the auc, the accuracy, the
    precision, the recall, the f1 score and the four counts. *)
Theorem evaluateModel_agrees_with_evaluateFold
    (predictions labels : list Q) :
  Train.evaluateModel predictions labels
  = (r <- evaluateFold predictions labels ;;
     Returned
       (Train.mkMetrics (auc r) (accuracy r) (precision r) (recall r) (f1 r)
          (tp (confusionMatrix r)) (fp (confusionMatrix r))
          (tn (confusionMatrix r)) (fn (confusionMatrix r)))).
Proof.
  destruct (le_lt_dec (length predictions) (length labels)) as [Hle|Hlt].
  - unfold Train.evaluateModel, evaluateFold.
    rewrite calculateAUC_ranks. unfold padded.
    replace (length predictions - length labels)%nat with 0%nat by lia.
    cbn [repeat]. rewrite app_nil_r.
    destruct (@countLoop_total (map binarize predictions)) with
      (i := 0%nat) (labels := labels) (cm := mkCM 0 0 0 0)
      as (cm & -> & _).
    + apply Forall_forall. intros z Hz.
      apply in_map_iff in Hz as (p & <- & _). apply binarize_0_or_1.
    + rewrite length_map. exact Hle.
    + rewrite (@makePairs_returns predictions 0 labels Hle).
      destruct cm as [a b c d]. reflexivity.
  - rewrite (evaluateFold_throws _ _ Hlt). unfold Train.evaluateModel.
    rewrite countLoop_throws; [reflexivity|]. rewrite length_map. lia.
Qed.

Lemma traverse_Forall2 {A B : Type} (f : A -> completion B) (arr : list A)
    (bs : list B) :
  traverse f arr = Normal bs -> Forall2 (fun a b => f a = Normal b) arr bs.
Proof.
  revert bs. induction arr as [|a rest IH]; intros bs H; cbn [traverse] in H.
  - injection H as <-. constructor.
  - destruct (f a) as [b|e] eqn:Ea; [|discriminate].
    cbn [andThen] in H.
    destruct (traverse f rest) as [bs'|e]; [|discriminate].
    cbn [andThen] in H. injection H as <-.
    constructor; [exact Ea|now apply IH].
Qed.

Lemma traverse_In {A B : Type} (f : A -> completion B) (arr : list A)
    (bs : list B) (a : A) :
  traverse f arr = Normal bs -> In a arr -> exists b, f a = Normal b.
Proof.
  intros H. apply traverse_Forall2 in H.
  induction H as [|x b xs bs' Hx _ IH]; intros Hin; [contradiction|].
  destruct Hin as [->|Hin]; [now exists b|now apply IH].
Qed.

Lemma traverse_returns {A B : Type} (f : A -> completion B) (arr : list A) :
  (forall a, In a arr -> exists b, f a = Normal b) ->
  exists bs, traverse f arr = Normal bs.
Proof.
  induction arr as [|a rest IH]; intros H; cbn [traverse].
  - now exists [].
  - destruct (H a (or_introl eq_refl)) as (b & ->).
    destruct IH as (bs & ->); [intros x Hx; apply H; now right|].
    now exists (b :: bs).
Qed.

Lemma traverse_throws {A B : Type} (f : A -> completion B) (arr : list A)
    (e : exception) :
  traverse f arr = Abrupt e -> exists a, In a arr /\ f a = Abrupt e.
Proof.
  induction arr as [|x rest IH]; intros H; cbn [traverse] in H;
    [discriminate|].
  destruct (f x) as [b|e'] eqn:Ex; cbn [andThen] in H.
  - destruct (traverse f rest) as [bs|e'']; cbn [andThen] in H;
      [discriminate|].
    destruct IH as (a & Ha & Hf); [exact H|].
    exists a. split; [now right|exact Hf].
  - exists x. split; [now left|congruence].
Qed.

Lemma labelOf_cases (patient : json) :
  (patient = JsonNull /\ Train.labelOf patient = Abrupt JsTypeError) \/
  (patient <> JsonNull /\
   (Train.labelOf patient = Normal 1 \/ Train.labelOf patient = Normal 0)).
Proof.
  unfold Train.labelOf.
  destruct patient as [|b|q|s|items|fields]; cbn [member andThen];
    try (right; split; [discriminate|now right]).
  - left. now split.
  - right. split; [discriminate|].
    destruct (own _ fields) as [v|]; [|now right].
    destruct (truthy v); [now left|now right].
Qed.

Lemma featureRow_cases (patient : json) :
  (patient = JsonNull /\ Train.featureRow patient = Abrupt JsTypeError) \/
  (patient <> JsonNull /\
   exists row, Train.featureRow patient = Normal row /\ length row = 8%nat).
Proof.
  destruct patient as [|b|q|s|items|fields];
    try (right; split; [discriminate|]; eexists; split; reflexivity).
  left. now split.
Qed.

Lemma gather_Forall {A : Type} (P : A -> Prop) (arr : list A)
    (idxs : list nat) :
  Forall P arr -> Forall P (gather arr idxs).
Proof.
  intros H. unfold gather. induction idxs as [|i rest IH]; [constructor|].
  cbn [flat_map]. apply Forall_app. split; [|exact IH].
  destruct (nth_error arr i) as [a|] eqn:E; [|constructor].
  constructor; [|constructor].
  rewrite Forall_forall in H. apply H. eapply nth_error_In. exact E.
Qed.

Lemma filter_all {A : Type} (f : A -> bool) (l : list A) :
  Forall (fun a => f a = true) l -> filter f l = l.
Proof.
  induction 1 as [|a rest Ha _ IH]; [reflexivity|].
  cbn [filter]. now rewrite Ha, IH.
Qed.

(** X16.  When [loadAndPreprocessData] has read the records, the parsed
    file is an array and there is one row and one label per record: the
    row of a record holds its eight features, and its label is what
    [patient[CONFIG.target] ? 1 : 0] gives for it, exactly 1 or 0.  So on
    the test labels of any fold of these data the confusion matrix of
    [evaluateFold] counts every prediction: no sample is skipped for its
    label. *)
Theorem loaded_labels_are_all_counted
    (rawData : json) (featureData : list (list json)) (labels : list Q)
    (Hload : Train.featureDataAndLabels rawData
             = Normal (featureData, labels)) :
  (exists patients,
      rawData = JsonArray patients /\
      length featureData = length patients /\
      length labels = length patients /\
      (forall i patient,
          nth_error patients i = Some patient ->
          exists row l,
            nth_error featureData i = Some row /\
            nth_error labels i = Some l /\
            Train.featureRow patient = Normal row /\
            length row = 8%nat /\
            Train.labelOf patient = Normal l /\
            (l = 1 \/ l = 0))) /\
  Forall (fun l => l = 1 \/ l = 0) labels /\
  length featureData = length labels /\
  Forall (fun row => length row = 8%nat) featureData /\
  forall (testIndices : list nat) (predictions : list Q),
    Forall (fun i => (i < length labels)%nat) testIndices ->
    (length predictions <= length testIndices)%nat ->
    exists r,
      evaluateFold predictions (gather labels testIndices) = Returned r /\
      total (confusionMatrix r) = Z.of_nat (length predictions).
Proof.
  unfold Train.featureDataAndLabels in Hload.
  destruct rawData as [| | | |patients|]; try discriminate.
  destruct (traverse Train.featureRow patients) as [rows|e] eqn:Hrows;
    [|discriminate].
  cbn [andThen] in Hload.
  destruct (traverse Train.labelOf patients) as [ls|e] eqn:Hls;
    [|discriminate].
  cbn [andThen] in Hload.
  assert (rows = featureData /\ ls = labels) as [-> ->]
    by (split; congruence).
  apply traverse_Forall2 in Hrows. apply traverse_Forall2 in Hls.
  assert (Hlabels : Forall (fun l => l = 1 \/ l = 0) labels).
  { clear Hrows Hload.
    induction Hls as [|p l ps ls' Hp _ IH]; [constructor|].
    constructor; [|exact IH].
    destruct (labelOf_cases p) as [[_ H]|[_ [H|H]]]; rewrite H in Hp.
    - discriminate.
    - left. congruence.
    - right. congruence. }
  assert (Hwidth : Forall (fun row => length row = 8%nat) featureData).
  { clear Hls Hlabels Hload.
    induction Hrows as [|p row ps rows' Hp _ IH]; [constructor|].
    constructor; [|exact IH].
    destruct (featureRow_cases p) as [[_ H]|[_ (row' & H & Hlen)]];
      rewrite H in Hp; [discriminate|]. congruence. }
  split.
  { exists patients. split; [reflexivity|].
    split; [symmetry; exact (Forall2_length Hrows)|].
    split; [symmetry; exact (Forall2_length Hls)|].
    intros i patient Hi.
    destruct (nth_error featureData i) as [row|] eqn:Erow.
    2:{ apply nth_error_None in Erow.
        rewrite <- (Forall2_length Hrows) in Erow.
        apply nth_error_None in Erow. congruence. }
    destruct (nth_error labels i) as [l|] eqn:El.
    2:{ apply nth_error_None in El.
        rewrite <- (Forall2_length Hls) in El.
        apply nth_error_None in El. congruence. }
    exists row, l. split; [reflexivity|]. split; [reflexivity|].
    assert (Hrow : Train.featureRow patient = Normal row).
    { clear - Hrows Hi Erow. revert i Hi Erow.
      induction Hrows as [|p r ps rs Hp _ IH]; intros [|i] Hi Erow;
        cbn [nth_error] in Hi, Erow; try discriminate.
      - congruence.
      - exact (IH i Hi Erow). }
    assert (Hl : Train.labelOf patient = Normal l).
    { clear - Hls Hi El. revert i Hi El.
      induction Hls as [|p r ps rs Hp _ IH]; intros [|i] Hi El;
        cbn [nth_error] in Hi, El; try discriminate.
      - congruence.
      - exact (IH i Hi El). }
    split; [exact Hrow|]. split.
    - rewrite Forall_forall in Hwidth. apply Hwidth.
      eapply nth_error_In. exact Erow.
    - split; [exact Hl|]. rewrite Forall_forall in Hlabels.
      apply Hlabels. eapply nth_error_In. exact El. }
  split; [exact Hlabels|]. split.
  { rewrite <- (Forall2_length Hrows). apply (Forall2_length Hls). }
  split; [exact Hwidth|].
  intros testIndices predictions Hrange Hlen.
  rewrite <- (@gather_length _ labels testIndices Hrange) in Hlen.
  destruct (evaluateFold_returns _ _ Hlen) as (r & Hr & Htotal & _).
  exists r. split; [exact Hr|]. rewrite Htotal. f_equal.
  rewrite filter_all; [now rewrite length_firstn, Nat.min_l|].
  apply Forall_forall. intros l Hl.
  assert (Hin : In l (gather labels testIndices)).
  { rewrite <- (firstn_skipn (length predictions)). apply in_or_app.
    now left. }
  pose proof (gather_Forall testIndices Hlabels) as Hall.
  rewrite Forall_forall in Hall.
  destruct (Hall l Hin) as [->| ->]; reflexivity.
Qed.

(** X17.  The reading of the records in [loadAndPreprocessData] fails
    exactly when the parsed file is not an array or holds a [null] record,
    and then with a [TypeError]; every other record is accepted, object or
    not. *)
Theorem featureDataAndLabels_returns_iff (rawData : json) :
  ((exists featureData labels,
       Train.featureDataAndLabels rawData = Normal (featureData, labels))
   <-> exists patients,
         rawData = JsonArray patients /\ ~ In JsonNull patients) /\
  (forall e, Train.featureDataAndLabels rawData = Abrupt e ->
             e = JsTypeError).
Proof.
  split; [split|].
  - intros (featureData & labels & H).
    unfold Train.featureDataAndLabels in H.
    destruct rawData as [| | | |patients|]; try discriminate.
    exists patients. split; [reflexivity|]. intros Hnull.
    destruct (traverse Train.featureRow patients) as [rows|e] eqn:Hrows;
      [|discriminate].
    destruct (@traverse_In _ _ _ _ _ JsonNull Hrows Hnull) as (row & Hrow).
    discriminate.
  - intros (patients & -> & Hnull). unfold Train.featureDataAndLabels.
    destruct (@traverse_returns _ _ Train.featureRow patients)
      as (rows & ->).
    { intros p Hp. destruct (featureRow_cases p) as [[-> _]|[_ (r & H & _)]];
        [contradiction|]. now exists r. }
    destruct (@traverse_returns _ _ Train.labelOf patients) as (ls & ->).
    { intros p Hp. destruct (labelOf_cases p) as [[-> _]|[_ [H|H]]];
        [contradiction| |]; eexists; exact H. }
    now exists rows, ls.
  - intros e H. unfold Train.featureDataAndLabels in H.
    destruct rawData as [| | | |patients|]; try congruence.
    destruct (traverse Train.featureRow patients) as [rows|e'] eqn:Hrows;
      cbn [andThen] in H.
    + destruct (traverse Train.labelOf patients) as [ls|e'] eqn:Hls;
        cbn [andThen] in H; [discriminate|].
      apply traverse_throws in Hls as (p & _ & Hp).
      destruct (labelOf_cases p) as [[_ E]|[_ [E|E]]]; congruence.
    + apply traverse_throws in Hrows as (p & _ & Hp).
      destruct (featureRow_cases p) as [[_ E]|[_ (r & E & _)]]; congruence.
Qed.

Lemma loaded_labels_are_all_counted_witness :
  exists featureData r,
    Train.featureDataAndLabels
      (JsonArray
         [JsonObject [("age", JsonNumber 61);
                      ("major_complication", JsonBool true)]%string;
          JsonObject [("age", JsonNumber 0); ("bmi", JsonString "high")]
                     %string;
          JsonObject [("major_complication", JsonNumber 2)]%string])
      = Normal (featureData, [1; 0; 1]) /\
    nth_error featureData 1
      = Some [JsonNumber 0; JsonString "high"; JsonNumber 0; JsonNumber 0;
              JsonNumber 0; JsonNumber 0; JsonNumber 0; JsonNumber 0] /\
    evaluateFold [9 # 10; 2 # 10] (gather [1; 0; 1] [2; 1]%nat) = Returned r /\
    total (confusionMatrix r) = 2%Z.
Proof.
  eexists.
  destruct (@loaded_labels_are_all_counted
              (JsonArray
                 [JsonObject [("age", JsonNumber 61);
                              ("major_complication", JsonBool true)]%string;
                  JsonObject [("age", JsonNumber 0);
                              ("bmi", JsonString "high")]%string;
                  JsonObject [("major_complication", JsonNumber 2)]%string])
              _ [1; 0; 1] eq_refl) as (_ & _ & _ & _ & H).
  destruct (H [2; 1]%nat [9 # 10; 2 # 10]) as (r & Hr & Ht);
    [repeat constructor; cbn; lia | cbn; lia |].
  exists r. split; [reflexivity|]. split; [reflexivity|].
  split; [exact Hr|exact Ht].
Defined.

(** ** The validation of the data file *)

Lemma typeof_number (v : json) :
  String.eqb (typeof (Some v)) "number" = true <-> exists q, v = JsonNumber q.
Proof.
  destruct v; cbn; split; intros H; try discriminate;
    try (destruct H as [q H]; discriminate); try reflexivity.
  now exists q.
Qed.

Lemma checkColumns_object (fields : list (string * json)) (cols : list string) :
  Validator.checkColumns cols (JsonObject fields) = Normal tt
  <-> (forall col, In col cols -> own col fields <> None) /\
      (In "age"%string cols ->
       exists q, own "age" fields = Some (JsonNumber q)).
Proof.
  induction cols as [|col rest IH].
  - cbn. split; [|reflexivity]. intros _. split; [intros ? []|intros []].
  - cbn [Validator.checkColumns hasKey member andThen].
    destruct (own col fields) as [v|] eqn:Ev; cbn [negb].
    + destruct (String.eqb_spec col "age") as [->|Hne]; cbn [andb].
      * destruct (String.eqb (typeof (Some v)) "number") eqn:Et; cbn [negb].
        -- apply typeof_number in Et as [q ->].
           rewrite IH. split.
           ++ intros [H1 H2]. split; [|intros _; now exists q].
              intros c [<-|Hc]; [congruence|now apply H1].
           ++ intros [H1 H2]. split; [intros c Hc; apply H1; now right|].
              intros _. now exists q.
        -- split; [discriminate|]. intros [_ H].
           destruct (H (or_introl eq_refl)) as [q Hq].
           assert (E : v = JsonNumber q) by congruence.
           assert (Ht : String.eqb (typeof (Some v)) "number" = true)
             by (apply typeof_number; now exists q).
           congruence.
      * rewrite IH. split.
        -- intros [H1 H2]. split.
           ++ intros c [<-|Hc]; [congruence|now apply H1].
           ++ intros [E|Hin]; [congruence|now apply H2].
        -- intros [H1 H2]. split; [intros c Hc; apply H1; now right|].
           intros Hin. apply H2. now right.
    + split; [discriminate|]. intros [H _].
      exfalso. apply (H col (or_introl eq_refl)). exact Ev.
Qed.

Lemma checkColumns_object_error (fields : list (string * json))
    (cols : list string) :
  Validator.checkColumns cols (JsonObject fields) <> Abrupt JsTypeError.
Proof.
  induction cols as [|col rest IH]; [discriminate|].
  cbn [Validator.checkColumns hasKey member andThen].
  destruct (own col fields) as [v|]; cbn [negb]; [|discriminate].
  destruct (String.eqb col "age" && _); [discriminate|exact IH].
Qed.

(** X18.  [validateDataStructure] passes exactly the non-empty arrays
    whose first row is an object that has the ten required columns and a
    number under [age]: the other columns are only checked for presence,
    and no row after the first is looked at.  On a first row that is a
    primitive ([null], a number, a string, a boolean) it does not report
    invalid data but fails itself, with a [TypeError]. *)
Theorem validateDataStructure_passes_iff (data : json) :
  (Validator.validateDataStructure data = Normal tt
   <-> exists fields rest age,
         data = JsonArray (JsonObject fields :: rest) /\
         (forall col, In col Validator.REQUIRED_COLUMNS ->
                      own col fields <> None) /\
         own "age" fields = Some (JsonNumber age)) /\
  (Validator.validateDataStructure data = Abrupt JsTypeError
   <-> exists firstRow rest,
         data = JsonArray (firstRow :: rest) /\ isPrimitive firstRow).
Proof.
  split; split.
  - intros H. destruct data as [| | | |[|firstRow rest]|]; try discriminate.
    cbn [Validator.validateDataStructure] in H.
    destruct firstRow as [| | | | |fields]; try discriminate.
    apply checkColumns_object in H as [H1 H2].
    destruct H2 as [age Hage]; [now left|].
    now exists fields, rest, age.
  - intros (fields & rest & age & -> & H1 & H2).
    cbn [Validator.validateDataStructure].
    apply checkColumns_object. split; [exact H1|]. intros _. now exists age.
  - intros H. destruct data as [| | | |[|firstRow rest]|]; try discriminate.
    cbn [Validator.validateDataStructure] in H.
    exists firstRow, rest. split; [reflexivity|].
    destruct firstRow as [| | | | |fields]; cbn; try exact I;
      try discriminate.
    now apply checkColumns_object_error in H.
  - intros (firstRow & rest & -> & Hprim).
    destruct firstRow; try contradiction; reflexivity.
Qed.

(** ** The validation of a prediction request *)

Lemma missingFields_object (fields : list (string * json)) (fs : list string) :
  Api.missingFields fs (JsonObject fields)
    = Normal (filter (fun f => negb (present f fields)) fs).
Proof.
  induction fs as [|f rest IH]; [reflexivity|].
  cbn [Api.missingFields hasKey andThen filter]. rewrite IH.
  cbn [andThen]. unfold present. now destruct (own f fields).
Qed.

Lemma filter_nil_iff {A : Type} (f : A -> bool) (l : list A) :
  length (filter f l) = 0%nat <-> forall a, In a l -> f a = false.
Proof.
  induction l as [|x rest IH]; cbn [filter].
  - split; [intros _ a []|reflexivity].
  - destruct (f x) eqn:E; cbn [length].
    + split; [discriminate|]. intros H.
      rewrite (H x (or_introl eq_refl)) in E. discriminate.
    + rewrite IH. split.
      * intros H a [<-|Ha]; [exact E|now apply H].
      * intros H a Ha. apply H. now right.
Qed.

Lemma notNumberWithin_false (x : option json) (lo hi : Q) :
  Api.notNumberWithin x lo hi = false
  <-> exists q, x = Some (JsonNumber q) /\ lo <= q <= hi.
Proof.
  unfold Api.notNumberWithin.
  destruct x as [[| |q| | |]|];
    try (split; [discriminate|intros (q' & E & _); discriminate]).
  rewrite orb_false_iff, !negb_false_iff, !Qle_bool_iff. split.
  - intros H. now exists q.
  - intros (q' & E & H). injection E as ->. exact H.
Qed.

Lemma includes_M_F (x : option json) :
  Api.includes ["M"; "F"]%string x = true
  <-> x = Some (JsonString "M") \/ x = Some (JsonString "F").
Proof.
  unfold Api.includes.
  destruct x as [[| | |s| |]|];
    try (split; [discriminate|intros [E|E]; discriminate]).
  cbn [existsb]. rewrite orb_false_r, orb_true_iff.
  split.
  - intros [H|H]; apply String.eqb_eq in H; subst; [now left|now right].
  - intros [E|E]; injection E as ->; [now left|now right].
Qed.

Lemma validatePredictionInput_object (fields : list (string * json)) :
  Api.validatePredictionInput (JsonObject fields)
  = Normal
      (if negb (forallb (fun f => present f fields) Api.required)
       then Api.invalid ("Missing required fields: "
                           ++ Api.join ", "
                                (filter (fun f => negb (present f fields))
                                   Api.required))
       else if Api.notNumberWithin (own "age" fields) 0 120
       then Api.invalid "Age must be a number between 0 and 120"
       else if negb (Api.includes ["M"; "F"]%string (own "sex" fields))
       then Api.invalid ("Sex must be " ++ Api.quote ++ "M" ++ Api.quote
                           ++ " or " ++ Api.quote ++ "F" ++ Api.quote)
       else if Api.notNumberWithin (own "bmi" fields) 10 60
       then Api.invalid "BMI must be a number between 10 and 60"
       else Api.mkValidation true None).
Proof.
  unfold Api.validatePredictionInput. rewrite missingFields_object.
  cbn [andThen member].
  assert (E : Nat.eqb (length (filter (fun f => negb (present f fields))
                                 Api.required)) 0
              = forallb (fun f => present f fields) Api.required).
  { unfold Api.required. cbn [filter forallb].
    repeat match goal with
           | |- context [present ?f fields] => destruct (present f fields)
           end; reflexivity. }
  rewrite E. destruct (forallb _ Api.required); cbn [negb]; [|reflexivity].
  destruct (Api.notNumberWithin (own "age" fields) 0 120); [reflexivity|].
  destruct (Api.includes _ (own "sex" fields)); cbn [negb]; [|reflexivity].
  now destruct (Api.notNumberWithin (own "bmi" fields) 10 60).
Qed.

(** X19.  [validatePredictionInput] declares a body valid exactly when it
    is an object with the five required fields, a number between 0 and 120
    (bounds included) under [age], the string M or F under [sex] and a
    number between 10 and 60 (bounds included) under [bmi]; [tumor_stage]
    and [surgery_type] only have to be present.  A rejection always carries
    a message, and a body that is a primitive makes the function throw a
    [TypeError]. *)
Theorem validatePredictionInput_valid_iff (data : json) :
  ((exists v, Api.validatePredictionInput data = Normal v
              /\ Api.valid v = true)
   <-> exists fields age bmi,
         data = JsonObject fields /\
         (forall f, In f Api.required -> own f fields <> None) /\
         own "age" fields = Some (JsonNumber age) /\ 0 <= age <= 120 /\
         (own "sex" fields = Some (JsonString "M")
          \/ own "sex" fields = Some (JsonString "F")) /\
         own "bmi" fields = Some (JsonNumber bmi) /\ 10 <= bmi <= 60) /\
  (forall v, Api.validatePredictionInput data = Normal v ->
             v = Api.mkValidation true None
             \/ exists message, v = Api.mkValidation false (Some message)) /\
  (Api.validatePredictionInput data = Abrupt JsTypeError
   <-> isPrimitive data).
Proof.
  split; [split|split].
  - intros (v & Hv & Hvalid).
    destruct data as [| | | |items|fields]; try discriminate.
    { cbn in Hv. injection Hv as <-. discriminate. }
    rewrite validatePredictionInput_object in Hv.
    destruct (forallb _ Api.required) eqn:Hall; cbn [negb] in Hv;
      [|injection Hv as <-; discriminate].
    destruct (Api.notNumberWithin (own "age" fields) 0 120) eqn:Hage;
      [injection Hv as <-; discriminate|].
    destruct (Api.includes _ (own "sex" fields)) eqn:Hsex; cbn [negb] in Hv;
      [|injection Hv as <-; discriminate].
    destruct (Api.notNumberWithin (own "bmi" fields) 10 60) eqn:Hbmi;
      [injection Hv as <-; discriminate|].
    apply notNumberWithin_false in Hage as (age & Eage & Hage).
    apply notNumberWithin_false in Hbmi as (bmi & Ebmi & Hbmi).
    apply includes_M_F in Hsex.
    exists fields, age, bmi. split; [reflexivity|]. split.
    { rewrite forallb_forall in Hall. intros f Hf E.
      specialize (Hall f Hf). unfold present in Hall. rewrite E in Hall.
      discriminate. }
    repeat (split; [assumption|]). assumption.
  - intros (fields & age & bmi & -> & Hall & Eage & Hage & Hsex & Ebmi & Hbmi).
    eexists. split; [apply validatePredictionInput_object|].
    assert (H1 : forallb (fun f => present f fields) Api.required = true).
    { apply forallb_forall. intros f Hf. unfold present.
      specialize (Hall f Hf). now destruct (own f fields). }
    assert (H2 : Api.notNumberWithin (own "age" fields) 0 120 = false)
      by (apply notNumberWithin_false; now exists age).
    assert (H3 : Api.includes ["M"; "F"]%string (own "sex" fields) = true)
      by now apply includes_M_F.
    assert (H4 : Api.notNumberWithin (own "bmi" fields) 10 60 = false)
      by (apply notNumberWithin_false; now exists bmi).
    rewrite H1, H2, H3, H4. reflexivity.
  - intros v Hv.
    destruct data as [| | | |items|fields]; try discriminate.
    { cbn in Hv. injection Hv as <-. right. eexists. reflexivity. }
    rewrite validatePredictionInput_object in Hv. injection Hv as <-.
    destruct (negb _); [right; eexists; reflexivity|].
    destruct (Api.notNumberWithin _ 0 120); [right; eexists; reflexivity|].
    destruct (negb _); [right; eexists; reflexivity|].
    destruct (Api.notNumberWithin _ 10 60); [right; eexists; reflexivity|].
    now left.
  - destruct data as [| | | |items|fields]; cbn [isPrimitive];
      split; intros H; try exact I; try reflexivity; try contradiction.
    + discriminate.
    + rewrite validatePredictionInput_object in H. discriminate.
Qed.

(** ** The authentication *)

Lemma split_not_nil (sep : Ascii.ascii) (s : string) : Api.split sep s <> [].
Proof.
  destruct s as [|c rest]; cbn [Api.split]; [discriminate|].
  destruct (Ascii.eqb c sep); [discriminate|].
  destruct (Api.split sep rest); discriminate.
Qed.

Lemma split_lacks (sep : Ascii.ascii) (s : string) :
  lacks sep s = true -> Api.split sep s = [s].
Proof.
  induction s as [|c rest IH]; cbn [lacks Api.split]; [reflexivity|].
  intros H. apply andb_true_iff in H as [Hc Hrest].
  apply negb_true_iff in Hc. rewrite Hc, (IH Hrest). reflexivity.
Qed.

Lemma split_app (sep : Ascii.ascii) (a b : string) :
  lacks sep a = true ->
  Api.split sep (a ++ String sep b) = a :: Api.split sep b.
Proof.
  induction a as [|c rest IH]; cbn [lacks Api.split String.append].
  - intros _. now rewrite Ascii.eqb_refl.
  - intros H. apply andb_true_iff in H as [Hc Hrest].
    apply negb_true_iff in Hc. rewrite Hc, (IH Hrest). reflexivity.
Qed.

Lemma split_decompose (sep : Ascii.ascii) (s : string) :
  exists piece pieces,
    Api.split sep s = piece :: pieces /\ lacks sep piece = true /\
    ((pieces = [] /\ s = piece) \/
     exists s', s = (piece ++ String sep s')%string
                /\ pieces = Api.split sep s').
Proof.
  induction s as [|c rest (piece & pieces & E & Hp & Hs)].
  - exists EmptyString, []. repeat split. now left.
  - cbn [Api.split]. destruct (Ascii.eqb c sep) eqn:Ec.
    + apply Ascii.eqb_eq in Ec as ->.
      exists EmptyString, (Api.split sep rest). repeat split.
      right. now exists rest.
    + rewrite E. exists (String c piece), pieces.
      split; [reflexivity|]. split; [cbn [lacks]; now rewrite Ec, Hp|].
      destruct Hs as [[-> ->]|(s' & -> & ->)]; [now left|].
      right. now exists s'.
Qed.

Lemma append_not_empty (a b : string) (c : Ascii.ascii) :
  String.eqb (a ++ String c b) EmptyString = false.
Proof. now destruct a. Qed.

(** X20.  [authenticateToken] lets a request pass exactly when
    [API_TOKEN] is set to a non-empty token without a space and the
    [authorization] header is a first word, one space and that token,
    followed by nothing or by a space and anything: the first word (the
    scheme) is not checked, and with [API_TOKEN] unset or empty no request
    ever passes; every other request is answered with status 401. *)
Theorem authenticateToken_passes_iff (API_TOKEN authHeader : option string) :
  (Api.authenticateToken API_TOKEN authHeader = Api.Next
   <-> exists scheme token,
         API_TOKEN = Some token /\ token <> EmptyString /\
         lacks Api.space scheme = true /\ lacks Api.space token = true /\
         (authHeader = Some (scheme ++ " " ++ token)%string \/
          exists rest,
            authHeader = Some (scheme ++ " " ++ token ++ " " ++ rest)%string))
  /\
  (Api.authenticateToken API_TOKEN authHeader = Api.Next \/
   exists payload,
     Api.authenticateToken API_TOKEN authHeader = Api.Respond 401 payload).
Proof.
  split; [split|].
  - unfold Api.authenticateToken.
    destruct (Api.tokenOf authHeader) as [t|] eqn:Et; [|discriminate].
    destruct (String.eqb_spec t EmptyString) as [|Hne]; [discriminate|].
    destruct API_TOKEN as [expected|]; [|discriminate].
    destruct (String.eqb_spec t expected) as [<-|]; [|discriminate].
    intros _. unfold Api.tokenOf in Et.
    destruct authHeader as [h|]; [|discriminate].
    destruct (String.eqb_spec h EmptyString) as [->|Hh].
    { injection Et as <-. contradiction. }
    destruct (split_decompose Api.space h)
      as (scheme & pieces & E & Hscheme & [[-> _]|(s' & -> & ->)]);
      rewrite E in Et; [discriminate|].
    cbn [nth_error] in Et.
    destruct (split_decompose Api.space s')
      as (token & pieces & E' & Htoken & Hs');
      rewrite E' in Et. cbn [nth_error] in Et. injection Et as ->.
    exists scheme, t. repeat (split; [assumption || reflexivity|]).
    destruct Hs' as [[_ ->]|(rest & -> & _)]; [now left|].
    right. now exists rest.
  - intros (scheme & token & -> & Hne & Hs & Ht & Hh).
    assert (Etok : Api.tokenOf authHeader = Some token).
    { destruct Hh as [->|(rest & ->)].
      - change (Api.tokenOf (Some (scheme ++ String Api.space token)%string)
                = Some token).
        unfold Api.tokenOf.
        rewrite append_not_empty, (@split_app _ _ _ Hs).
        now rewrite (@split_lacks _ _ Ht).
      - change (Api.tokenOf
                  (Some (scheme
                           ++ String Api.space
                                (token ++ String Api.space rest))%string)
                = Some token).
        unfold Api.tokenOf.
        rewrite append_not_empty, (@split_app _ _ _ Hs).
        now rewrite (@split_app _ _ _ Ht). }
    unfold Api.authenticateToken. rewrite Etok.
    destruct (String.eqb_spec token EmptyString) as [|_]; [contradiction|].
    now rewrite String.eqb_refl.
  - unfold Api.authenticateToken.
    destruct (_ || _); [right; eexists; reflexivity|now left].
Qed.

(** ** The architecture of the network *)

Lemma flat_map_seq_nth_error {A B : Type} (g : A -> list B) (l : list A)
    (m : nat) :
  forall s,
    flat_map (fun i => match nth_error l i with
                       | Some a => g a
                       | None => []
                       end) (seq s m)
    = flat_map g (firstn m (skipn s l)).
Proof.
  induction m as [|m IH]; intros s; [reflexivity|].
  cbn [seq flat_map]. rewrite IH.
  destruct (nth_error l s) as [a|] eqn:E.
  - rewrite (skipn_nth_error _ _ E). reflexivity.
  - apply nth_error_None in E.
    rewrite !skipn_all2 by lia. now rewrite firstn_nil.
Qed.

Lemma denseLayers_app (a b : list Architecture.Layer) :
  denseLayers (a ++ b) = denseLayers a ++ denseLayers b.
Proof. apply flat_map_app. Qed.

Lemma dropoutCount_app (a b : list Architecture.Layer) :
  dropoutCount (a ++ b) = (dropoutCount a + dropoutCount b)%nat.
Proof. unfold dropoutCount. now rewrite filter_app, length_app. Qed.

Lemma denseLayers_dropoutOf (layer : Architecture.LayerConfig) :
  denseLayers (Architecture.dropoutOf layer) = [] /\
  (dropoutCount (Architecture.dropoutOf layer) <= 1)%nat.
Proof.
  unfold Architecture.dropoutOf.
  destruct (Architecture.dropout layer) as [rate|];
    [|split; [reflexivity|cbn; lia]].
  destruct (is_zero rate); (split; [reflexivity|cbn; lia]).
Qed.

Lemma denseLayers_cons (u : Z) (a : string) (shape : option (list Z))
    (rest : list Architecture.Layer) :
  denseLayers (Architecture.Dense u a shape :: rest)
    = (u, a) :: denseLayers rest /\
  dropoutCount (Architecture.Dense u a shape :: rest) = dropoutCount rest.
Proof. split; reflexivity. Qed.

Lemma denseLayers_hidden (ls : list Architecture.LayerConfig) :
  denseLayers
    (flat_map (fun layer =>
                 Architecture.Dense (Architecture.units layer)
                   (Architecture.activation layer) None
                   :: Architecture.dropoutOf layer) ls)
    = map (fun layer => (Architecture.units layer,
                         Architecture.activation layer)) ls /\
  (dropoutCount
     (flat_map (fun layer =>
                  Architecture.Dense (Architecture.units layer)
                    (Architecture.activation layer) None
                    :: Architecture.dropoutOf layer) ls)
   <= length ls)%nat.
Proof.
  induction ls as [|layer rest [IH1 IH2]]; [split; [reflexivity|cbn; lia]|].
  cbn [flat_map map length]. rewrite <- app_comm_cons.
  destruct (denseLayers_cons (Architecture.units layer)
              (Architecture.activation layer) None
              (Architecture.dropoutOf layer
                 ++ flat_map (fun layer =>
                      Architecture.Dense (Architecture.units layer)
                        (Architecture.activation layer) None
                        :: Architecture.dropoutOf layer) rest))
    as [-> ->].
  rewrite denseLayers_app, dropoutCount_app, IH1.
  destruct (denseLayers_dropoutOf layer) as [-> Hd].
  split; [reflexivity|lia].
Qed.

(** X21.  [createModel] of [ModelArchitecture] builds, for a
    configuration of two layers or more, one dense layer per configured
    layer, in order, the first one with the input shape; dropout layers
    are only added behind layers before the last, so the model ends with the
    dense output layer and the [dropout] of the last configured layer is
    ignored.  Without any layer the call throws a [TypeError]. *)
Theorem createModel_layers (config : Architecture.ModelConfig) :
  (Architecture.layers config = [] ->
   Architecture.createModel config = Thrown TypeError) /\
  ((2 <= length (Architecture.layers config))%nat ->
   exists model first output,
     Architecture.createModel config = Returned model /\
     denseLayers (Architecture.added model)
       = map (fun layer => (Architecture.units layer,
                            Architecture.activation layer))
             (Architecture.layers config) /\
     hd_error (Architecture.added model)
       = Some (Architecture.Dense (Architecture.units first)
                 (Architecture.activation first)
                 (Some [Architecture.inputSize config])) /\
     hd_error (Architecture.layers config) = Some first /\
     last (Architecture.added model) (Architecture.Dropout 0)
       = Architecture.Dense (Architecture.units output)
           (Architecture.activation output) None /\
     last (Architecture.layers config) first = output /\
     (dropoutCount (Architecture.added model)
      <= length (Architecture.layers config) - 1)%nat).
Proof.
  split.
  - intros E. unfold Architecture.createModel. now rewrite E.
  - intros Hn. unfold Architecture.createModel.
    destruct (Architecture.layers config) as [|first rest] eqn:E;
      [cbn in Hn; lia|].
    cbn [length] in Hn |- *.
    destruct (@exists_last _ rest) as (middle & output & Hrest);
      [intros ->; cbn in Hn; lia|].
    eexists. exists first, output. split; [reflexivity|].
    cbn [Architecture.added].
    rewrite (flat_map_seq_nth_error
               (fun layer =>
                  Architecture.Dense (Architecture.units layer)
                    (Architecture.activation layer) None
                    :: Architecture.dropoutOf layer)).
    replace (S (length rest) - 1 - 1)%nat with (length middle)
      by (rewrite Hrest, length_app; cbn; lia).
    replace (S (length rest) - 1)%nat with (S (length middle))
      by (rewrite Hrest, length_app; cbn; lia).
    cbn [skipn nth_error]. rewrite Hrest.
    rewrite firstn_app, firstn_all, Nat.sub_diag. cbn [firstn].
    rewrite app_nil_r, nth_error_app2, Nat.sub_diag by lia.
    cbn [nth_error].
    destruct (denseLayers_hidden middle) as [Hd Hc].
    destruct (denseLayers_dropoutOf first) as [Hd1 Hc1].
    split.
    { rewrite (proj1 (denseLayers_cons _ _ _ _)).
      rewrite !denseLayers_app, Hd1, Hd. cbn [app map].
      rewrite map_app. reflexivity. }
    split; [reflexivity|]. split; [reflexivity|]. split.
    { rewrite app_comm_cons, app_assoc. apply last_last. }
    split.
    { change (first :: middle ++ [output]) with ((first :: middle) ++ [output]).
      apply last_last. }
    rewrite (proj2 (denseLayers_cons _ _ _ _)).
    rewrite !dropoutCount_app.
    change (dropoutCount [Architecture.Dense _ _ _]) with 0%nat. lia.
Qed.

Lemma createModel_layers_witness :
  exists model,
    Architecture.createModel Architecture.MODEL_ARCHITECTURE
      = Returned model /\
    denseLayers (Architecture.added model)
      = [(64%Z, "relu"%string); (32%Z, "relu"%string);
         (1%Z, "sigmoid"%string)] /\
    dropoutCount (Architecture.added model) = 2%nat /\
    Architecture.compiledOptimizer model = "adam"%string.
Proof.
  destruct (createModel_layers Architecture.MODEL_ARCHITECTURE) as [_ H].
  destruct H as (model & first & output & Hm & Hd & _); [cbn; lia|].
  exists model. split; [exact Hm|]. split; [exact Hd|].
  cbn in Hm.
  apply (f_equal (fun o => match o with
                           | Returned m => m
                           | Thrown _ => model
                           end)) in Hm.
  subst model. split; reflexivity.
Defined.

(** ** The range of the aggregated metrics *)

Lemma unit_values_are_finite (vals : list number) :
  (forall v, In v vals -> unitInterval v) ->
  exists qs, vals = map Fin qs /\ forall q, In q qs -> 0 <= q <= 1.
Proof.
  induction vals as [|v rest IH]; intros H.
  - exists []. split; [reflexivity|intros q []].
  - destruct (H v (or_introl eq_refl)) as (q & -> & Hq).
    destruct IH as (qs & -> & Hqs); [intros x Hx; apply H; now right|].
    exists (q :: qs). split; [reflexivity|].
    intros x [<-|Hx]; [exact Hq|now apply Hqs].
Qed.

Lemma Qsum_bounds (qs : list Q) :
  (forall q, In q qs -> 0 <= q <= 1) -> 0 <= Qsum qs <= Qcount qs.
Proof.
  unfold Qcount. induction qs as [|q rest IH]; intros H.
  - split; apply Qle_refl.
  - cbn [Qsum fold_right length]. unfold Qsum in IH.
    rewrite Nat2Z.inj_succ. unfold Z.succ. rewrite inject_Z_plus.
    change (inject_Z 1) with 1.
    pose proof (H q (or_introl eq_refl)).
    assert (0 <= fold_right Qplus 0 rest
            <= inject_Z (Z.of_nat (length rest)))
      by (apply IH; intros x Hx; apply H; now right).
    lra.
Qed.

Lemma Qmean_bounds (qs : list Q) :
  qs <> [] -> (forall q, In q qs -> 0 <= q <= 1) -> 0 <= Qmean qs <= 1.
Proof.
  intros Hne H. pose proof (Qsum_bounds qs H) as [H0 H1].
  pose proof (@Qcount_positive qs Hne) as Hc. unfold Qmean. split.
  - apply Qle_shift_div_l; [exact Hc|]. now rewrite Qmult_0_l.
  - apply Qle_shift_div_r; [exact Hc|]. now rewrite Qmult_1_l.
Qed.

Section AggregatedRanges.

Variable Math_sin : Q -> Q.
Variable engine_sort :
  forall (A S : Type), (A -> A -> S -> Q * S) -> list A -> S -> list A * S.
Variable Features : Type.
Variable loadAndPreprocessData : outcome (list (Features * Q)).
Variable classifier :
  nat -> list Features -> list Q -> list Features -> outcome (list Q).
Variable now : string.
Variable fs : FileSystem.

(** X22.  In the report of every run that returns, the aggregated
    precision, recall, f1 score and specificity are well defined: the mean
    is a finite number between 0 and 1 and the standard deviation is the
    square root of a finite non-negative number, whatever the folds and the
    model (the accuracy and the auc, in contrast, can be [NaN]). *)
Theorem aggregated_guarded_metrics_are_finite
    (cfg : CVConfig) (report : jsval) (w w' : World) (m : metric)
    (Hrun : runCrossValidation Math_sin engine_sort loadAndPreprocessData
              classifier now fs cfg w = (ReportReturned report, w'))
    (Hm : guarded m = true) :
  exists aggregatedObj q v,
    get "aggregated" report = Some aggregatedObj /\
    get (metricName m) aggregatedObj
      = Some (JObject [("mean", JNumber (Fin q));
                       ("std", JRadical (Sqrt (Fin v)))]%string) /\
    0 <= q <= 1 /\ 0 <= v.
Proof.
  apply runCrossValidation_inv in Hrun
    as (samples & foldResults & aggregated & Hrun).
  cbn zeta in Hrun.
  destruct Hrun as (_ & Hlen & Heval & Hagg & -> & _).
  apply aggregate_inv in Hagg as [Hne Hstats].
  specialize (Hstats m).
  rewrite (@calculateStats_refines foldResults m Hne) in Hstats.
  destruct (@unit_values_are_finite (map (getMetric m) foldResults))
    as (qs & Hvals & Hqs).
  { intros v Hv. apply in_map_iff in Hv as (r & <- & Hr).
    apply In_nth_error in Hr as [i Hi].
    assert (Hlt : (i < length foldResults)%nat)
      by (apply nth_error_Some; congruence).
    rewrite Hlen in Hlt.
    destruct (nth_error
                (stratifiedFolds Math_sin engine_sort cfg (map snd samples)
                   (nFolds cfg)) i) as [testFold|] eqn:Hfold;
      [|apply nth_error_None in Hfold; lia].
    destruct (Heval i testFold r Hfold Hi) as (predictions & _ & Hr).
    exact (guarded_metric_in_unitInterval _ _ m Hr Hm). }
  assert (Hqne : qs <> []).
  { intros ->. destruct foldResults; [congruence|discriminate]. }
  rewrite Hvals in Hstats.
  rewrite (@arithmeticMean_finite qs Hqne),
          (@populationStd_finite qs Hqne) in Hstats.
  exists (aggregatedObject aggregated), (Qred (Qmean qs)),
         (Qred (QpopulationVariance qs)).
  split; [reflexivity|]. split.
  - assert (E : statsOf aggregated m
                = mkStats (fin (Qmean qs))
                          (Sqrt (fin (QpopulationVariance qs)))
                          (map Fin qs)) by congruence.
    unfold aggregatedObject, entries, metrics.
    destruct m; try discriminate Hm; cbn [statsOf] in E; cbn;
      rewrite E; reflexivity.
  - rewrite !Qred_correct. split; [now apply Qmean_bounds|].
    now apply QpopulationVariance_nonneg.
Qed.

End AggregatedRanges.

Lemma aggregated_guarded_metrics_are_finite_witness :
  exists aggregatedObj q v,
    get "aggregated" (reportOf balancedRun) = Some aggregatedObj /\
    get "f1" aggregatedObj
      = Some (JObject [("mean", JNumber (Fin q));
                       ("std", JRadical (Sqrt (Fin v)))]%string) /\
    0 <= q <= 1 /\ 0 <= v.
Proof.
  apply (@aggregated_guarded_metrics_are_finite triangleWave
           (@insertionEngine) _ (Returned balancedRows)
           firstFeatureClassifier "2024-01-01T00:00:00.000Z"%string
           acceptingFileSystem
           CV_CONFIG (reportOf balancedRun) (mkWorld [] [])
           (snd balancedRun) F1).
  - vm_compute. reflexivity.
  - reflexivity.
Defined.

(** ** The counts behind the metrics *)

Lemma tally_classes (cm : ConfusionMatrix) (p : Z) (a : Q) :
  p = 0%Z \/ p = 1%Z ->
  (tp (tally cm p a) + fn (tally cm p a)
   = tp cm + fn cm + if Qeq_bool a 1 then 1 else 0)%Z /\
  (tn (tally cm p a) + fp (tally cm p a)
   = tn cm + fp cm + if Qeq_bool a 0 then 1 else 0)%Z.
Proof.
  unfold tally. intros [-> | ->]; cbn [Z.eqb andb].
  - destruct (Qeq_bool a 1) eqn:H1.
    + rewrite (one_is_not_zero _ H1). cbn. lia.
    + destruct (Qeq_bool a 0); cbn; lia.
  - destruct (Qeq_bool a 1) eqn:H1.
    + rewrite (one_is_not_zero _ H1). cbn. lia.
    + destruct (Qeq_bool a 0); cbn; lia.
Qed.

Lemma countLoop_classes (binary : list Z) :
  Forall (fun p => p = 0%Z \/ p = 1%Z) binary ->
  forall (i : nat) (labels : list Q) (cm cm' : ConfusionMatrix),
    countLoop binary i labels cm = Returned cm' ->
    (tp cm' + fn cm'
     = tp cm + fn cm
       + countOnes (firstn (length binary) (skipn i labels)))%Z /\
    (tn cm' + fp cm'
     = tn cm + fp cm
       + countZeros (firstn (length binary) (skipn i labels)))%Z.
Proof.
  unfold countOnes, countZeros.
  induction 1 as [|p rest Hp _ IH]; intros i labels cm cm' Hrun;
    cbn [countLoop] in Hrun.
  - assert (cm' = cm) as -> by congruence. cbn. lia.
  - destruct (nth_error labels i) as [actual|] eqn:Hnth; [|discriminate].
    apply IH in Hrun as [H1 H0].
    destruct (tally_classes cm actual Hp) as [T1 T0].
    rewrite (skipn_nth_error _ _ Hnth). cbn [length firstn filter].
    destruct (Qeq_bool actual 1), (Qeq_bool actual 0); cbn [length]; lia.
Qed.

(** X23.  The confusion matrix of [evaluateFold] splits the evaluated
    labels by class: [tp + fn] is the number of evaluated labels [=== 1]
    (the positives that the auc ranks) and [tn + fp] the number of those
    [=== 0]. *)
Theorem evaluateFold_counts_each_class
    (predictions labels : list Q) (r : FoldResult)
    (Hr : evaluateFold predictions labels = Returned r) :
  let evaluated := firstn (length predictions) labels in
  (tp (confusionMatrix r) + fn (confusionMatrix r) = countOnes evaluated)%Z /\
  (tn (confusionMatrix r) + fp (confusionMatrix r) = countZeros evaluated)%Z.
Proof.
  intros evaluated. unfold evaluateFold in Hr.
  destruct (countLoop (map binarize predictions) 0 labels (mkCM 0 0 0 0))
    as [cm|e] eqn:Hcm; [|discriminate].
  cbn [JS.bind] in Hr.
  destruct (makePairs predictions 0 labels) as [ps|e]; [|discriminate].
  cbn [JS.bind] in Hr.
  apply (f_equal (fun o => match o with Returned a => a | Thrown _ => r end))
    in Hr.
  subst r. cbn [confusionMatrix].
  apply countLoop_classes in Hcm.
  - rewrite length_map in Hcm. cbn [skipn tp fp tn fn] in Hcm.
    fold evaluated in Hcm. lia.
  - apply Forall_forall. intros z Hz.
    apply in_map_iff in Hz as (p & <- & _). apply binarize_0_or_1.
Qed.

Lemma evaluateFold_counts_each_class_witness :
  exists r,
    evaluateFold [9 # 10; 2 # 10; 7 # 10; 1 # 10; 8 # 10] [1; 1; 0; 2; 1]
      = Returned r /\
    confusionMatrix r = mkCM 2 1 0 1 /\
    (tp (confusionMatrix r) + fn (confusionMatrix r) = 3)%Z /\
    (tn (confusionMatrix r) + fp (confusionMatrix r) = 1)%Z.
Proof.
  eexists. split; [reflexivity|]. split; [reflexivity|].
  apply (@evaluateFold_counts_each_class
           [9 # 10; 2 # 10; 7 # 10; 1 # 10; 8 # 10] [1; 1; 0; 2; 1] _
           eq_refl).
Defined.

Lemma inject_Z_positive (z : Z) : (0 < z)%Z -> 0 < inject_Z z.
Proof. intros H. unfold Qlt. cbn [Qnum Qden inject_Z]. lia. Qed.

Lemma inject_Z_nonnegative (z : Z) : (0 <= z)%Z -> 0 <= inject_Z z.
Proof. intros H. unfold Qle. cbn [Qnum Qden inject_Z]. lia. Qed.

Lemma is_zero_Qred (q : Q) : ~ q == 0 -> is_zero (Qred q) = false.
Proof.
  intros H. apply not_true_is_false. intros E. apply Qeq_bool_iff in E.
  rewrite Qred_correct in E. contradiction.
Qed.

Lemma or_zero_fin (q : Q) : ~ q == 0 -> or_zero (fin q) = fin q.
Proof. intros H. unfold fin. cbn [or_zero]. now rewrite is_zero_Qred. Qed.

Lemma mul_fin (a b : Q) : mul (fin a) (fin b) = fin (a * b).
Proof.
  unfold fin at 1 2. cbn [mul]. apply fin_eq. now rewrite !Qred_correct.
Qed.

Lemma add_fin (a b : Q) : add (fin a) (fin b) = fin (a + b).
Proof.
  unfold fin at 1 2. cbn [add]. apply fin_eq. now rewrite !Qred_correct.
Qed.

Lemma div_fin (a b : Q) : ~ b == 0 -> div (fin a) (fin b) = fin (a / b).
Proof.
  intros H. unfold fin at 1 2. cbn [div]. rewrite is_zero_Qred by exact H.
  apply fin_eq. now rewrite !Qred_correct.
Qed.

Lemma or_zero_ratio_zero (b : Z) :
  or_zero (div (of_Z 0) (of_Z b)) = zero.
Proof.
  destruct (Z.eq_dec b 0) as [->|Hb]; [reflexivity|].
  rewrite of_Z_div by exact Hb. unfold fin. cbn [or_zero].
  assert (E : is_zero (Qred (inject_Z 0 / inject_Z b)) = true).
  { apply Qeq_bool_iff. rewrite Qred_correct. unfold Qdiv.
    change (inject_Z 0) with 0. ring. }
  now rewrite E.
Qed.

(** X24.  The f1 score of [evaluateFold], computed from the precision and
    the recall, is the score of the counts: 0 when there is no true
    positive, and [2 tp / (2 tp + fp + fn)] otherwise (the arithmetic being
    exact). *)
Theorem evaluateFold_f1_from_counts
    (predictions labels : list Q) (r : FoldResult)
    (Hr : evaluateFold predictions labels = Returned r) :
  let cm := confusionMatrix r in
  f1 r = if (tp cm =? 0)%Z then Fin 0
         else fin (inject_Z (2 * tp cm)
                   / inject_Z (2 * tp cm + fp cm + fn cm)).
Proof.
  unfold evaluateFold in Hr.
  destruct (countLoop (map binarize predictions) 0 labels (mkCM 0 0 0 0))
    as [cm|e] eqn:Hcm; [|discriminate].
  cbn [JS.bind] in Hr.
  destruct (makePairs predictions 0 labels) as [ps|e]; [|discriminate].
  cbn [JS.bind] in Hr.
  apply (f_equal (fun o => match o with Returned a => a | Thrown _ => r end))
    in Hr.
  subst r. cbn [f1 confusionMatrix].
  assert (Hnn : nonnegative cm).
  { eapply countLoop_nonnegative; [exact Hcm|]. unfold nonnegative. cbn. lia. }
  destruct Hnn as (Htp & Hfp & Htn & Hfn).
  destruct (Z.eqb_spec (tp cm) 0) as [E|E].
  - rewrite E, !or_zero_ratio_zero. reflexivity.
  - assert (Hp : 0 < inject_Z (tp cm)) by (apply inject_Z_positive; lia).
    assert (Hpf : 0 < inject_Z (tp cm + fp cm))
      by (apply inject_Z_positive; lia).
    assert (Hpn : 0 < inject_Z (tp cm + fn cm))
      by (apply inject_Z_positive; lia).
    assert (Hd : 0 < inject_Z (2 * tp cm + fp cm + fn cm))
      by (apply inject_Z_positive; lia).
    assert (Hprec : 0 < inject_Z (tp cm) / inject_Z (tp cm + fp cm))
      by (apply Qlt_shift_div_l; [exact Hpf|]; now rewrite Qmult_0_l).
    assert (Hrec : 0 < inject_Z (tp cm) / inject_Z (tp cm + fn cm))
      by (apply Qlt_shift_div_l; [exact Hpn|]; now rewrite Qmult_0_l).
    rewrite !of_Z_div by lia.
    rewrite !or_zero_fin
      by (intros H0; rewrite H0 in *;
          match goal with
          | H : 0 < 0 |- _ => now apply Qlt_irrefl in H
          end).
    unfold of_Z at 1. rewrite !mul_fin, add_fin.
    set (p := inject_Z (tp cm) / inject_Z (tp cm + fp cm)) in *.
    set (q := inject_Z (tp cm) / inject_Z (tp cm + fn cm)) in *.
    assert (Hsum : 0 < p + q) by lra.
    assert (Hnum : 0 < inject_Z 2 * (p * q)).
    { change (inject_Z 2) with 2. nra. }
    rewrite div_fin by (intros H0; rewrite H0 in Hsum;
                        now apply Qlt_irrefl in Hsum).
    rewrite or_zero_fin.
    + apply fin_eq. unfold p, q.
      rewrite !inject_Z_plus, !inject_Z_mult.
      rewrite !inject_Z_plus in Hpf, Hpn.
      change (inject_Z 2) with 2. field.
      repeat split.
      * rewrite !inject_Z_plus, !inject_Z_mult in Hd.
        change (inject_Z 2) with 2 in Hd. lra.
      * lra.
      * lra.
      * intros H0.
        assert (0 <= inject_Z (fp cm)) by now apply inject_Z_nonnegative.
        assert (0 <= inject_Z (fn cm)) by now apply inject_Z_nonnegative.
        nra.
    + intros H0.
      assert (Hq : 0 < inject_Z 2 * (p * q) / (p + q))
        by (apply Qlt_shift_div_l; [exact Hsum|]; now rewrite Qmult_0_l).
      rewrite H0 in Hq. now apply Qlt_irrefl in Hq.
Qed.

Lemma evaluateFold_f1_from_counts_witness :
  exists r,
    evaluateFold [9 # 10; 2 # 10; 7 # 10; 1 # 10; 8 # 10] [1; 1; 0; 0; 1]
      = Returned r /\
    confusionMatrix r = mkCM 2 1 1 1 /\
    f1 r = Fin (2 # 3).
Proof.
  eexists. split; [reflexivity|]. split; [reflexivity|].
  rewrite (@evaluateFold_f1_from_counts
             [9 # 10; 2 # 10; 7 # 10; 1 # 10; 8 # 10] [1; 1; 0; 0; 1] _
             eq_refl).
  reflexivity.
Defined.

(** ** The split of the rows *)

Lemma combine_fst_snd {A B : Type} (l : list (A * B)) :
  combine (map fst l) (map snd l) = l.
Proof.
  induction l as [|[a b] rest IH]; [reflexivity|].
  cbn [map combine fst snd]. now rewrite IH.
Qed.

(** X25.  [splitByIndices] keeps every feature row with its own label:
    for indices that are positions of the data, the train rows and the
    train labels, and the test rows and the test labels, are the samples at
    these indices, in the order of the indices, one row and one label per
    index. *)
Theorem splitByIndices_keeps_rows_with_labels
    {X : Type} (samples : list (X * Q)) (trainIndices testIndices : list nat)
    (Htrain : Forall (fun i => (i < length samples)%nat) trainIndices)
    (Htest : Forall (fun i => (i < length samples)%nat) testIndices) :
  let '(xTrain, yTrain, xTest, yTest) :=
    splitByIndices (map fst samples) (map snd samples)
      trainIndices testIndices in
  combine xTrain yTrain = gather samples trainIndices /\
  combine xTest yTest = gather samples testIndices /\
  length xTrain = length trainIndices /\
  length yTrain = length trainIndices /\
  length xTest = length testIndices /\
  length yTest = length testIndices /\
  forall j i,
    nth_error testIndices j = Some i ->
    nth_error (combine xTest yTest) j = nth_error samples i.
Proof.
  unfold splitByIndices. rewrite !gather_map, !combine_fst_snd, !length_map.
  rewrite !gather_length by assumption.
  repeat (split; [reflexivity|]).
  clear Htrain. induction Htest as [|i0 rest Hi0 _ IH]; intros j i Hj.
  - destruct j; discriminate Hj.
  - unfold gather. cbn [flat_map].
    destruct (nth_error samples i0) as [s|] eqn:Es;
      [|apply nth_error_None in Es; lia].
    destruct j as [|j]; cbn [nth_error app] in Hj |- *.
    + injection Hj as <-. now symmetry.
    + now apply IH.
Qed.

Lemma splitByIndices_keeps_rows_with_labels_witness :
  combine [[3 # 10]; [1 # 10]] [1; 0]
  = gather [([1 # 10], 0); ([2 # 10], 0); ([3 # 10], 1)] [2; 0]%nat.
Proof.
  apply (@splitByIndices_keeps_rows_with_labels (list Q)
           [([1 # 10], 0); ([2 # 10], 0); ([3 # 10], 1)] [1]%nat
           [2; 0]%nat).
  - repeat constructor.
  - repeat constructor.
Defined.
